(** * preparehost.py: provisioning of the foreign-architecture compiler runtime

    A shallow embedding of [src/preparehost.py] and the proofs of the
    properties stated about it.  The script is a sequence of calls into the
    Python standard library ([os.path], [os], [shutil], [configparser],
    [subprocess]) over the host file system, so the development has three
    layers:

    - [Py] and [PosixPath]: the string and path functions the script calls,
      written after their CPython definitions;
    - [FS]: a file-system tree with regular files, symbolic links and
      directories, path resolution that follows links, and the [os] and
      [shutil] operations on it;
    - the script itself, in a state-and-exception monad whose state is the
      file system, the global [PLATFORM_SUFFIX] and the trace of external
      commands and messages.

    External programs ([clang], [dnf], [rpm2cpio], [cpio]) and the INI reader
    of [configparser] are parameters of a [host] record: every theorem holds
    for whatever they do.

    A Python [str] is modelled by the bytes of its UTF-8 form, a character
    that stands for an undecodable byte ([surrogateescape], as in a file name
    or in [HOME]) by that byte.  Text files are read and written with the
    encoding of the locale, taken to be UTF-8 as on the Enterprise Linux
    hosts the script is written for: reading a file that is not valid UTF-8
    raises [UnicodeDecodeError], writing a string that is not raises
    [UnicodeEncodeError]. *)

From Stdlib Require Import String Ascii List Bool Arith ZArith Lia.
Import ListNotations.
Open Scope list_scope.
Open Scope string_scope.

(* ===================================================================== *)
(** * Python strings *)
(* ===================================================================== *)

Module Py.

(** [s.startswith(p)] *)
Fixpoint startswith (s p : string) {struct p} : bool :=
  match p with
  | EmptyString => true
  | String a p' =>
      match s with
      | EmptyString => false
      | String b s' => Ascii.eqb a b && startswith s' p'
      end
  end.

(** [s[n:]] *)
Fixpoint drop (n : nat) (s : string) : string :=
  match n, s with
  | S k, String _ r => drop k r
  | _, _ => s
  end.

(** [s[:n]] *)
Fixpoint take (n : nat) (s : string) : string :=
  match n, s with
  | S k, String c r => String c (take k r)
  | _, _ => ""
  end.

(** [s.endswith(suf)] *)
Definition endswith (s suf : string) : bool :=
  Nat.leb (String.length suf) (String.length s) &&
  String.eqb (drop (String.length s - String.length suf) s) suf.

(** [sub in s] *)
Fixpoint contains (sub s : string) : bool :=
  startswith s sub ||
  match s with
  | EmptyString => false
  | String _ r => contains sub r
  end.

(** [s.find(sub)], [None] standing for -1 *)
Fixpoint find (sub s : string) : option nat :=
  if startswith s sub then Some 0
  else match s with
       | EmptyString => None
       | String _ r => option_map S (find sub r)
       end.

(** [s.split(sep, maxsplit=1)] for a non-empty [sep] *)
Definition split_maxsplit1 (sep s : string) : list string :=
  match find sep s with
  | None => [s]
  | Some i => [take i s; drop (i + String.length sep) s]
  end.

(** [s.split(c)] for a one-character separator: never the empty list *)
Fixpoint split_char (c : ascii) (s : string) : list string :=
  match s with
  | EmptyString => [""]
  | String x r =>
      if Ascii.eqb x c then "" :: split_char c r
      else match split_char c r with
           | h :: t => String x h :: t
           | [] => [String x ""]
           end
  end.

(** [s.replace(old, new)]: the occurrences of [old] are taken from left to
    right without overlap.  [skip] counts the characters of a match that are
    still to be dropped. *)
Fixpoint replace_from (old new : string) (skip : nat) (s : string) : string :=
  match s with
  | EmptyString => ""
  | String c r =>
      match skip with
      | S k => replace_from old new k r
      | O => if startswith s old
             then new ++ replace_from old new (String.length old - 1) r
             else String c (replace_from old new 0 r)
      end
  end.

(** with an empty [old], Python puts [new] around every character *)
Fixpoint interleave (new s : string) : string :=
  match s with
  | EmptyString => new
  | String c r => new ++ String c (interleave new r)
  end.

Definition replace (old new s : string) : string :=
  match old with
  | EmptyString => interleave new s
  | _ => replace_from old new 0 s
  end.

(** ASCII white space, what [str.strip()] removes *)
Definition isspace (c : ascii) : bool :=
  let n := nat_of_ascii c in
  (Nat.leb 9 n && Nat.leb n 13) || (Nat.leb 28 n && Nat.leb n 32).

Fixpoint lstrip_by (f : ascii -> bool) (s : string) : string :=
  match s with
  | EmptyString => ""
  | String c r => if f c then lstrip_by f r else s
  end.

Fixpoint rstrip_by (f : ascii -> bool) (s : string) : string :=
  match s with
  | EmptyString => ""
  | String c r =>
      match rstrip_by f r with
      | EmptyString => if f c then "" else String c ""
      | r' => String c r'
      end
  end.

Definition strip (s : string) : string := rstrip_by isspace (lstrip_by isspace s).

(** [sep.join(l)] *)
Definition str_join (sep : string) (l : list string) : string := String.concat sep l.

(** ** Text

    The strict UTF-8 decoder, as an automaton over the bytes: the state says
    what the bytes of the character begun still have to be.  Over-long
    forms, surrogates and code points above U+10FFFF are refused. *)
Inductive utf8_state : Type :=
| U_start                               (* between two characters *)
| U_tail1 | U_tail2 | U_tail3           (* one, two, three bytes 80..BF to come *)
| U_e0                                  (* after E0: A0..BF, then one more *)
| U_ed                                  (* after ED: 80..9F, then one more *)
| U_f0                                  (* after F0: 90..BF, then two more *)
| U_f4.                                 (* after F4: 80..8F, then two more *)

Definition between (lo hi n : nat) : bool := Nat.leb lo n && Nat.leb n hi.

Definition utf8_step (s : utf8_state) (c : ascii) : option utf8_state :=
  let n := nat_of_ascii c in
  match s with
  | U_start =>
      if Nat.ltb n 128 then Some U_start
      else if between 194 223 n then Some U_tail1
      else if Nat.eqb n 224 then Some U_e0
      else if between 225 236 n || between 238 239 n then Some U_tail2
      else if Nat.eqb n 237 then Some U_ed
      else if Nat.eqb n 240 then Some U_f0
      else if between 241 243 n then Some U_tail3
      else if Nat.eqb n 244 then Some U_f4
      else None
  | U_tail1 => if between 128 191 n then Some U_start else None
  | U_tail2 => if between 128 191 n then Some U_tail1 else None
  | U_tail3 => if between 128 191 n then Some U_tail2 else None
  | U_e0 => if between 160 191 n then Some U_tail1 else None
  | U_ed => if between 128 159 n then Some U_tail1 else None
  | U_f0 => if between 144 191 n then Some U_tail2 else None
  | U_f4 => if between 128 143 n then Some U_tail2 else None
  end.

Fixpoint utf8_run (s : utf8_state) (b : string) : option utf8_state :=
  match b with
  | EmptyString => Some s
  | String c r => match utf8_step s c with
                  | Some s' => utf8_run s' r
                  | None => None
                  end
  end.

(** [b.decode('utf-8')] does not raise; for a [str], [s.encode('utf-8')]
    does not raise *)
Definition utf8_valid (b : string) : bool :=
  match utf8_run U_start b with
  | Some U_start => true
  | _ => false
  end.

(** what a text file opened with [newline=None] gives for its decoded
    contents: a carriage return with the line feed after it, and a carriage
    return alone, are read as one line feed *)
Fixpoint universal_newlines (s : string) : string :=
  match s with
  | EmptyString => ""
  | String c r =>
      if Ascii.eqb c "013" then
        match r with
        | String c' r' =>
            if Ascii.eqb c' "010" then String "010" (universal_newlines r')
            else String "010" (universal_newlines r)
        | EmptyString => String "010" ""
        end
      else String c (universal_newlines r)
  end.

End Py.

(* ===================================================================== *)
(** * posixpath *)
(* ===================================================================== *)

Module PosixPath.

Definition is_slash (c : ascii) : bool := Ascii.eqb c "/"%char.

Definition isabs (p : string) : bool := Py.startswith p "/".

(** [os.path.join(a, b)] *)
Definition join (a b : string) : string :=
  if Py.startswith b "/" then b
  else if String.eqb a "" || Py.endswith a "/" then a ++ b
  else a ++ "/" ++ b.

(** [os.path.join(a, b, c)] *)
Definition join3 (a b c : string) : string := join (join a b) c.

(** [p[:i], p[i:]] for [i = p.rfind('/') + 1] *)
Fixpoint cut_last (p : string) : string * string :=
  match p with
  | EmptyString => ("", "")
  | String c r =>
      let '(h, t) := cut_last r in
      match h with
      | EmptyString => if is_slash c then ("/", r) else ("", String c r)
      | _ => (String c h, t)
      end
  end.

Fixpoint all_slashes (s : string) : bool :=
  match s with
  | EmptyString => true
  | String c r => is_slash c && all_slashes r
  end.

(** [os.path.split(p)] *)
Definition split (p : string) : string * string :=
  let '(head, tail) := cut_last p in
  if negb (String.eqb head "") && negb (all_slashes head)
  then (Py.rstrip_by is_slash head, tail)
  else (head, tail).

Definition dirname (p : string) : string := fst (split p).
Definition basename (p : string) : string := snd (split p).

(** the loop of [os.path.normpath] over the components *)
Fixpoint norm_comps (initial_slashes : nat) (new_comps : list string)
                    (comps : list string) : list string :=
  match comps with
  | [] => new_comps
  | comp :: rest =>
      if String.eqb comp "" || String.eqb comp "." then
        norm_comps initial_slashes new_comps rest
      else if negb (String.eqb comp "..")
              || (Nat.eqb initial_slashes 0 && Nat.eqb (length new_comps) 0)
              || (negb (Nat.eqb (length new_comps) 0)
                  && String.eqb (last new_comps "") "..")
      then norm_comps initial_slashes (new_comps ++ [comp])%list rest
      else norm_comps initial_slashes (removelast new_comps) rest
  end.

(** [os.path.normpath(path)] *)
Definition normpath (path : string) : string :=
  if String.eqb path "" then "."
  else
    let initial_slashes :=
      if Py.startswith path "/" then
        if Py.startswith path "//" && negb (Py.startswith path "///") then 2 else 1
      else 0 in
    let comps := norm_comps initial_slashes [] (Py.split_char "/" path) in
    let path' := Py.str_join "/" comps in
    let path' := match initial_slashes with
                 | 0 => path'
                 | 1 => "/" ++ path'
                 | _ => "//" ++ path'
                 end in
    if String.eqb path' "" then "." else path'.

(** [os.path.abspath(path)], [cwd] being [os.getcwd()] *)
Definition abspath (cwd path : string) : string :=
  normpath (if isabs path then path else join cwd path).

(** the names a path is made of, as the kernel reads it: empty components
    (repeated or trailing separators) count for nothing *)
Definition components (p : string) : list string :=
  filter (fun c => negb (String.eqb c "")) (Py.split_char "/" p).

End PosixPath.

(* ===================================================================== *)
(** * Exceptions *)
(* ===================================================================== *)

(** The Python exceptions the script can end with. *)
Inductive exn : Type :=
| FileNotFoundError
| FileExistsError
| NotADirectoryError
| IsADirectoryError
| SameFileError
| OSError                               (* any other [OSError], e.g. ELOOP *)
| ShutilError                           (* [shutil.Error] of [copytree] *)
| CalledProcessError (returncode : Z) (cmd : list string)
                                        (* [cmd]: the argument list of
                                           [subprocess.run], or the one string
                                           [popen_cm] joins the arguments into *)
| TypeError
| ValueError
| UnicodeDecodeError                    (* these two are [ValueError]s in Python *)
| UnicodeEncodeError
| IndexError
| KeyError (key : string).

(** a result or an exception *)
Definition res (A : Type) : Type := (exn + A)%type.

(* ===================================================================== *)
(** * The file system *)
(* ===================================================================== *)

Module FS.
Import PosixPath.
Local Open Scope list_scope.

(** A node is a regular file with its contents, a symbolic link with its
    target, or a directory with its entries in listing order. *)
#[warnings="-register-all"]
Inductive node : Type :=
| File (data : string)
| Link (target : string)
| Dir (entries : list (string * node)).

(** A location: the names from the root down, none of them a link on the way. *)
Definition loc : Type := list string.

Fixpoint lookup (name : string) (es : list (string * node)) : option node :=
  match es with
  | [] => None
  | (n, x) :: r => if String.eqb n name then Some x else lookup name r
  end.

Fixpoint get (root : node) (p : loc) : option node :=
  match p with
  | [] => Some root
  | name :: rest =>
      match root with
      | Dir es => match lookup name es with
                  | Some x => get x rest
                  | None => None
                  end
      | _ => None
      end
  end.

(** replace the entry [name], or add it at the end of the listing *)
Fixpoint set_entry (name : string) (x : node) (es : list (string * node))
  : list (string * node) :=
  match es with
  | [] => [(name, x)]
  | (n, y) :: r => if String.eqb n name then (n, x) :: r
                   else (n, y) :: set_entry name x r
  end.

Fixpoint remove_entry (name : string) (es : list (string * node))
  : list (string * node) :=
  match es with
  | [] => []
  | (n, y) :: r => if String.eqb n name then r else (n, y) :: remove_entry name r
  end.

Fixpoint map_entry (name : string) (f : node -> node) (es : list (string * node))
  : list (string * node) :=
  match es with
  | [] => []
  | (n, y) :: r => if String.eqb n name then (n, f y) :: r
                   else (n, y) :: map_entry name f r
  end.

(** the node at [p] becomes [x]: its entry in the parent directory is
    replaced, or added at the end of the listing *)
Fixpoint put (p : loc) (x : node) (root : node) : node :=
  match p with
  | [] => x
  | name :: rest =>
      match root with
      | Dir es => match rest with
                  | [] => Dir (set_entry name x es)
                  | _ => Dir (map_entry name (put rest x) es)
                  end
      | _ => root
      end
  end.

(** the node at [p] is unlinked from its parent directory *)
Fixpoint del (p : loc) (root : node) : node :=
  match p with
  | [] => root
  | name :: rest =>
      match root with
      | Dir es => match rest with
                  | [] => Dir (remove_entry name es)
                  | _ => Dir (map_entry name (del rest) es)
                  end
      | _ => root
      end
  end.

(** ** Path resolution

    [resolve_from links root follow cur todo] walks the names [todo] from the
    directory at [cur], following symbolic links ([links] bounds their number,
    as the kernel's ELOOP limit does).  It returns the location named: every
    name before the last one must be a directory, the last one may be
    missing.  With [follow = false] a link in last position is not followed
    ([lstat], [mkdir], [islink]). *)
Fixpoint resolve_from (links : nat) (root : node) (follow : bool)
                      (cur : loc) (todo : list string) {struct links} : res loc :=
  (fix go (cur : loc) (todo : list string) {struct todo} : res loc :=
     match todo with
     | [] => inr cur
     | c :: rest =>
         if String.eqb c "." then go cur rest
         else if String.eqb c ".." then go (removelast cur) rest
         else
           match get root (cur ++ [c]) with
           | None => match rest with
                     | [] => inr (cur ++ [c])
                     | _ => inl FileNotFoundError
                     end
           | Some (File _) => match rest with
                              | [] => inr (cur ++ [c])
                              | _ => inl NotADirectoryError
                              end
           | Some (Dir _) => go (cur ++ [c]) rest
           | Some (Link t) =>
               match rest, follow with
               | [], false => inr (cur ++ [c])
               | _, _ =>
                   if String.eqb t "" then inl FileNotFoundError
                   else
                     match links with
                     | O => inl OSError
                     | S l => resolve_from l root follow
                                (if isabs t then [] else cur)
                                (components t ++ rest)
                     end
               end
           end
     end) cur todo.

(** the kernel follows at most 40 links in one lookup *)
Definition MAXSYMLINKS : nat := 40.

(** the location a path string names, from the working directory [cwd] *)
Definition locate (root : node) (cwd : string) (follow : bool) (p : string)
  : res loc :=
  if String.eqb p "" then inl FileNotFoundError
  else resolve_from MAXSYMLINKS root follow
         (if isabs p then [] else components cwd) (components p).

(** [os.stat] and [os.lstat] *)
Definition stat (root : node) (cwd : string) (follow : bool) (p : string)
  : option node :=
  match locate root cwd follow p with
  | inr c => get root c
  | inl _ => None
  end.

(** [os.path.exists], [os.path.isdir], [os.path.islink] *)
Definition path_exists (root : node) (cwd p : string) : bool :=
  match stat root cwd true p with Some _ => true | None => false end.

Definition isdir (root : node) (cwd p : string) : bool :=
  match stat root cwd true p with Some (Dir _) => true | _ => false end.

Definition islink (root : node) (cwd p : string) : bool :=
  match stat root cwd false p with Some (Link _) => true | _ => false end.

(** [open(p).read()] *)
Definition read_file (root : node) (cwd p : string) : res string :=
  match locate root cwd true p with
  | inl e => inl e
  | inr c => match get root c with
             | Some (File d) => inr d
             | Some (Dir _) => inl IsADirectoryError
             | Some (Link _) => inl OSError
             | None => inl FileNotFoundError
             end
  end.

(** [open(p, 'w').write(data)]: the file is created or truncated *)
Definition write_file (root : node) (cwd p data : string) : res node :=
  match locate root cwd true p with
  | inl e => inl e
  | inr c => match get root c with
             | Some (Dir _) => inl IsADirectoryError
             | Some (Link _) => inl OSError
             | Some (File _) => inr (put c (File data) root)
             | None => match get root (removelast c) with
                       | Some (Dir _) => inr (put c (File data) root)
                       | _ => inl FileNotFoundError
                       end
             end
  end.

(** [open(p, 'r').read()]: the file is decoded and its line ends are
    translated *)
Definition read_text (root : node) (cwd p : string) : res string :=
  match read_file root cwd p with
  | inl e => inl e
  | inr data => if Py.utf8_valid data then inr (Py.universal_newlines data)
                else inl UnicodeDecodeError
  end.

(** what reaches a text file of the strings written to it one after the
    other: a string that cannot be encoded raises when it is written, and
    the strings written before it stay; the flag tells whether all were
    written *)
Fixpoint encoded (chunks : list string) : string * bool :=
  match chunks with
  | [] => ("", true)
  | c :: r => if Py.utf8_valid c
              then let '(data, ok) := encoded r in ((c ++ data)%string, ok)
              else ("", false)
  end.

(** [with open(p, 'w') as f: f.write(c1); f.write(c2); ...].  Opening creates
    the file or empties it, and raises as [write_file] does when it cannot;
    then the strings are written in turn.  When one of them cannot be
    encoded its [f.write] raises [UnicodeEncodeError], the [with] statement
    closes the file and the exception goes on: the file is left with what
    was written before, the old contents are lost.  On Linux a line feed is
    written as it is. *)
Definition write_text (root : node) (cwd p : string) (chunks : list string)
  : node * res unit :=
  let '(data, ok) := encoded chunks in
  match write_file root cwd p data with
  | inl e => (root, inl e)
  | inr root' => (root', if ok then inr tt else inl UnicodeEncodeError)
  end.

(** [os.mkdir(p)] *)
Definition mkdir (root : node) (cwd p : string) : res node :=
  match locate root cwd false p with
  | inl e => inl e
  | inr c => match get root c with
             | Some _ => inl FileExistsError
             | None => match get root (removelast c) with
                       | Some (Dir _) => inr (put c (Dir []) root)
                       | _ => inl FileNotFoundError
                       end
             end
  end.

(** [os.makedirs(name)] with [exist_ok=False]: the missing leading
    directories are made first.  Every call is on a shorter path, so the
    length of the name bounds the recursion. *)
Fixpoint makedirs_rec (fuel : nat) (root : node) (cwd name : string) : res node :=
  let '(head, tail) := split name in
  let '(head, tail) := if String.eqb tail "" then split head else (head, tail) in
  let made :=
    if negb (String.eqb head "") && negb (String.eqb tail "")
       && negb (path_exists root cwd head)
    then match fuel with
         | O => inl OSError
         | S k => match makedirs_rec k root cwd head with
                  | inl FileExistsError => inr (root, String.eqb tail ".")
                  | inl e => inl e
                  | inr root' => inr (root', String.eqb tail ".")
                  end
         end
    else inr (root, false) in
  match made with
  | inl e => inl e
  | inr (root', true) => inr root'
  | inr (root', false) => mkdir root' cwd name
  end.

Definition makedirs (root : node) (cwd name : string) : res node :=
  makedirs_rec (String.length name) root cwd name.

(** [shutil.rmtree(p)] *)
Definition rmtree (root : node) (cwd p : string) : res node :=
  match locate root cwd false p with
  | inl e => inl e
  | inr c => match get root c with
             | None => inl FileNotFoundError
             | Some (Link _) => inl OSError
             | Some (File _) => inl NotADirectoryError
             | Some (Dir _) => match c with
                               | [] => inl OSError
                               | _ => inr (del c root)
                               end
             end
  end.

(** [shutil.copyfile(src, dst)] *)
Definition copyfile (root : node) (cwd src dst : string) : res node :=
  match locate root cwd true src with
  | inl e => inl e
  | inr cs =>
      match get root cs with
      | None => inl FileNotFoundError
      | Some (Dir _) => inl IsADirectoryError
      | Some (Link _) => inl OSError
      | Some (File d) =>
          match locate root cwd true dst with
          | inr cd => if list_eq_dec string_dec cs cd then inl SameFileError
                      else write_file root cwd dst d
          | inl _ => write_file root cwd dst d
          end
      end
  end.

(** [os.listdir(p)] *)
Definition listdir (root : node) (cwd p : string) : res (list string) :=
  match locate root cwd true p with
  | inl e => inl e
  | inr c => match get root c with
             | Some (Dir es) => inr (map fst es)
             | Some _ => inl NotADirectoryError
             | None => inl FileNotFoundError
             end
  end.

(** what a link found in the directory at [dir] points to *)
Definition link_target (root : node) (dir : loc) (t : string) : option (loc * node) :=
  if String.eqb t "" then None
  else match resolve_from MAXSYMLINKS root true
               (if isabs t then [] else dir) (components t) with
       | inr c => match get root c with
                  | Some x => Some (c, x)
                  | None => None
                  end
       | inl _ => None
       end.

(** [DirEntry.is_dir()], which follows links *)
Definition entry_is_dir (root : node) (dir : loc) (x : node) : bool :=
  match x with
  | Dir _ => true
  | File _ => false
  | Link t => match link_target root dir t with
              | Some (_, Dir _) => true
              | _ => false
              end
  end.

(** ** [shutil.copytree]

    [copy_node fuel symlinks root at x] is the copy made of the node [x] found
    at [at]: the copied node, if any, and whether an error was recorded.  With
    [symlinks = true] a link is recreated as a link to the same target; with
    [symlinks = false] it is replaced by a copy of what it points to, and a
    link that points nowhere is an error, recorded while the copy goes on.
    [fuel] bounds the number of links followed on one branch (a link to an
    enclosing directory makes Python recurse until the path is too long). *)
Fixpoint copy_node (fuel : nat) (symlinks : bool) (root : node)
                   (at_ : loc) (x : node) {struct fuel} : option node * bool :=
  (fix go (at_ : loc) (x : node) {struct x} : option node * bool :=
     match x with
     | File d => (Some (File d), false)
     | Dir es =>
         let r :=
           (fix entries (es : list (string * node)) : list (string * node) * bool :=
              match es with
              | [] => ([], false)
              | (n, y) :: rest =>
                  let '(y', e1) := go (at_ ++ [n]) y in
                  let '(rest', e2) := entries rest in
                  (match y' with
                   | Some v => (n, v) :: rest'
                   | None => rest'
                   end, e1 || e2)
              end) es in
         (Some (Dir (fst r)), snd r)
     | Link t =>
         if symlinks then (Some (Link t), false)
         else match fuel with
              | O => (None, true)
              | S f => match link_target root (removelast at_) t with
                       | Some (c, y) => copy_node f symlinks root c y
                       | None => (None, true)
                       end
              end
     end) at_ x.

(** [shutil.copytree(src, dst, symlinks=symlinks)].  The source is listed
    first, then the destination is made with [os.makedirs] (it must not
    exist), then the entries are copied; the errors met are raised together
    at the end, as [shutil.Error], after everything else has been copied.
    The copy is taken from the tree as it is when the call starts. *)
Definition copytree (root : node) (cwd src dst : string) (symlinks : bool)
  : node * res unit :=
  match locate root cwd true src with
  | inl e => (root, inl e)
  | inr cs =>
      match get root cs with
      | None => (root, inl FileNotFoundError)
      | Some (File _) | Some (Link _) => (root, inl NotADirectoryError)
      | Some (Dir es) =>
          match makedirs root cwd dst with
          | inl e => (root, inl e)
          | inr root1 =>
              match locate root1 cwd true dst with
              | inl e => (root1, inl e)
              | inr cd =>
                  match get root1 cd, copy_node MAXSYMLINKS symlinks root cs (Dir es) with
                  | Some (Dir _), (Some t, err) =>
                      (put cd t root1, if err then inl ShutilError else inr tt)
                  | Some (Dir _), (None, _) => (root1, inl ShutilError)
                  | _, _ => (root1, inl NotADirectoryError)
                  end
              end
          end
      end
  end.

(** ** [os.walk]

    Top-down, links to directories not followed: a directory gives its path,
    the names of its entries that are directories (links to directories
    among them) and the names of the others; then its real sub-directories
    are walked in listing order.  The triples are those of the tree as it is
    when the walk starts. *)
Fixpoint walk_node (root : node) (top : string) (at_ : loc) (x : node)
  : list (string * list string * list string) :=
  match x with
  | Dir es =>
      (top,
       map fst (filter (fun e => entry_is_dir root at_ (snd e)) es),
       map fst (filter (fun e => negb (entry_is_dir root at_ (snd e))) es))
      :: (fix subdirs (es : list (string * node)) :=
            match es with
            | [] => []
            | (n, y) :: rest =>
                match y with
                | Dir _ => walk_node root (join top n) (at_ ++ [n]) y
                | _ => []
                end ++ subdirs rest
            end) es
  | _ => []
  end.

Definition walk (root : node) (cwd top : string)
  : list (string * list string * list string) :=
  match locate root cwd true top with
  | inr c => match get root c with
             | Some x => walk_node root top c x
             | None => []
             end
  | inl _ => []
  end.

End FS.

(* ===================================================================== *)
(** * pathlib and configparser *)
(* ===================================================================== *)

Module Pathlib.
Import Py.

(** the root of a parsed [PurePosixPath]: two leading slashes are kept, any
    other number of them is one *)
Definition root_of (p : string) : string :=
  if startswith p "/" then
    if startswith p "//" && negb (startswith p "///") then "//" else "/"
  else "".

(** its names: empty components and [.] are dropped when a path is parsed *)
Definition names (p : string) : list string :=
  filter (fun c => negb (String.eqb c "") && negb (String.eqb c "."))
         (split_char "/" p).

Fixpoint strip_prefix (pre l : list string) : option (list string) :=
  match pre, l with
  | [], _ => Some l
  | x :: pre', y :: l' => if String.eqb x y then strip_prefix pre' l' else None
  | _ :: _, [] => None
  end.

(** [str(Path(self).relative_to(other))] *)
Definition relative_to (self other : string) : res string :=
  if String.eqb (root_of self) (root_of other) then
    match strip_prefix (names other) (names self) with
    | Some [] => inr "."
    | Some rest => inr (str_join "/" rest)
    | None => inl ValueError
    end
  else inl ValueError.

End Pathlib.

Module ConfigParser.
Local Open Scope list_scope.

(** What a [ConfigParser] holds once a file is read: the options of the
    [DEFAULT] section and the sections in file order, each with its options
    in order.  Option names are stored lower-cased ([optionxform]). *)
Record config : Type := {
  defaults : list (string * string);
  sections : list (string * list (string * string))
}.

Definition empty : config := {| defaults := []; sections := [] |}.

Fixpoint assoc {A : Type} (k : string) (l : list (string * A)) : option A :=
  match l with
  | [] => None
  | (k', v) :: r => if String.eqb k' k then Some v else assoc k r
  end.

(** [d[k] = v] on an ordered dict: an existing key keeps its place *)
Fixpoint assoc_set {A : Type} (k : string) (v : A) (l : list (string * A))
  : list (string * A) :=
  match l with
  | [] => [(k, v)]
  | (k', v') :: r => if String.eqb k' k then (k', v) :: r
                     else (k', v') :: assoc_set k v r
  end.

(** the value of the option [opt] of [section], without the [DEFAULT]
    fallback *)
Definition get_option (c : config) (section opt : string) : option string :=
  match assoc section (sections c) with
  | Some kv => assoc opt kv
  | None => None
  end.

(** ** The check of [BasicInterpolation.before_set]

    A value may hold [%%] and [%(name)s]; any other [%] is refused. *)

(** the length of a [%(name)s] reference at the head of [s], if there is one *)
Fixpoint ref_body (seen : nat) (s : string) : option nat :=
  match s with
  | String ")" (String "s" _) => match seen with O => None | _ => Some (seen + 2) end
  | String ")" _ => None
  | String _ r => ref_body (S seen) r
  | EmptyString => None
  end.

Definition ref_at (s : string) : option nat :=
  match s with
  | String "%" (String "(" r) => option_map (fun n => n + 2) (ref_body 0 r)
  | _ => None
  end.

(** [_KEYCRE.sub('', s)] *)
Fixpoint drop_refs (skip : nat) (s : string) : string :=
  match s with
  | EmptyString => ""
  | String c r =>
      match skip with
      | S k => drop_refs k r
      | O => match ref_at s with
             | Some n => drop_refs (n - 1) r
             | None => String c (drop_refs 0 r)
             end
      end
  end.

Definition before_set_ok (value : string) : bool :=
  negb (Py.contains "%" (drop_refs 0 (Py.replace "%%" "" value))).

(** [cfg[section][opt] = value]: the section must exist ([KeyError]
    otherwise), a non-empty value must pass the interpolation check
    ([ValueError] otherwise), and the option is set under its lower-cased
    name, which for the one name the script sets is the name itself. *)
Definition setitem (c : config) (section opt value : string) : res config :=
  match assoc section (sections c) with
  | None =>
      if String.eqb section "DEFAULT" then
        if String.eqb value "" || before_set_ok value
        then inr {| defaults := assoc_set opt value (defaults c);
                    sections := sections c |}
        else inl ValueError
      else inl (KeyError section)
  | Some kv =>
      if String.eqb value "" || before_set_ok value
      then inr {| defaults := defaults c;
                  sections := assoc_set section (assoc_set opt value kv)
                                        (sections c) |}
      else inl ValueError
  end.

(** ** [ConfigParser.write]

    [write(fp)] calls [fp.write] once for the header of a section, once for
    each of its options and once for the empty line that ends it: the
    [DEFAULT] section first when it has options, then the sections in
    order.  A line feed inside a value is followed by a tab. *)

Definition write_option (kv : string * string) : string :=
  fst kv ++ " = " ++ Py.replace (String "010" "") (String "010" (String "009" "")) (snd kv)
  ++ String "010" "".

Definition write_section (name : string) (items : list (string * string))
  : list string :=
  ("[" ++ name ++ "]" ++ String "010" "")%string
  :: map write_option items ++ [String "010" ""].

Definition write_chunks (c : config) : list string :=
  (match defaults c with
   | [] => []
   | d => write_section "DEFAULT" d
   end)
  ++ flat_map (fun s => write_section (fst s) (snd s)) (sections c).

(** the text a file holds once all of it is written *)
Definition write (c : config) : string := String.concat "" (write_chunks c).

End ConfigParser.

(* ===================================================================== *)
(** * The host and the state of a run *)
(* ===================================================================== *)

(** A child process started with [subprocess.Popen]: its command line, its
    working directory, and the command whose standard output feeds its
    standard input, if any. *)
Record process : Type := {
  args : list string;
  proc_cwd : option string;
  proc_stdin : option (list string)
}.

(** What the script exchanges with the outside. *)
Inductive event : Type :=
| EvRun (argv : list string) (cwd : option string) (returncode : Z)
| EvPopen (p : process)
| EvWait (p : process) (returncode : Z)
| EvPrint (msg : string).

(** The host: the home directory, the working directory, what external
    commands do to the file system (with their exit code and standard
    output), and the INI reader of [configparser]: what [ConfigParser.read]
    makes of a file with the given bytes, or the exception it raises on
    them. *)
Record host : Type := {
  HOMEDIR : string;
  getcwd : string;
  exec : list string -> option string -> FS.node -> FS.node * Z * string;
  child : process -> FS.node -> FS.node * Z;
  ini_read : string -> res ConfigParser.config
}.

Record state : Type := {
  fs : FS.node;
  PLATFORM_SUFFIX : option string;
  trace : list event
}.

Definition with_fs (st : state) (root : FS.node) : state :=
  {| fs := root; PLATFORM_SUFFIX := PLATFORM_SUFFIX st; trace := trace st |}.

Definition with_suffix (st : state) (s : option string) : state :=
  {| fs := fs st; PLATFORM_SUFFIX := s; trace := trace st |}.

Definition with_event (st : state) (e : event) : state :=
  {| fs := fs st; PLATFORM_SUFFIX := PLATFORM_SUFFIX st;
     trace := (trace st ++ [e])%list |}.

(** ** The monad: a state, and a result or an exception *)

Definition M (A : Type) : Type := state -> res A * state.

Definition ret {A : Type} (a : A) : M A := fun st => (inr a, st).

Definition raise {A : Type} (e : exn) : M A := fun st => (inl e, st).

Definition bind {A B : Type} (m : M A) (k : A -> M B) : M B :=
  fun st => match m st with
            | (inr a, st') => k a st'
            | (inl e, st') => (inl e, st')
            end.

Declare Scope monad_scope.
Delimit Scope monad_scope with monad.
Notation "x <- m ;; k" := (bind m (fun x => k))
  (at level 61, m at next level, right associativity) : monad_scope.
Notation "m ;;; k" := (bind m (fun _ => k))
  (at level 61, right associativity) : monad_scope.
Local Open Scope monad_scope.

(** a query of the file system *)
Definition ask {A : Type} (f : FS.node -> A) : M A := fun st => (inr (f (fs st)), st).

(** a query that may raise *)
Definition try_ask {A : Type} (f : FS.node -> res A) : M A := fun st => (f (fs st), st).

(** an operation that changes the file system or raises, leaving it as it was *)
Definition update (f : FS.node -> res FS.node) : M unit :=
  fun st => match f (fs st) with
            | inr root => (inr tt, with_fs st root)
            | inl e => (inl e, st)
            end.

(** an operation that may change the file system and raise as well *)
Definition effect (f : FS.node -> FS.node * res unit) : M unit :=
  fun st => let '(root, r) := f (fs st) in (r, with_fs st root).

Definition emit (e : event) : M unit := fun st => (inr tt, with_event st e).

(** [for x in l: body(x)] *)
Fixpoint for_each {A : Type} (l : list A) (body : A -> M unit) : M unit :=
  match l with
  | [] => ret tt
  | x :: r => body x ;;; for_each r body
  end.

(* ===================================================================== *)
(** * The script *)
(* ===================================================================== *)

Section Script.
Import Py PosixPath.

Variable h : host.

(** [printr] *)
Definition printr (msg : string) : M unit := emit (EvPrint msg).

(** [subprocess.run(argv, cwd=cwd, check=check)], giving the standard
    output.  The program is taken to be started and to end: what the host's
    [exec] gives is its exit code, its output and the file system it
    leaves.  (A program that is not on the PATH makes [subprocess.run]
    raise instead; such runs are not described.) *)
Definition subprocess_run (argv : list string) (cwd : option string)
                          (check : bool) : M string :=
  fun st =>
    let '(root, rc, out) := exec h argv cwd (fs st) in
    let st' := with_event (with_fs st root) (EvRun argv cwd rc) in
    if check && negb (Z.eqb rc 0) then (inl (CalledProcessError rc argv), st')
    else (inr out, st').

(** [subprocess.Popen(argv, stdin=..., cwd=...)]: a [None] among the
    arguments is a [TypeError], a working directory that is not there a
    [FileNotFoundError] *)
Definition Popen (argv : list (option string)) (stdin : option process)
                 (cwd : option string) : M process :=
  match fold_right (fun a acc => match a, acc with
                                 | Some x, Some l => Some (x :: l)
                                 | _, _ => None
                                 end) (Some []) argv with
  | None => raise TypeError
  | Some argv' =>
      dir_ok <- ask (fun root => match cwd with
                                 | Some d => FS.isdir root (getcwd h) d
                                 | None => true
                                 end) ;;
      if dir_ok then
        let p := {| args := argv'; proc_cwd := cwd;
                    proc_stdin := option_map args stdin |} in
        emit (EvPopen p) ;;; ret p
      else raise FileNotFoundError
  end.

(** [p.wait()] *)
Definition wait (p : process) : M Z :=
  fun st =>
    let '(root, rc) := child h p (fs st) in
    (inr rc, with_event (with_fs st root) (EvWait p rc)).

(** [popen_cm]: the process is started, the body of the [with] statement
    runs, then the process is waited for and, with [check], a non-zero exit
    code is raised.  An exception in the body leaves before the wait. *)
Definition popen_cm {A : Type} (argv : list (option string)) (check : bool)
                    (stdin : option process) (cwd : option string)
                    (body : process -> M A) : M A :=
  p <- Popen argv stdin cwd ;;
  r <- body p ;;
  retcode <- wait p ;;
  if check && negb (Z.eqb retcode 0)
  then raise (CalledProcessError retcode [str_join " " (args p)]%list)
  else ret r.

(** how an f-string prints [PLATFORM_SUFFIX] *)
Definition fmt_suffix (s : option string) : string :=
  match s with Some x => x | None => "None" end.

(** a string argument is tested for truth: [None] and [''] are false *)
Definition truthy (s : option string) : option string :=
  match s with
  | Some "" => None
  | _ => s
  end.

(** [get_libgcc_path], with its keyword arguments [rtlib] (by default
    ['compiler-rt']) and [platform] (by default [None]).  What [clang]
    prints is taken as it comes: for the ASCII text that the path of a
    library is, [decode('utf8')] changes nothing and [str.strip] removes the
    white space of [isspace]. *)
Definition rtlib_default : option string := Some "compiler-rt".

(** lines 85-90: the command line of the probe *)
Definition probe_cmdline (rtlib platform : option string) (suffix : option string)
  : list string :=
  let cmdline := ["clang"]%list in
  let cmdline := match truthy rtlib with
                 | Some r => (cmdline ++ [("--rtlib=" ++ r)%string])%list
                 | None => cmdline
                 end in
  let cmdline := match truthy platform with
                 | Some p => (cmdline ++ [("--target=" ++ p ++ "-"
                                           ++ fmt_suffix suffix)%string])%list
                 | None => cmdline
                 end in
  (cmdline ++ ["--print-libgcc-file-name"])%list.

Definition get_libgcc_path (rtlib platform : option string) : M string :=
  fun st =>
    let cmdline := probe_cmdline rtlib platform (PLATFORM_SUFFIX st) in
    (libgcc_path <- subprocess_run cmdline None true ;;
     ret (abspath (getcwd h) (strip libgcc_path))) st.

(** [populate_platform_suffix] *)
Definition populate_platform_suffix : M unit :=
  libgcc_path <- get_libgcc_path rtlib_default None ;;
  let default_platform := snd (split (fst (split libgcc_path))) in
  match nth_error (split_maxsplit1 "-" default_platform) 1 with
  | None => raise IndexError
  | Some suffix =>
      (fun st => (inr tt, with_suffix st (Some suffix))) ;;;
      printr ("Detected platform suffix: '" ++ suffix ++ "'")
  end.

(** ** [install_alt_platforms_rtlib], step by step *)

Definition TARGET_PLATFORMS : list string := ["x86_64"]%list.

(** lines 118-130: the scratch directory is removed if it is there, then
    made again with the download directory and the copies of the system's
    repository definitions and main configuration *)
Definition make_scratch (platform yumdir yumcfgfile yumrepodir yumrpmdir : string)
  : M unit :=
  printr ("Creating DNF repo for platform '" ++ platform ++ "' at '"
          ++ yumdir ++ "' ...") ;;;
  there <- ask (fun root => FS.path_exists root (getcwd h) yumdir) ;;
  (if there then update (fun root => FS.rmtree root (getcwd h) yumdir)
   else ret tt) ;;;
  update (fun root => FS.makedirs root (getcwd h) yumdir) ;;;
  update (fun root => FS.makedirs root (getcwd h) yumrpmdir) ;;;
  (fun st =>
     let '(root, r) := FS.copytree (fs st) (getcwd h) "/etc/yum.repos.d"
                                   yumrepodir false in
     (r, with_fs st root)) ;;;
  update (fun root => FS.copyfile root (getcwd h) "/etc/dnf/dnf.conf" yumcfgfile).

(** lines 132-137.  [ConfigParser.read] skips a file it cannot open; what it
    makes of the bytes of one it can open, the decoding included, is the
    host's [ini_read].  The file is then opened for writing, which empties
    it, and [ConfigParser.write] writes it piece by piece. *)
Definition edit_config (yumcfgfile yumrepodir : string) : M unit :=
  text <- ask (fun root => FS.read_file root (getcwd h) yumcfgfile) ;;
  dnfcfg <- (match text with
             | inr t => fun st => (ini_read h t, st)
             | inl _ => ret ConfigParser.empty
             end) ;;
  dnfcfg <- (fun st => (ConfigParser.setitem dnfcfg "main" "reposdir" yumrepodir, st)) ;;
  effect (fun root => FS.write_text root (getcwd h) yumcfgfile
                                    (ConfigParser.write_chunks dnfcfg)).

(** lines 140-148: the body of the inner loop, for one file name.  The file
    is read as text, then opened again for writing, and the new contents are
    written with one [f.write]. *)
Definition edit_repo_file (platform yumrepodir dirname filename : string) : M unit :=
  if negb (endswith filename ".repo") then ret tt
  else
    let editfn := join3 yumrepodir dirname filename in
    contents <- try_ask (fun root => FS.read_text root (getcwd h) editfn) ;;
    let contents := replace "$basearch" platform contents in
    effect (fun root => FS.write_text root (getcwd h) editfn [contents]%list).

Definition edit_repos (platform yumrepodir : string) : M unit :=
  triples <- ask (fun root => FS.walk root (getcwd h) yumrepodir) ;;
  for_each triples (fun '(dirname, _, filenames) =>
    for_each filenames (edit_repo_file platform yumrepodir dirname)).

(** lines 118-148: the private repository context of one platform *)
Definition build_repo (platform yumdir yumcfgfile yumrepodir yumrpmdir : string)
  : M unit :=
  make_scratch platform yumdir yumcfgfile yumrepodir yumrpmdir ;;;
  edit_config yumcfgfile yumrepodir ;;;
  edit_repos platform yumrepodir.

(** lines 150-161: the first name of the listing that ends in [.rpm] and
    holds [compiler-rt] *)
Fixpoint find_rpm (yumrpmdir : string) (listing : list string) : option string :=
  match listing with
  | [] => None
  | fn :: rest =>
      if endswith fn ".rpm" && contains "compiler-rt" fn
      then Some (join yumrpmdir fn)
      else find_rpm yumrpmdir rest
  end.

Definition fetch (platform yumcfgfile yumrpmdir : string) : M (option string) :=
  printr ("Setting up compiler-rt for platform '" ++ platform ++ "' ...") ;;;
  subprocess_run ["dnf"; "-c"; yumcfgfile; "check-update"]%list None false ;;;
  subprocess_run ["dnf"; "-c"; yumcfgfile; "download";
                  ("compiler-rt." ++ platform)%string]%list
                 (Some yumrpmdir) true ;;;
  listing <- try_ask (fun root => FS.listdir root (getcwd h) yumrpmdir) ;;
  ret (find_rpm yumrpmdir listing).

(** lines 162-166 *)
Definition extract (libgcc_rpm_file : option string) (extractdir : string) : M unit :=
  update (fun root => FS.makedirs root (getcwd h) extractdir) ;;;
  popen_cm [Some "rpm2cpio"; libgcc_rpm_file]%list true None None (fun p1 =>
    popen_cm [Some "cpio"; Some "-idm"]%list false (Some p1) (Some extractdir)
      (fun _ => ret tt)).

(** lines 168-176: the two nested loops with their [break]s *)
Fixpoint find_dir (platform_triplet extractdir dirname : string)
                  (dirnames : list string) : option string :=
  match dirnames with
  | [] => None
  | idir :: rest =>
      if String.eqb idir platform_triplet
      then Some (join3 extractdir dirname idir)
      else find_dir platform_triplet extractdir dirname rest
  end.

Fixpoint find_libgcc_dir (platform_triplet extractdir : string)
                         (triples : list (string * list string * list string))
  : option string :=
  match triples with
  | [] => None
  | (dirname, dirnames, _) :: rest =>
      match find_dir platform_triplet extractdir dirname dirnames with
      | Some d => Some d
      | None => find_libgcc_dir platform_triplet extractdir rest
      end
  end.

Definition locate_libgcc_dir (platform_triplet extractdir : string)
  : M (option string) :=
  triples <- ask (fun root => FS.walk root (getcwd h) extractdir) ;;
  ret (find_libgcc_dir platform_triplet extractdir triples).

(** lines 178-185: [Path(None)] is a [TypeError] *)
Definition install (libgcc_extract_dir : option string) (extractdir : string)
  : M unit :=
  match libgcc_extract_dir with
  | None => raise TypeError
  | Some d =>
      libgcc_extract_dir_rel <- (fun st => (Pathlib.relative_to d extractdir, st)) ;;
      (fun st =>
         let '(root, r) := FS.copytree (fs st) (getcwd h) d
                             (join "/" libgcc_extract_dir_rel) true in
         (r, with_fs st root))
  end.

(** the paths of the scratch directory of a platform (lines 119, 123-125
    and 162) *)
Definition yumdir (platform : string) : string :=
  join (HOMEDIR h) ("yum-" ++ platform).
Definition yumcfgfile (platform : string) : string := join (yumdir platform) "dnf.conf".
Definition yumrepodir (platform : string) : string := join (yumdir platform) "yum.repos.d".
Definition yumrpmdir (platform : string) : string := join (yumdir platform) "RPMs".
Definition extractdir (platform : string) : string := join (yumrpmdir platform) "extract".

(** line 109 *)
Definition platform_triplet (platform : string) (st : state) : string :=
  platform ++ "-" ++ fmt_suffix (PLATFORM_SUFFIX st).

(** the body of the loop, for one platform *)
Definition install_platform (platform : string) : M unit :=
  fun st0 =>
  let platform_triplet := platform_triplet platform st0 in
  (libgcc_path <- get_libgcc_path rtlib_default (Some platform) ;;
   there <- ask (fun root => FS.path_exists root (getcwd h) libgcc_path) ;;
   if there then printr ("compiler-rt for " ++ platform ++ " already installed.")
   else
     printr ("installing compiler-rt for " ++ platform ++ " ...") ;;;
     build_repo platform (yumdir platform) (yumcfgfile platform)
                (yumrepodir platform) (yumrpmdir platform) ;;;
     libgcc_rpm_file <- fetch platform (yumcfgfile platform) (yumrpmdir platform) ;;
     extract libgcc_rpm_file (extractdir platform) ;;;
     libgcc_extract_dir <- locate_libgcc_dir platform_triplet (extractdir platform) ;;
     install libgcc_extract_dir (extractdir platform)) st0.

(** [install_alt_platforms_rtlib] *)
Definition install_alt_platforms_rtlib : M unit :=
  for_each TARGET_PLATFORMS install_platform.

End Script.

(* ===================================================================== *)
(** * What the properties are stated with *)
(* ===================================================================== *)

Import Py PosixPath FS.
Local Open Scope list_scope.

(** ** Names, well-formed trees *)

Fixpoint no_slash (s : string) : bool :=
  match s with
  | EmptyString => true
  | String c r => negb (is_slash c) && no_slash r
  end.

(** a valid file name *)
Definition is_name (s : string) : bool :=
  negb (String.eqb s "") && negb (String.eqb s ".") && negb (String.eqb s "..")
  && no_slash s.

(** a name that is neither [.] nor [..] *)
Definition plain (c : string) : Prop := c <> "." /\ c <> "..".

Fixpoint nodupb (l : list string) : bool :=
  match l with
  | [] => true
  | x :: r => negb (existsb (String.eqb x) r) && nodupb r
  end.

(** every directory lists valid names, each once *)
Fixpoint wf (x : node) : bool :=
  match x with
  | Dir es => forallb is_name (map fst es) && nodupb (map fst es)
              && forallb (fun e => wf (snd e)) es
  | _ => true
  end.

(** no symbolic link anywhere in the tree *)
Fixpoint link_free (x : node) : bool :=
  match x with
  | File _ => true
  | Link _ => false
  | Dir es => forallb (fun e => link_free (snd e)) es
  end.

Definition is_dirb (x : node) : bool :=
  match x with Dir _ => true | _ => false end.

(** [p] is [q] or above it *)
Definition prefix_of (p q : loc) : Prop := exists r, q = p ++ r.

(** induction on a tree, with the property known of every entry *)
Section NodeInd.
Variable P : node -> Prop.
Hypothesis HF : forall d, P (File d).
Hypothesis HL : forall t, P (Link t).
Hypothesis HD : forall es, Forall (fun e => P (snd e)) es -> P (Dir es).

Fixpoint node_ind' (x : node) : P x :=
  match x with
  | File d => HF d
  | Link t => HL t
  | Dir es =>
      HD es ((fix go (es : list (string * node)) : Forall (fun e => P (snd e)) es :=
                match es with
                | [] => Forall_nil _
                | e :: r => Forall_cons e (node_ind' (snd e)) (go r)
                end) es)
  end.
End NodeInd.

(** the inner loops of [copy_node] and [walk_node], by name *)
Fixpoint copy_entries (fuel : nat) (symlinks : bool) (root : node) (at_ : loc)
                      (es : list (string * node)) : list (string * node) * bool :=
  match es with
  | [] => ([], false)
  | (n, y) :: rest =>
      let '(y', e1) := copy_node fuel symlinks root (at_ ++ [n]) y in
      let '(rest', e2) := copy_entries fuel symlinks root at_ rest in
      (match y' with
       | Some v => (n, v) :: rest'
       | None => rest'
       end, e1 || e2)
  end.

Fixpoint walk_subdirs (root : node) (top : string) (at_ : loc)
                      (es : list (string * node))
  : list (string * list string * list string) :=
  match es with
  | [] => []
  | (n, y) :: rest =>
      match y with
      | Dir _ => walk_node root (join top n) (at_ ++ [n]) y
      | _ => []
      end ++ walk_subdirs root top at_ rest
  end.

(** ** The rewrite of the repository definitions, as the specification has it *)

(** a repository definition rewritten for [platform]: its line ends read as
    line feeds, every [$basearch] replaced *)
Definition rewrite_text (platform d : string) : string :=
  replace "$basearch" platform (universal_newlines d).

(** what the rewrite makes of a regular file named [n] *)
Definition rewrite_file (platform n d : string) : node :=
  File (if endswith n ".repo" then rewrite_text platform d else d).

(** the tree with every regular file whose name ends in [.repo] rewritten *)
Fixpoint rewrite_tree (platform : string) (x : node) : node :=
  match x with
  | Dir es =>
      Dir (map (fun e => (fst e, match snd e with
                                 | File d => rewrite_file platform (fst e) d
                                 | _ => rewrite_tree platform (snd e)
                                 end)) es)
  | _ => x
  end.

(** a listing with its regular files rewritten, and with its
    sub-directories rewritten too *)
Definition rw_file (platform : string) (e : string * node) : string * node :=
  (fst e, match snd e with
          | File d => rewrite_file platform (fst e) d
          | y => y
          end).

Definition rw_full (platform : string) (e : string * node) : string * node :=
  (fst e, match snd e with
          | File d => rewrite_file platform (fst e) d
          | _ => rewrite_tree platform (snd e)
          end).

(** a byte that is a character of its own in UTF-8, and a string made of
    such bytes *)
Definition is_ascii (c : ascii) : bool := Nat.ltb (nat_of_ascii c) 128.

Fixpoint all_ascii (s : string) : bool :=
  match s with
  | EmptyString => true
  | String c r => is_ascii c && all_ascii r
  end.

(** every regular file of the tree whose name ends in [.repo] is valid
    UTF-8 *)
Fixpoint texts_ok (x : node) : bool :=
  match x with
  | Dir es => forallb (fun e => match snd e with
                                | File d => negb (endswith (fst e) ".repo") || utf8_valid d
                                | _ => texts_ok (snd e)
                                end) es
  | _ => true
  end.

(** *** The rewrite, however it ends

    What lines 142-148 leave of the regular file [n] with contents [d], and
    how they end: a file that cannot be decoded is left as it is, a new text
    that cannot be encoded leaves the file empty. *)
Definition edit_file_outcome (platform n d : string) : node * res unit :=
  if endswith n ".repo" then
    if utf8_valid d then
      if utf8_valid (rewrite_text platform d)
      then (File (rewrite_text platform d), inr tt)
      else (File "", inl UnicodeEncodeError)
    else (File d, inl UnicodeDecodeError)
  else (File d, inr tt).

(** the inner loop on the listing of one directory of a tree without links:
    the regular files are taken in order, up to the first that raises *)
Fixpoint edit_files_of (platform : string) (es : list (string * node))
  : list (string * node) * res unit :=
  match es with
  | [] => ([], inr tt)
  | (n, File d) :: rest =>
      match edit_file_outcome platform n d with
      | (x, inr _) => let '(rest', o) := edit_files_of platform rest in
                      ((n, x) :: rest', o)
      | (x, inl e) => ((n, x) :: rest, inl e)
      end
  | (n, y) :: rest => let '(rest', o) := edit_files_of platform rest in
                      ((n, y) :: rest', o)
  end.

(** the whole walk on a tree without links: the files of a directory first,
    then its sub-directories in listing order, up to the first file that
    raises *)
Fixpoint edit_tree (platform : string) (x : node) : node * res unit :=
  match x with
  | Dir es =>
      match edit_files_of platform es with
      | (es1, inl e) => (Dir es1, inl e)
      | (_, inr _) =>
          let r :=
            (fix subdirs (es : list (string * node))
               : list (string * node) * res unit :=
               match es with
               | [] => ([], inr tt)
               | (n, y) :: rest =>
                   match y with
                   | Dir _ =>
                       match edit_tree platform y with
                       | (y', inr _) => let '(rest', o) := subdirs rest in
                                        ((n, y') :: rest', o)
                       | (y', inl e) => ((n, y') :: map (rw_file platform) rest, inl e)
                       end
                   | _ => let '(rest', o) := subdirs rest in
                          (rw_file platform (n, y) :: rest', o)
                   end
               end) es in
          (Dir (fst r), snd r)
      end
  | _ => (x, inr tt)
  end.

(** its inner loop, by name *)
Fixpoint edit_subdirs_of (platform : string) (es : list (string * node))
  : list (string * node) * res unit :=
  match es with
  | [] => ([], inr tt)
  | (n, y) :: rest =>
      match y with
      | Dir _ =>
          match edit_tree platform y with
          | (y', inr _) => let '(rest', o) := edit_subdirs_of platform rest in
                           ((n, y') :: rest', o)
          | (y', inl e) => ((n, y') :: map (rw_file platform) rest, inl e)
          end
      | _ => let '(rest', o) := edit_subdirs_of platform rest in
             (rw_file platform (n, y) :: rest', o)
      end
  end.

(** [s.split(old)] for a non-empty [old], with [skip] characters of a match
    still to be dropped: the pieces between the occurrences that
    [s.replace(old, new)] replaces *)
Fixpoint split_from (old : string) (skip : nat) (s : string) : list string :=
  match s with
  | EmptyString => [""]
  | String c r =>
      match skip with
      | S k => split_from old k r
      | O => if startswith s old
             then "" :: split_from old (String.length old - 1) r
             else match split_from old 0 r with
                  | h :: t => String c h :: t
                  | [] => [String c ""]
                  end
      end
  end.

(** ** The scratch directory *)

(** where the scratch directory of [platform] is *)
Definition scratch_loc (h : host) (platform : string) : loc :=
  components (HOMEDIR h) ++ ["yum-" ++ platform]%string.

(** The home directory is given by an absolute path and is a real
    directory of a well-formed tree; the platform is a word without a
    separator. *)
Definition sane_host (h : host) (platform : string) (root : node) : Prop :=
  isabs (HOMEDIR h) = true /\ no_slash platform = true /\ wf root = true
  /\ exists es, get root (components (HOMEDIR h)) = Some (Dir es).

(** the scratch directory once filled *)
Definition scratch_dir (t : node) (d : string) : node :=
  Dir [("RPMs", Dir []); ("yum.repos.d", t); ("dnf.conf", File d)].

(** lines 127-130 of the script, the end of [make_scratch] *)
Definition fill_scratch (h : host) (platform : string) : M unit :=
  bind (update (fun root => makedirs root (getcwd h) (yumdir h platform))) (fun _ =>
  bind (update (fun root => makedirs root (getcwd h) (yumrpmdir h platform))) (fun _ =>
  bind (fun st =>
          let '(root, r) := copytree (fs st) (getcwd h) "/etc/yum.repos.d"
                                     (yumrepodir h platform) false in
          (r, with_fs st root)) (fun _ =>
  update (fun root => copyfile root (getcwd h) "/etc/dnf/dnf.conf"
                               (yumcfgfile h platform))))).

(** the body of the outer loop of lines 140-148 *)
Definition edit_repo_dir (h : host) (platform yumrepodir : string)
                         (triple : string * list string * list string) : M unit :=
  let '(dirname, _, filenames) := triple in
  for_each filenames (edit_repo_file h platform yumrepodir dirname).

(** what the walk of lines 140-148 does, stated for one node *)
Definition walk_rewrites (h : host) (platform yumrepodir : string) (x : node) : Prop :=
  wf x = true -> link_free x = true ->
  forall rootW top at_ st,
    isabs top = true -> components top = at_ -> Forall plain at_ ->
    get (fs st) at_ = Some x ->
    for_each (walk_node rootW top at_ x) (edit_repo_dir h platform yumrepodir) st
    = (snd (edit_tree platform x),
       with_fs st (put at_ (fst (edit_tree platform x)) (fs st))).

(** ** The configuration file, line by line *)

(** the line of an option; a line feed inside the value is followed by a
    tab, so that the next line continues the value *)
Definition option_line (kv : string * string) : string :=
  (fst kv ++ " = "
   ++ replace (String "010" "") (String "010" (String "009" "")) (snd kv))%string.

(** the lines of a section: its header, its options, an empty line *)
Definition section_lines (s : string * list (string * string)) : list string :=
  ("[" ++ fst s ++ "]")%string :: map option_line (snd s) ++ [""%string].

Definition default_lines (d : list (string * string)) : list string :=
  match d with
  | [] => []
  | _ => section_lines ("DEFAULT"%string, d)
  end.

(** the text made of the lines, each ended by a line feed *)
Definition unlines (l : list string) : string :=
  String.concat "" (map (fun x => x ++ String "010" "")%string l).

(** ** The platform suffix and the search *)

(** everything up to and including the first [c] is dropped *)
Fixpoint strip_through (c : ascii) (s : string) : string :=
  match s with
  | EmptyString => ""
  | String x r => if Ascii.eqb x c then r else strip_through c r
  end.

(** the path the native probe returns: no target, the default runtime mode *)
Definition native_probe (h : host) (st : state) : string :=
  let '(_, _, out) :=
    exec h ["clang"; "--rtlib=compiler-rt"; "--print-libgcc-file-name"] None (fs st) in
  abspath (getcwd h) (strip out).

(** the directories a walk comes across, each with the directory it is
    listed in, in the order of the walk *)
Definition walk_pairs (triples : list (string * list string * list string))
  : list (string * string) :=
  flat_map (fun t => map (fun d => (fst (fst t), d)) (snd (fst t))) triples.


Local Open Scope string_scope.

(* ===================================================================== *)
(** * A sample host *)
(* ===================================================================== *)

(** An aarch64 Enterprise Linux host before the first run, used to run the
    script inside Rocq: the system's repository definitions (one of them
    reached through a link), its main configuration, an empty home
    directory and the native runtime library. *)

Local Open Scope list_scope.

Definition nl : string := String "010" "".

Definition sample_root : node :=
  Dir [("etc",
        Dir [("yum.repos.d",
              Dir [("fedora.repo",
                    File ("[fedora]" ++ nl ++ "baseurl=http://mirror/$basearch/os"
                          ++ nl ++ "arch=$basearch" ++ nl)%string);
                   ("README", File "$basearch");
                   ("extra.repo", Link "../extra/extra.repo");
                   ("sub", Dir [("x.repo", File "$basearch$basearch")])]);
             ("extra", Dir [("extra.repo", File "metalink=http://m/$basearch")]);
             ("dnf",
              Dir [("dnf.conf",
                    File ("[main]" ++ nl ++ "gpgcheck=1" ++ nl
                          ++ "installonly_limit=3" ++ nl)%string)])]);
       ("home", Dir [("u", Dir [])]);
       ("usr",
        Dir [("lib64",
              Dir [("clang",
                    Dir [("17",
                          Dir [("lib",
                                Dir [("aarch64-redhat-linux-gnu",
                                      Dir [("libclang_rt.builtins.a",
                                            File "ELF")])])])])])])].

(** the payload of the runtime package *)
Definition sample_payload : node :=
  Dir [("usr",
        Dir [("lib64",
              Dir [("clang",
                    Dir [("17",
                          Dir [("lib",
                                Dir [("x86_64-redhat-linux-gnu",
                                      Dir [("libclang_rt.builtins.a", File "ELF86");
                                           ("libclang_rt.a",
                                            Link "libclang_rt.builtins.a")])])])])])])].

(** [clang] prints where the runtime library of the target would be; [dnf
    check-update] exits with 100; [dnf download] puts the package in the
    working directory *)
Definition sample_exec (argv : list string) (cwd : option string) (root : node)
  : node * Z * string :=
  match argv with
  | "clang" :: rest =>
      if existsb (fun a => startswith a "--target=x86_64") rest
      then (root, 0%Z,
            ("/usr/lib64/clang/17/lib/x86_64-redhat-linux-gnu/libclang_rt.builtins.a"
             ++ nl)%string)
      else (root, 0%Z,
            ("/usr/lib64/clang/17/lib/aarch64-redhat-linux-gnu/libclang_rt.builtins.a"
             ++ nl)%string)
  | ["dnf"; "-c"; _; "check-update"] => (root, 100%Z, "")
  | ["dnf"; "-c"; _; "download"; _] =>
      match cwd with
      | Some d => (put (components d ++ ["compiler-rt-17.0.6-1.el9.x86_64.rpm"])
                       (File "RPM") root, 0%Z, "")
      | None => (root, 1%Z, "")
      end
  | _ => (root, 127%Z, "")
  end.

(** [cpio] unpacks the payload in its working directory *)
Definition sample_child (p : process) (root : node) : node * Z :=
  match args p, proc_cwd p with
  | ["cpio"; "-idm"], Some d => (put (components d) sample_payload root, 0%Z)
  | _, _ => (root, 0%Z)
  end.

(** A reader for plain INI text: section headers and [key=value] lines. *)
Fixpoint ini_lines (cur : option string) (lines : list string)
                   (acc : ConfigParser.config) : res ConfigParser.config :=
  match lines with
  | [] => inr acc
  | line :: rest =>
      let line := strip line in
      if String.eqb line "" then ini_lines cur rest acc
      else if startswith line "[" && endswith line "]" then
        let name := take (String.length line - 2) (drop 1 line) in
        ini_lines (Some name) rest
          {| ConfigParser.defaults := ConfigParser.defaults acc;
             ConfigParser.sections := ConfigParser.sections acc ++ [(name, [])] |}
      else
        match cur, find "=" line with
        | Some sec, Some i =>
            let k := strip (take i line) in
            let v := strip (drop (i + 1) line) in
            match ConfigParser.assoc sec (ConfigParser.sections acc) with
            | Some kv =>
                ini_lines cur rest
                  {| ConfigParser.defaults := ConfigParser.defaults acc;
                     ConfigParser.sections :=
                       ConfigParser.assoc_set sec (kv ++ [(k, v)])
                                              (ConfigParser.sections acc) |}
            | None => inl ValueError
            end
        | _, _ => inl ValueError
        end
  end.

Definition sample_ini (text : string) : res ConfigParser.config :=
  ini_lines None (split_char "010" text) ConfigParser.empty.

Definition sample_host : host :=
  {| HOMEDIR := "/home/u"; getcwd := "/root"; exec := sample_exec;
     child := sample_child; ini_read := sample_ini |}.

Definition sample_state : state :=
  {| fs := sample_root; PLATFORM_SUFFIX := None; trace := [] |}.

(** the same host with [PLATFORM_SUFFIX] set, as [populate_platform_suffix]
    leaves it *)
Definition sample_ready : state :=
  {| fs := sample_root; PLATFORM_SUFFIX := Some "redhat-linux-gnu"; trace := [] |}.

(** a host whose [cpio] fails with exit code 2 *)
Definition failing_cpio (p : process) (root : node) : node * Z :=
  match args p with
  | "cpio" :: _ => (root, 2%Z)
  | _ => (root, 0%Z)
  end.

Definition cpio_fails_host : host :=
  {| HOMEDIR := "/home/u"; getcwd := "/root"; exec := sample_exec;
     child := failing_cpio; ini_read := sample_ini |}.


Local Open Scope string_scope.

(** ** States of the sample host along a run *)

Local Open Scope list_scope.

(** the whole run: [populate_platform_suffix], then
    [install_alt_platforms_rtlib] *)
Definition sample_main : M unit :=
  bind (populate_platform_suffix sample_host)
       (fun _ => install_alt_platforms_rtlib sample_host).

(** the sample host once provisioned *)
Definition provisioned_state : state := snd (sample_main sample_state).

(** the two children of the extraction *)
Definition rpm2cpio_proc (rpm : string) : process :=
  {| args := ["rpm2cpio"; rpm]; proc_cwd := None; proc_stdin := None |}.

Definition cpio_proc (rpm extractdir : string) : process :=
  {| args := ["cpio"; "-idm"]; proc_cwd := Some extractdir;
     proc_stdin := Some ["rpm2cpio"; rpm] |}.

(** after lines 118-130 *)
Definition sample_scratch : state :=
  snd (make_scratch sample_host "x86_64" (yumdir sample_host "x86_64")
         (yumcfgfile sample_host "x86_64") (yumrepodir sample_host "x86_64")
         (yumrpmdir sample_host "x86_64") sample_ready).

(** after lines 132-137 *)
Definition sample_configured : state :=
  snd (edit_config sample_host (yumcfgfile sample_host "x86_64")
         (yumrepodir sample_host "x86_64") sample_scratch).

(** the builder run once, then a file placed by hand in the scratch
    directory *)
Definition sample_built : state :=
  snd (build_repo sample_host "x86_64" (yumdir sample_host "x86_64")
         (yumcfgfile sample_host "x86_64") (yumrepodir sample_host "x86_64")
         (yumrpmdir sample_host "x86_64") sample_ready).

Definition sample_stale : state :=
  with_fs sample_built
    (put (scratch_loc sample_host "x86_64" ++ ["stale"]) (File "placed by hand")
         (fs sample_built)).

(** after the download *)
Definition sample_fetched : state :=
  snd (bind (build_repo sample_host "x86_64" (yumdir sample_host "x86_64")
               (yumcfgfile sample_host "x86_64") (yumrepodir sample_host "x86_64")
               (yumrpmdir sample_host "x86_64"))
            (fun _ => fetch sample_host "x86_64" (yumcfgfile sample_host "x86_64")
                            (yumrpmdir sample_host "x86_64")) sample_ready).

(** the package the sample [dnf] downloads *)
Definition sample_rpm : string :=
  "/home/u/yum-x86_64/RPMs/compiler-rt-17.0.6-1.el9.x86_64.rpm".

(** after the extraction *)
Definition sample_extracted : state :=
  snd (extract sample_host (Some sample_rpm) (extractdir sample_host "x86_64")
               sample_fetched).

(** the state in which a package without payload leaves the run *)
Definition sample_nothing_extracted : state :=
  snd (update (fun root => makedirs root (getcwd sample_host)
                                    (extractdir sample_host "x86_64")) sample_fetched).

(** the directory the walk finds *)
Definition sample_located : string :=
  "/home/u/yum-x86_64/RPMs/extract/usr/lib64/clang/17/lib/x86_64-redhat-linux-gnu".

(** ** Repository definitions that are not plain text *)

Definition cr : string := String "013" "".

(** a definition with the line ends of Windows, and one in Latin-1, whose
    byte E9 is no UTF-8 *)
Definition crlf_repo : string :=
  ("[a]" ++ cr ++ nl ++ "baseurl=http://m/$basearch/os" ++ cr ++ nl)%string.

Definition latin1_repo : string :=
  ("name=caf" ++ String "233" "" ++ " $basearch")%string.

(** a repository directory with the definition [d] and another after it *)
Definition text_state (d : string) : state :=
  {| fs := Dir [("repos", Dir [("a.repo", File d); ("b.repo", File "$basearch")])];
     PLATFORM_SUFFIX := Some "redhat-linux-gnu"; trace := [] |}.

Local Open Scope string_scope.

(* ===================================================================== *)
(** * The checks of the host and the native tools *)
(* ===================================================================== *)

(** The functions [main] calls before the provisioning loop:
    [detect_machine_type], [detect_rpm_distro], [detect_dnf_plugins],
    [install_native_dev_tools], [set_lld] and [remove_libgcc_s].  As for
    the rest of the script, a command that is run is taken to be there to
    start; the file system has no permissions. *)

Local Open Scope list_scope.

(** ** [os.rename], [shutil.move] and what they call *)

Module Shutil.
Import Py PosixPath FS.

(** [a] is [b] or above it *)
Fixpoint prefixb (a b : loc) : bool :=
  match a, b with
  | [], _ => true
  | x :: a', y :: b' => String.eqb x y && prefixb a' b'
  | _ :: _, [] => false
  end.

(** [os.rename(src, dst)], after rename(2): a link in last position is
    taken itself; the directory of [dst] must be there; a directory
    replaces only an empty directory, anything else replaces anything but a
    directory; a directory does not go below itself. *)
Definition rename (root : node) (cwd src dst : string) : res node :=
  match locate root cwd false src with
  | inl e => inl e
  | inr cs =>
      match get root cs with
      | None => inl FileNotFoundError
      | Some x =>
          match locate root cwd false dst with
          | inl e => inl e
          | inr cd =>
              match get root (removelast cd) with
              | Some (Dir _) =>
                  if list_eq_dec string_dec cs cd then inr root
                  else if prefixb cs cd then inl OSError
                  else
                    match get root cd, x with
                    | Some (Dir []), Dir _ => inr (put cd x (del cs root))
                    | Some (Dir _), Dir _ => inl OSError
                    | Some (Dir _), _ => inl IsADirectoryError
                    | Some _, Dir _ => inl NotADirectoryError
                    | _, _ => inr (put cd x (del cs root))
                    end
              | _ => inl FileNotFoundError
              end
          end
      end
  end.

(** [os.unlink(p)] *)
Definition unlink (root : node) (cwd p : string) : res node :=
  match locate root cwd false p with
  | inl e => inl e
  | inr c => match get root c with
             | None => inl FileNotFoundError
             | Some (Dir _) => inl IsADirectoryError
             | Some _ => inr (del c root)
             end
  end.

(** [os.symlink(target, p)] *)
Definition symlink (root : node) (cwd target p : string) : res node :=
  match locate root cwd false p with
  | inl e => inl e
  | inr c => match get root c with
             | Some _ => inl FileExistsError
             | None => match get root (removelast c) with
                       | Some (Dir _) => inr (put c (Link target) root)
                       | _ => inl FileNotFoundError
                       end
             end
  end.

(** [os.readlink(p)] *)
Definition readlink (root : node) (cwd p : string) : res string :=
  match locate root cwd false p with
  | inl e => inl e
  | inr c => match get root c with
             | Some (Link t) => inr t
             | Some _ => inl OSError
             | None => inl FileNotFoundError
             end
  end.

(** [shutil._samefile(a, b)]: false when one of them cannot be reached *)
Definition samefile (root : node) (cwd a b : string) : bool :=
  match locate root cwd true a, locate root cwd true b with
  | inr ca, inr cb =>
      match get root ca, get root cb with
      | Some _, Some _ => if list_eq_dec string_dec ca cb then true else false
      | _, _ => false
      end
  | _, _ => false
  end.

(** [shutil._basename(path)]: the trailing separators do not count *)
Definition _basename (path : string) : string :=
  basename (rstrip_by is_slash path).

(** [shutil._destinsrc(src, dst)] *)
Definition _destinsrc (cwd src dst : string) : bool :=
  let src := abspath cwd src in
  let dst := abspath cwd dst in
  let src := if endswith src "/" then src else (src ++ "/")%string in
  let dst := if endswith dst "/" then dst else (dst ++ "/")%string in
  startswith dst src.

(** [shutil.copy2(src, dst)], the contents only *)
Definition copy2 (root : node) (cwd src dst : string) : res node :=
  copyfile root cwd src (if isdir root cwd dst then join dst (basename src) else dst).

(** [shutil.move(src, dst)]: into [dst] when it is a directory, with a
    rename; when the rename fails, a link is made again and a file or a
    tree copied, and the source is removed.  The result is the file system
    as the call leaves it, also when it raises. *)
Definition move (root : node) (cwd src dst : string) : node * res unit :=
  let to (real_dst : string) : node * res unit :=
    match rename root cwd src real_dst with
    | inr root' => (root', inr tt)
    | inl _ =>
        if islink root cwd src then
          match readlink root cwd src with
          | inl e => (root, inl e)
          | inr linkto =>
              match symlink root cwd linkto real_dst with
              | inl e => (root, inl e)
              | inr root1 => match unlink root1 cwd src with
                             | inr root2 => (root2, inr tt)
                             | inl e => (root1, inl e)
                             end
              end
          end
        else if isdir root cwd src then
          if _destinsrc cwd src dst then (root, inl ShutilError)
          else match copytree root cwd src real_dst true with
               | (root1, inr _) => match rmtree root1 cwd src with
                                   | inr root2 => (root2, inr tt)
                                   | inl e => (root1, inl e)
                                   end
               | (root1, inl e) => (root1, inl e)
               end
        else match copy2 root cwd src real_dst with
             | inl e => (root, inl e)
             | inr root1 => match unlink root1 cwd src with
                            | inr root2 => (root2, inr tt)
                            | inl e => (root1, inl e)
                            end
             end
    end in
  if isdir root cwd dst then
    if samefile root cwd src dst && negb (islink root cwd src) then
      match rename root cwd src dst with
      | inr root' => (root', inr tt)
      | inl e => (root, inl e)
      end
    else
      let real_dst := join dst (_basename src) in
      if path_exists root cwd real_dst then (root, inl ShutilError)
      else to real_dst
  else to dst.

End Shutil.

(** ** The machine, and the ways a run ends *)

(** What [platform.system()], [platform.machine()] and [shutil.which] tell. *)
Record machine_info : Type := {
  system : string;
  machine : string;
  which : string -> FS.node -> option string
}.

(** A run of [main] stops on [sys.exit(code)] or on an exception that
    nothing catches. *)
Inductive stop : Type :=
| SystemExit (code : Z)
| Raised (e : exn).

Definition P (A : Type) : Type := state -> (stop + A) * state.

Definition pret {A : Type} (a : A) : P A := fun st => (inr a, st).

Definition sys_exit {A : Type} (code : Z) : P A := fun st => (inl (SystemExit code), st).

Definition pbind {A B : Type} (m : P A) (k : A -> P B) : P B :=
  fun st => match m st with
            | (inr a, st') => k a st'
            | (inl s, st') => (inl s, st')
            end.

(** a step that does not exit *)
Definition lift {A : Type} (m : M A) : P A :=
  fun st => match m st with
            | (inr a, st') => (inr a, st')
            | (inl e, st') => (inl (Raised e), st')
            end.

(** [try: m except E: handler], for the exceptions [E] that [handles] takes *)
Definition try_except {A : Type} (m : M A) (handles : exn -> bool) (handler : M A)
  : M A :=
  fun st => match m st with
            | (inl e, st') => if handles e then handler st' else (inl e, st')
            | (inr a, st') => (inr a, st')
            end.

Definition is_CalledProcessError (e : exn) : bool :=
  match e with CalledProcessError _ _ => true | _ => false end.

Definition is_FileNotFoundError (e : exn) : bool :=
  match e with FileNotFoundError => true | _ => false end.

(** the status the interpreter exits with: that of [sys.exit], 0 when
    [main] returns ([sys.exit(None)]), 1 after a traceback *)
Definition exit_status (r : stop + unit) : Z :=
  match r with
  | inr _ => 0%Z
  | inl (SystemExit code) => code
  | inl (Raised _) => 1%Z
  end.

(** ** The functions *)

Section Checks.
Import Py PosixPath.
Local Open Scope monad_scope.

Variable mi : machine_info.
Variable h : host.

(** [detect_machine_type] *)
Definition detect_machine_type : P unit :=
  if String.eqb (system mi) "Linux" && String.eqb (machine mi) "aarch64"
  then pret tt
  else pbind (lift (printr "Only Linux on aarch64 is supported."))
             (fun _ => sys_exit 1).

(** [all(shutil.which(exe) for exe in exes)] *)
Definition all_which (exes : list string) : M bool :=
  ask (fun root => forallb (fun exe => match truthy (which mi exe root) with
                                       | Some _ => true
                                       | None => false
                                       end) exes).

Definition pkg_mgr_exes : list string := ["rpm"; "dnf"; "yum"].

(** [detect_rpm_distro] *)
Definition detect_rpm_distro : P unit :=
  pbind (lift (all_which pkg_mgr_exes)) (fun found =>
  if found then pret tt
  else pbind (lift (printr ("These programs needs to be present in the system: "
                            ++ str_join ", " pkg_mgr_exes)))
             (fun _ => sys_exit 1)).

(** [detect_dnf_plugins], with its inner function *)
Definition dnf_plugins_installed : M bool :=
  try_except (subprocess_run h ["dnf"; "download"; "--help"] None true ;;; ret true)
             is_CalledProcessError
             (ret false).

Definition detect_dnf_plugins : M unit :=
  installed <- dnf_plugins_installed ;;
  if negb installed then
    printr "Installing DNF core plugins ..." ;;;
    subprocess_run h ["dnf"; "-y"; "install"; "dnf-plugins-core"] None true ;;;
    ret tt
  else ret tt.

(** [install_native_dev_tools], with its inner function *)
Definition check_and_install (exes : list string) (title : string)
                             (dnf_cmd_arg : list string) : M unit :=
  tools_exists <- all_which exes ;;
  if tools_exists then printr (title ++ " already installed.")
  else
    printr ("Installing " ++ title ++ " ...") ;;;
    subprocess_run h (["dnf"; "-y"] ++ dnf_cmd_arg) None false ;;;
    ret tt.

Definition install_native_dev_tools : M unit :=
  check_and_install ["gcc"; "make"] "Native Default Development Tools"
                    ["groupinstall"; "Development Tools"] ;;;
  check_and_install ["clang"; "lld"] "Native LLVM Development Tools"
                    ["install"; "clang"; "lld"; "compiler-rt"] ;;;
  check_and_install ["unzip"; "cpio"] "archiving tools"
                    ["install"; "unzip"; "cpio"].

(** [set_lld], with its inner function *)
Definition is_ld_lld : M bool :=
  ld_str <- subprocess_run h ["ld"; "-version"] None true ;;
  ret (startswith ld_str "LLD" && contains "compatible with GNU linkers" ld_str).

Definition set_lld : M unit :=
  lld <- is_ld_lld ;;
  if negb lld then
    printr "Setting up lld as default ld ..." ;;;
    subprocess_run h ["update-alternatives"; "--set"; "ld"; "/usr/bin/ld.lld"]
                   None true ;;;
    ret tt
  else printr "System ld is already lld.".

(** the four bytes an ELF file starts with *)
Definition ELF_MAGIC : string := String "127" "ELF".

(** [remove_libgcc_s]: [f.read1(4)] gives the first four bytes of the file,
    or all of a shorter one; [None] stands for the [return] of the handler *)
Definition remove_libgcc_s : M unit :=
  libgcc_path <- get_libgcc_path h None None ;;
  let libgcc_base_dir := fst (split libgcc_path) in
  let libgcc_s_file := join libgcc_base_dir "libgcc_s.so" in
  checked <- try_except
               (data <- try_ask (fun root => FS.read_file root (getcwd h) libgcc_s_file) ;;
                ret (Some (negb (String.eqb (take 4 data) ELF_MAGIC))))
               is_FileNotFoundError
               (printr "libgcc_s.so is no more." ;;; ret None) ;;
  match checked with
  | None => ret tt
  | Some libgcc_s_is_not_elf =>
      if negb libgcc_s_is_not_elf then printr "libgcc_s is ELF: ignoring."
      else
        printr "libgcc_s is not an ELF (likely LD instruction): moving ..." ;;;
        (fun st =>
           let '(root, r) := Shutil.move (fs st) (getcwd h) libgcc_s_file
                                         (libgcc_s_file ++ ".bak") in
           (r, with_fs st root))
  end.

(** [main] *)
Definition main : P unit :=
  pbind detect_machine_type (fun _ =>
  pbind detect_rpm_distro (fun _ =>
  pbind (lift detect_dnf_plugins) (fun _ =>
  pbind (lift install_native_dev_tools) (fun _ =>
  pbind (lift set_lld) (fun _ =>
  pbind (lift remove_libgcc_s) (fun _ =>
  pbind (lift (populate_platform_suffix h)) (fun _ =>
  lift (install_alt_platforms_rtlib h)))))))).

(** [sys.exit(main())] *)
Definition script (st : state) : Z * state :=
  let '(r, st') := main st in (exit_status r, st').

End Checks.

(** ** What the properties are stated with *)

(** a message, or a run of [dnf -y ...] in the working directory of the
    script *)
Definition print_or_dnf_y (e : event) : Prop :=
  match e with
  | EvPrint _ => True
  | EvRun ("dnf" :: "-y" :: _) None _ => True
  | _ => False
  end.

(** the commands of [detect_dnf_plugins] and [set_lld] *)
Definition dnf_help_cmd : list string := ["dnf"; "download"; "--help"].
Definition dnf_plugins_cmd : list string := ["dnf"; "-y"; "install"; "dnf-plugins-core"].
Definition ld_version_cmd : list string := ["ld"; "-version"].
Definition set_ld_cmd : list string :=
  ["update-alternatives"; "--set"; "ld"; "/usr/bin/ld.lld"].

(** what [is_ld_lld] looks for in the output of [ld -version] *)
Definition says_lld (out : string) : bool :=
  Py.startswith out "LLD" && Py.contains "compatible with GNU linkers" out.

(** the probe of [remove_libgcc_s], and the directory of the path it
    prints: where [libgcc_s.so] is looked for *)
Definition gcc_probe_cmd : list string := ["clang"; "--print-libgcc-file-name"].

Definition libgcc_s_dir (h : host) (out : string) : FS.loc :=
  PosixPath.components
    (fst (PosixPath.split (PosixPath.abspath (getcwd h) (Py.strip out)))).

(** a step that leaves [PLATFORM_SUFFIX] as it is, however it ends *)
Definition keeps_suffix {A : Type} (m : M A) : Prop :=
  forall st, PLATFORM_SUFFIX (snd (m st)) = PLATFORM_SUFFIX st.

(** the probes of the runtime library: the native one, and the one for a
    target *)
Definition rt_probe_cmd : list string :=
  ["clang"; "--rtlib=compiler-rt"; "--print-libgcc-file-name"].

Definition target_probe_cmd (platform suffix : string) : list string :=
  ["clang"; "--rtlib=compiler-rt"; ("--target=" ++ platform ++ "-" ++ suffix)%string;
   "--print-libgcc-file-name"].

(** what a run prints and runs on a host where nothing is left to do *)
Definition idle_trace (suffix : string) : list event :=
  [EvRun dnf_help_cmd None 0;
   EvPrint "Native Default Development Tools already installed.";
   EvPrint "Native LLVM Development Tools already installed.";
   EvPrint "archiving tools already installed.";
   EvRun ld_version_cmd None 0;
   EvPrint "System ld is already lld.";
   EvRun gcc_probe_cmd None 0;
   EvPrint "libgcc_s.so is no more.";
   EvRun rt_probe_cmd None 0;
   EvPrint ("Detected platform suffix: '" ++ suffix ++ "'");
   EvRun (target_probe_cmd "x86_64" suffix) None 0;
   EvPrint "compiler-rt for x86_64 already installed."].

(** ** A prepared host, for the examples *)

(** the native compiler's own runtime directory, with the linker script
    that [remove_libgcc_s] moves away *)
Definition gcc_dir : node :=
  Dir [("libgcc.a", File "!<arch>");
       ("libgcc_s.so", File "/* GNU ld script */ GROUP ( /lib64/libgcc_s.so.1 )")].

Definition native_root : node :=
  put ["usr"; "lib"] (Dir [("gcc", Dir [("aarch64-redhat-linux", Dir [("11", gcc_dir)])])])
      sample_root.

Definition native_exec (argv : list string) (cwd : option string) (root : node)
  : node * Z * string :=
  match argv with
  | ["clang"; "--print-libgcc-file-name"] =>
      (root, 0%Z, ("/usr/lib/gcc/aarch64-redhat-linux/11/libgcc.a" ++ nl)%string)
  | ["ld"; "-version"] =>
      (root, 0%Z, ("LLD 17.0.6 (compatible with GNU linkers)" ++ nl)%string)
  | ["dnf"; "download"; "--help"] => (root, 0%Z, "usage")
  | _ => sample_exec argv cwd root
  end.

Definition native_host : host :=
  {| HOMEDIR := "/home/u"; getcwd := "/root"; exec := native_exec;
     child := sample_child; ini_read := sample_ini |}.

(** every tool is found *)
Definition native_machine : machine_info :=
  {| system := "Linux"; machine := "aarch64";
     which := fun exe _ => Some ("/usr/bin/" ++ exe)%string |}.

Definition native_state : state :=
  {| fs := native_root; PLATFORM_SUFFIX := None; trace := [] |}.

(** what the probes of the prepared host print *)
Definition gcc_out : string := ("/usr/lib/gcc/aarch64-redhat-linux/11/libgcc.a" ++ nl)%string.
Definition lld_out : string := ("LLD 17.0.6 (compatible with GNU linkers)" ++ nl)%string.
Definition rt_out : string :=
  ("/usr/lib64/clang/17/lib/aarch64-redhat-linux-gnu/libclang_rt.builtins.a" ++ nl)%string.
Definition rt_x86_out : string :=
  ("/usr/lib64/clang/17/lib/x86_64-redhat-linux-gnu/libclang_rt.builtins.a" ++ nl)%string.

(** the directory of [libgcc.a] on the prepared host *)
Definition gcc_loc : loc := ["usr"; "lib"; "gcc"; "aarch64-redhat-linux"; "11"].

(** the prepared host after [remove_libgcc_s], and after the whole script *)
Definition native_moved : state := snd (remove_libgcc_s native_host native_state).

Definition native_provisioned : state :=
  {| fs := fs (snd (script native_machine native_host native_state));
     PLATFORM_SUFFIX := None; trace := [] |}.

(** the prepared host with a shared library, and with a directory, for
    [libgcc_s.so] *)
Definition elf_state : state :=
  {| fs := put (gcc_loc ++ ["libgcc_s.so"]) (File (ELF_MAGIC ++ "...")%string) native_root;
     PLATFORM_SUFFIX := None; trace := [] |}.

Definition dir_state : state :=
  {| fs := put (gcc_loc ++ ["libgcc_s.so"]) (Dir []) native_root;
     PLATFORM_SUFFIX := None; trace := [] |}.

(** machines the script refuses: another system, no [yum] *)
Definition mac_machine : machine_info :=
  {| system := "Darwin"; machine := "arm64"; which := fun _ _ => None |}.

Definition no_yum_machine : machine_info :=
  {| system := "Linux"; machine := "aarch64";
     which := fun exe _ => if String.eqb exe "yum" then None
                           else Some ("/usr/bin/" ++ exe)%string |}.

(** a machine with the package managers and none of the tools *)
Definition bare_machine : machine_info :=
  {| system := "Linux"; machine := "aarch64";
     which := fun exe _ =>
                if existsb (String.eqb exe) ["rpm"; "dnf"; "yum"]%string
                then Some ("/usr/bin/" ++ exe)%string else None |}.

(** a host whose [clang] prints a path that is not normal, and one whose
    runtime libraries are in a directory named [linux] *)
Definition odd_host : host :=
  {| HOMEDIR := "/home/u"; getcwd := "/root";
     exec := fun _ _ root => (root, 0%Z, ("../usr//lib/./gcc/11/libgcc.a" ++ nl)%string);
     child := sample_child; ini_read := sample_ini |}.

Definition flat_host : host :=
  {| HOMEDIR := "/home/u"; getcwd := "/root";
     exec := fun _ _ root =>
               (root, 0%Z,
                ("/usr/lib/clang/17/lib/linux/libclang_rt.builtins-aarch64.a" ++ nl)%string);
     child := sample_child; ini_read := sample_ini |}.

(** a regular file where the scratch directory goes *)
Definition blocked_state : state :=
  {| fs := put ["home"; "u"; "yum-x86_64"] (File "") sample_root;
     PLATFORM_SUFFIX := Some "redhat-linux-gnu"; trace := [] |}.

Local Open Scope string_scope.

(* ===================================================================== *)
(** * Facts about the model *)
(* ===================================================================== *)

Module PyTests.
Import Py PosixPath.

Example split_tail :
  split "/usr/lib64/clang/17/lib/aarch64-redhat-linux-gnu/libclang_rt.builtins.a"
  = ("/usr/lib64/clang/17/lib/aarch64-redhat-linux-gnu", "libclang_rt.builtins.a").
Proof. reflexivity. Qed.

Example split_root : split "/usr" = ("/", "usr") /\ split "//" = ("//", "")
  /\ split "a" = ("", "a") /\ split "a//b" = ("a", "b") /\ split "a/" = ("a", "").
Proof. repeat split; reflexivity. Qed.

Example join_cases :
  join "/home/u" "yum-x86_64" = "/home/u/yum-x86_64"
  /\ join "/home/u/" "x" = "/home/u/x" /\ join "/home/u" "/abs" = "/abs"
  /\ join "" "x" = "x" /\ join "/" "usr/lib" = "/usr/lib".
Proof. repeat split; reflexivity. Qed.

Example normpath_cases :
  normpath "/usr//lib/../lib64/./x" = "/usr/lib64/x"
  /\ normpath "a/../.." = ".." /\ normpath "//a" = "//a" /\ normpath "///a" = "/a"
  /\ normpath "/.." = "/" /\ normpath "" = ".".
Proof. repeat split; reflexivity. Qed.

Example split_dash :
  split_maxsplit1 "-" "aarch64-redhat-linux-gnu" = ["aarch64"; "redhat-linux-gnu"]
  /\ split_maxsplit1 "-" "lib" = ["lib"].
Proof. split; reflexivity. Qed.

Example replace_cases :
  replace "$basearch" "x86_64" "a/$basearch/b/$basearch" = "a/x86_64/b/x86_64"
  /\ replace "aa" "b" "aaa" = "ba" /\ replace "" "-" "ab" = "-a-b-".
Proof. repeat split; reflexivity. Qed.

Example strip_cases : strip "  /usr/lib/x.a
" = "/usr/lib/x.a".
Proof. reflexivity. Qed.

Example endswith_cases :
  endswith "fedora.repo" ".repo" = true /\ endswith "repo" ".repo" = false
  /\ contains "compiler-rt" "compiler-rt-17.0.6-1.el9.x86_64.rpm" = true.
Proof. repeat split; reflexivity. Qed.

(** what [bytes.decode('utf-8')] accepts: the shortest form of a code point
    that is no surrogate and not above U+10FFFF *)
Example utf8_accepted :
  utf8_valid "$basearch" = true
  /\ utf8_valid (String "195" (String "169" "")) = true             (* U+00E9 *)
  /\ utf8_valid (String "226" (String "130" (String "172" ""))) = true  (* U+20AC *)
  /\ utf8_valid (String "237" (String "159" (String "191" ""))) = true  (* U+D7FF *)
  /\ utf8_valid (String "239" (String "187" (String "191" "x"))) = true (* U+FEFF, x *)
  /\ utf8_valid (String "240" (String "159" (String "152" (String "128" "")))) = true
  /\ utf8_valid (String "244" (String "143" (String "191" (String "191" "")))) = true.
Proof. repeat split; reflexivity. Qed.

Example utf8_refused :
  utf8_valid (String "233" "") = false                               (* Latin-1 *)
  /\ utf8_valid (String "195" "") = false                            (* cut short *)
  /\ utf8_valid (String "128" "") = false
  /\ utf8_valid (String "192" (String "128" "")) = false             (* over-long *)
  /\ utf8_valid (String "224" (String "159" (String "191" ""))) = false
  /\ utf8_valid (String "237" (String "160" (String "128" ""))) = false  (* U+D800 *)
  /\ utf8_valid (String "240" (String "143" (String "191" (String "191" "")))) = false
  /\ utf8_valid (String "244" (String "144" (String "128" (String "128" "")))) = false
  /\ utf8_valid (String "245" (String "128" (String "128" (String "128" "")))) = false.
Proof. repeat split; reflexivity. Qed.

Example universal_newlines_cases :
  universal_newlines (String "013" (String "010" "")) = String "010" ""
  /\ universal_newlines (String "013" "") = String "010" ""
  /\ universal_newlines (String "013" (String "013" (String "010" "")))
     = String "010" (String "010" "")
  /\ universal_newlines (String "010" (String "013" "")) = String "010" (String "010" "")
  /\ universal_newlines ("a" ++ String "013" "b")%string
     = ("a" ++ String "010" "b")%string.
Proof. repeat split; reflexivity. Qed.

(** the strings [ConfigParser.write] hands to the file, one [write] each *)
Example write_chunks_cases :
  ConfigParser.write_chunks
    {| ConfigParser.defaults := [("a", "1")]%list;
       ConfigParser.sections :=
         [("main", [("k", ("v" ++ String "010" "w")%string); ("e", "")]);
          ("other", [])]%list |}
  = [("[DEFAULT]" ++ String "010" "")%string; ("a = 1" ++ String "010" "")%string;
     String "010" "";
     ("[main]" ++ String "010" "")%string;
     ("k = v" ++ String "010" (String "009" "w") ++ String "010" "")%string;
     ("e = " ++ String "010" "")%string; String "010" "";
     ("[other]" ++ String "010" "")%string; String "010" ""]%list
  /\ ConfigParser.write_chunks ConfigParser.empty = []%list.
Proof. split; reflexivity. Qed.

End PyTests.

Module PathFacts.
Import Py PosixPath.


Lemma append_nil_r (s : string) : s ++ "" = s.
Proof. induction s; simpl; congruence. Qed.

Lemma append_assoc (a b c : string) : (a ++ b) ++ c = a ++ (b ++ c).
Proof. induction a; simpl; congruence. Qed.

Lemma split_char_nonempty c s : split_char c s <> [].
Proof.
  destruct s as [|x r]; simpl; [discriminate|].
  destruct (Ascii.eqb x c); [discriminate|].
  destruct (split_char c r); discriminate.
Qed.

Lemma split_char_app c a b :
  split_char c (a ++ String c b) = (split_char c a ++ split_char c b)%list.
Proof.
  induction a as [|x a IH]; simpl.
  - rewrite Ascii.eqb_refl. reflexivity.
  - destruct (Ascii.eqb x c); [now rewrite IH|].
    rewrite IH. destruct (split_char c a) eqn:E.
    + now apply split_char_nonempty in E.
    + reflexivity.
Qed.

Lemma split_char_no_slash s : no_slash s = true -> split_char "/" s = [s].
Proof.
  induction s as [|x s IH]; simpl; [reflexivity|].
  unfold is_slash. intros H. apply andb_prop in H as [H1 H2].
  apply negb_true_iff in H1. rewrite H1, (IH H2). reflexivity.
Qed.

Lemma components_app_slash a b :
  components (a ++ String "/" b) = (components a ++ components b)%list.
Proof. unfold components. now rewrite split_char_app, filter_app. Qed.

Lemma components_empty : components "" = [].
Proof. reflexivity. Qed.

Lemma components_name n :
  no_slash n = true -> n <> "" -> components n = [n].
Proof.
  intros H Hn. unfold components. rewrite (split_char_no_slash _ H). simpl.
  destruct (String.eqb_spec n ""); [contradiction|reflexivity].
Qed.

Lemma take_drop n s : take n s ++ drop n s = s.
Proof.
  revert s; induction n; intros [|c s]; simpl; try reflexivity.
  now rewrite IHn.
Qed.

Lemma length_drop n s : String.length (drop n s) = String.length s - n.
Proof. revert s; induction n; intros [|c s]; simpl; auto. Qed.

Lemma endswith_inv s suf : endswith s suf = true -> exists a, s = a ++ suf.
Proof.
  unfold endswith. intros H. apply andb_prop in H as [_ H].
  apply String.eqb_eq in H.
  remember (String.length s - String.length suf) as n eqn:Hn. clear Hn.
  exists (take n s). rewrite <- H. symmetry. apply take_drop.
Qed.

Lemma startswith_slash_app a b :
  startswith a "/" = true -> startswith (a ++ b) "/" = true.
Proof.
  destruct a as [|c a]; simpl; [intros; discriminate|].
  now destruct (Ascii.eqb "/" c).
Qed.

Lemma isabs_join a b : isabs a = true -> isabs (join a b) = true.
Proof.
  unfold isabs, join. intros Ha.
  destruct (startswith b "/") eqn:Hb; [exact Hb|].
  destruct (_ || _); now apply startswith_slash_app.
Qed.

Lemma join_abs a b : isabs b = true -> join a b = b.
Proof. unfold isabs, join. now intros ->. Qed.

Lemma components_join a b :
  isabs b = false -> components (join a b) = (components a ++ components b)%list.
Proof.
  unfold isabs, join. intros ->.
  destruct (String.eqb_spec a "") as [->|Ha]; simpl; [reflexivity|].
  destruct (endswith a "/") eqn:He.
  - apply endswith_inv in He as [a' ->].
    rewrite append_assoc. simpl.
    rewrite !components_app_slash. simpl. now rewrite app_nil_r.
  - apply components_app_slash.
Qed.


Lemma cut_last_no_slash n : no_slash n = true -> cut_last n = ("", n).
Proof.
  induction n as [|c n IH]; simpl; [reflexivity|].
  intros H. apply andb_prop in H as [H1 H2]. rewrite (IH H2).
  apply negb_true_iff in H1. now rewrite H1.
Qed.

Lemma cut_last_app a n :
  no_slash n = true -> cut_last (a ++ String "/" n) = (a ++ "/", n).
Proof.
  intros Hn. induction a as [|c a IH]; simpl.
  - now rewrite (cut_last_no_slash n Hn).
  - rewrite IH. destruct (a ++ "/") eqn:E; [|reflexivity].
    destruct a; discriminate.
Qed.

Lemma all_slashes_components s : all_slashes s = true -> components s = [].
Proof.
  induction s as [|c s IH]; simpl; [reflexivity|].
  intros H. apply andb_prop in H as [H1 H2].
  unfold components. simpl. unfold is_slash in H1. rewrite H1. simpl.
  apply (IH H2).
Qed.

Lemma rstrip_decomp s :
  exists t, s = rstrip_by is_slash s ++ t /\ all_slashes t = true.
Proof.
  induction s as [|c s [t [E Ht]]]; simpl.
  - now exists "".
  - destruct (rstrip_by is_slash s) eqn:R.
    + simpl in E. subst t. destruct (is_slash c) eqn:C.
      * exists (String c s). simpl. now rewrite C, Ht.
      * exists s. now simpl.
    + exists t. simpl. split; [|exact Ht]. f_equal. exact E.
Qed.

Lemma components_app_slashes a t :
  all_slashes t = true -> components (a ++ t) = components a.
Proof.
  revert a. induction t as [|c t IH]; intros a H; simpl.
  - now rewrite append_nil_r.
  - simpl in H. apply andb_prop in H as [H1 H2].
    unfold is_slash in H1. apply Ascii.eqb_eq in H1. subst c.
    rewrite components_app_slash, (all_slashes_components _ H2).
    apply app_nil_r.
Qed.

Lemma components_rstrip s : components (rstrip_by is_slash s) = components s.
Proof.
  destruct (rstrip_decomp s) as [t [E Ht]].
  rewrite E at 2. now rewrite components_app_slashes.
Qed.

Lemma rstrip_isabs s :
  all_slashes s = false -> isabs s = true -> isabs (rstrip_by is_slash s) = true.
Proof.
  destruct s as [|c s]; simpl; [discriminate|].
  unfold isabs. simpl. intros Hall Habs.
  destruct (rstrip_by is_slash s) eqn:R.
  - destruct (is_slash c) eqn:C; simpl.
    + exfalso. destruct (rstrip_decomp s) as [t [E Ht]].
      rewrite R in E. simpl in E. subst t. simpl in Hall. now rewrite Ht in Hall.
    + exact Habs.
  - exact Habs.
Qed.

Lemma rstrip_nonempty s : all_slashes s = false -> rstrip_by is_slash s <> "".
Proof.
  intros Hall E. destruct (rstrip_decomp s) as [t [E' Ht]].
  rewrite E in E'. simpl in E'. subst t. congruence.
Qed.

(** [os.path.split] of a directory joined with a name *)
Lemma split_join_name a n :
  no_slash n = true -> n <> "" -> a <> "" ->
  exists hd, split (join a n) = (hd, n) /\ components hd = components a
             /\ hd <> "" /\ (isabs a = true -> isabs hd = true).
Proof.
  intros Hn Hne Ha.
  assert (Hj : exists a', join a n = a' ++ String "/" n
                          /\ components (a' ++ "/") = components a
                          /\ (isabs a = true -> isabs (a' ++ "/") = true)).
  { unfold join. assert (startswith n "/" = false) as ->.
    { destruct n as [|c n]; [contradiction|]. cbn [no_slash] in Hn.
      apply andb_prop in Hn as [Hn _]. apply negb_true_iff in Hn.
      unfold is_slash in Hn. cbn [startswith]. rewrite Ascii.eqb_sym.
      now rewrite Hn. }
    destruct (String.eqb_spec a "") as [->|_]; [contradiction|]. simpl.
    destruct (endswith a "/") eqn:He.
    - apply endswith_inv in He as [a' ->]. exists a'.
      rewrite append_assoc. simpl. auto.
    - exists a. split; [reflexivity|]. split.
      + change (a ++ "/") with (a ++ String "/" ""). rewrite components_app_slash.
        simpl. apply app_nil_r.
      + intros H. now apply startswith_slash_app. }
  destruct Hj as [a' [-> [Hc Habs]]].
  unfold split. rewrite (cut_last_app a' n Hn).
  assert (Hnz : String.eqb (a' ++ "/") "" = false).
  { destruct a'; reflexivity. }
  rewrite Hnz. simpl. destruct (all_slashes (a' ++ "/")) eqn:Hall; simpl.
  - exists (a' ++ "/"). repeat split; auto. destruct a'; discriminate.
  - exists (rstrip_by is_slash (a' ++ "/")). repeat split.
    + now rewrite components_rstrip.
    + now apply rstrip_nonempty.
    + intros H. apply rstrip_isabs; auto.
Qed.

(** [split] gives back no more than it was given *)
Lemma cut_last_length p :
  String.length (fst (cut_last p)) + String.length (snd (cut_last p)) = String.length p.
Proof.
  induction p as [|c r IH]; [reflexivity|].
  cbn [cut_last]. destruct (cut_last r) as [h t]. cbn [fst snd] in IH.
  destruct h as [|x h].
  - cbn [String.length Nat.add] in IH. subst. destruct (is_slash c); cbn; lia.
  - cbn [fst snd String.length] in *. lia.
Qed.

Lemma rstrip_by_length f s : String.length (rstrip_by f s) <= String.length s.
Proof.
  induction s as [|c r IH]; [reflexivity|].
  cbn [rstrip_by]. destruct (rstrip_by f r).
  - destruct (f c); cbn in *; lia.
  - cbn [String.length] in *. lia.
Qed.

Lemma split_length p :
  String.length (fst (split p)) + String.length (snd (split p)) <= String.length p.
Proof.
  unfold split. pose proof (cut_last_length p) as H.
  destruct (cut_last p) as [h t]. cbn [fst snd] in H.
  destruct (negb (String.eqb h "") && negb (all_slashes h)); cbn [fst snd]; [|lia].
  pose proof (rstrip_by_length is_slash h). lia.
Qed.

End PathFacts.

Module TextFacts.
Import Py PosixPath PathFacts.
Local Open Scope string_scope.
Local Open Scope list_scope.

(** ** UTF-8 *)

Lemma between_below lo hi n : n < lo -> between lo hi n = false.
Proof.
  intros H. unfold between. destruct (Nat.leb_spec lo n); [lia|reflexivity].
Qed.

(** a byte below 128 is a character by itself *)
Lemma utf8_step_ascii s c :
  is_ascii c = true ->
  utf8_step s c = match s with U_start => Some U_start | _ => None end.
Proof.
  unfold is_ascii. intros H. apply Nat.ltb_lt in H.
  destruct s; unfold utf8_step; cbv zeta.
  - apply Nat.ltb_lt in H. now rewrite H.
  - now rewrite between_below by lia.
  - now rewrite between_below by lia.
  - now rewrite between_below by lia.
  - now rewrite between_below by lia.
  - now rewrite between_below by lia.
  - now rewrite between_below by lia.
  - now rewrite between_below by lia.
Qed.

Lemma utf8_run_app a : forall s b,
  utf8_run s (a ++ b)%string
  = match utf8_run s a with
    | Some s' => utf8_run s' b
    | None => None
    end.
Proof.
  induction a as [|c a IH]; intros s b; cbn [String.append utf8_run]; [reflexivity|].
  destruct (utf8_step s c); [apply IH|reflexivity].
Qed.

Lemma utf8_run_ascii p : all_ascii p = true -> utf8_run U_start p = Some U_start.
Proof.
  induction p as [|c p IH]; cbn [all_ascii utf8_run]; [reflexivity|].
  intros H. apply andb_prop in H as [H1 H2]. now rewrite utf8_step_ascii, IH.
Qed.

Lemma utf8_run_ascii_inside s p :
  all_ascii p = true -> p <> "" -> s <> U_start -> utf8_run s p = None.
Proof.
  destruct p as [|c p]; [contradiction|]. cbn [all_ascii utf8_run].
  intros H _ Hs. apply andb_prop in H as [H1 _]. rewrite utf8_step_ascii by exact H1.
  now destruct s.
Qed.

Lemma utf8_valid_run s : utf8_valid s = true <-> utf8_run U_start s = Some U_start.
Proof.
  unfold utf8_valid. destruct (utf8_run U_start s) as [[]|]; split; congruence.
Qed.

Lemma utf8_valid_app a b :
  utf8_valid a = true -> utf8_valid b = true -> utf8_valid (a ++ b)%string = true.
Proof.
  rewrite !utf8_valid_run. intros Ha Hb. now rewrite utf8_run_app, Ha.
Qed.

Lemma utf8_valid_ascii p : all_ascii p = true -> utf8_valid p = true.
Proof. intros H. now apply utf8_valid_run, utf8_run_ascii. Qed.

(** a text cut at an ASCII word is cut between two characters *)
Lemma utf8_valid_cut a p b :
  all_ascii p = true -> p <> "" ->
  utf8_valid (a ++ p ++ b)%string = true -> utf8_valid a = true /\ utf8_valid b = true.
Proof.
  intros Hp Hne. rewrite !utf8_valid_run, utf8_run_app.
  destruct (utf8_run U_start a) as [s|]; [|discriminate].
  rewrite utf8_run_app.
  destruct s; try (rewrite utf8_run_ascii_inside by (auto; discriminate); discriminate).
  rewrite utf8_run_ascii by exact Hp. auto.
Qed.

Lemma utf8_valid_concat sep l :
  utf8_valid sep = true -> Forall (fun x => utf8_valid x = true) l ->
  utf8_valid (String.concat sep l) = true.
Proof.
  intros Hs H. induction H as [|x l Hx Hl IH]; [reflexivity|].
  destruct l as [|y l]; [exact Hx|].
  change (String.concat sep (x :: y :: l)) with (x ++ sep ++ String.concat sep (y :: l))%string.
  apply utf8_valid_app; [exact Hx|]. apply utf8_valid_app; [exact Hs|exact IH].
Qed.

Lemma utf8_valid_pieces sep l :
  all_ascii sep = true -> sep <> "" ->
  utf8_valid (String.concat sep l) = true -> Forall (fun x => utf8_valid x = true) l.
Proof.
  intros Hs Hne. induction l as [|x l IH]; intros H; [constructor|].
  destruct l as [|y l]; [constructor; [exact H|constructor]|].
  change (String.concat sep (x :: y :: l)) with (x ++ sep ++ String.concat sep (y :: l))%string in H.
  apply utf8_valid_cut in H as [H1 H2]; auto.
Qed.

(** the translation of the line ends changes ASCII characters for ASCII
    characters *)
Lemma utf8_run_universal_newlines n : forall d s,
  String.length d <= n -> utf8_run s (universal_newlines d) = utf8_run s d.
Proof.
  induction n as [|n IH]; intros d s Hlen.
  - destruct d; [reflexivity|cbn in Hlen; lia].
  - destruct d as [|c r]; [reflexivity|]. cbn [String.length] in Hlen.
    cbn [universal_newlines].
    destruct (Ascii.eqb_spec c "013") as [->|Hc].
    + destruct r as [|c' r'].
      * cbn [utf8_run]. rewrite !utf8_step_ascii by reflexivity. reflexivity.
      * cbn [String.length] in Hlen.
        destruct (Ascii.eqb_spec c' "010") as [->|Hc'].
        -- cbn [utf8_run]. rewrite !utf8_step_ascii by reflexivity.
           destruct s; try reflexivity. rewrite utf8_step_ascii by reflexivity.
           apply IH. lia.
        -- cbn [utf8_run]. rewrite !utf8_step_ascii by reflexivity.
           destruct s; try reflexivity.
           rewrite (IH (String c' r') U_start) by (cbn [String.length]; lia).
           reflexivity.
    + cbn [utf8_run]. destruct (utf8_step s c); [|reflexivity]. apply IH. lia.
Qed.

Lemma utf8_valid_universal_newlines d :
  utf8_valid (universal_newlines d) = utf8_valid d.
Proof. unfold utf8_valid. now rewrite (utf8_run_universal_newlines (String.length d)). Qed.


(** ** [str.replace] and [str.split] *)

Lemma split_from_nonempty old s : forall k, split_from old k s <> [].
Proof.
  induction s as [|c s IH]; intros k; cbn [split_from]; [discriminate|].
  destruct k; [|apply IH].
  destruct (startswith (String c s) old); [discriminate|].
  destruct (split_from old 0 s); discriminate.
Qed.

Lemma concat_cons sep x l :
  l <> [] -> String.concat sep (x :: l) = (x ++ sep ++ String.concat sep l)%string.
Proof. destruct l; [contradiction|reflexivity]. Qed.

Lemma replace_from_split old new s : forall k,
  replace_from old new k s = String.concat new (split_from old k s).
Proof.
  induction s as [|c s IH]; intros k; cbn [replace_from split_from]; [reflexivity|].
  destruct k; [|apply IH].
  destruct (startswith (String c s) old).
  - rewrite concat_cons by apply split_from_nonempty. cbn [String.append].
    now rewrite IH.
  - rewrite IH. destruct (split_from old 0 s) as [|hd tl] eqn:E.
    + now apply split_from_nonempty in E.
    + destruct tl; reflexivity.
Qed.

Lemma startswith_decomp s p :
  startswith s p = true -> s = (p ++ drop (String.length p) s)%string.
Proof.
  revert s. induction p as [|a p IH]; intros s; cbn [startswith];
    [now destruct s|].
  destruct s as [|b s]; [discriminate|]. intros H. apply andb_prop in H as [H1 H2].
  apply Ascii.eqb_eq in H1. subst b. cbn [String.length drop String.append].
  f_equal. now apply IH.
Qed.

Lemma concat_split_from old s : old <> ""%string -> forall k,
  String.concat old (split_from old k s) = drop k s.
Proof.
  intros Hold. induction s as [|c s IH]; intros k; cbn [split_from].
  - now destruct k.
  - destruct k; [|apply IH]. cbn [drop].
    destruct (startswith (String c s) old) eqn:E.
    + rewrite concat_cons by apply split_from_nonempty. cbn [String.append].
      rewrite IH. apply startswith_decomp in E.
      etransitivity; [|symmetry; exact E].
      destruct old as [|a old]; [contradiction|].
      cbn [String.length drop String.append Nat.sub]. now rewrite Nat.sub_0_r.
    + pose proof (IH 0) as I. cbn [drop] in I.
      destruct (split_from old 0 s) as [|hd tl] eqn:F.
      * now apply split_from_nonempty in F.
      * rewrite <- I. destruct tl; reflexivity.
Qed.

Lemma startswith_app a b p :
  startswith a p = true -> startswith (a ++ b) p = true.
Proof.
  revert a. induction p as [|x p IH]; intros a; cbn [startswith]; [reflexivity|].
  destruct a as [|y a]; [discriminate|]. cbn [String.append].
  intros H. apply andb_prop in H as [H1 H2]. now rewrite H1, IH.
Qed.

(** no piece holds an occurrence of [old] *)
Lemma split_from_pieces old s : old <> ""%string -> forall k,
  Forall (fun piece => contains old piece = false) (split_from old k s).
Proof.
  intros Hold. induction s as [|c s IH]; intros k; cbn [split_from].
  - constructor; [|constructor]. cbn [contains]. destruct old; [contradiction|reflexivity].
  - destruct k; [|apply IH].
    destruct (startswith (String c s) old) eqn:E.
    + constructor; [|apply IH]. cbn [contains]. destruct old; [contradiction|reflexivity].
    + pose proof (concat_split_from old s Hold 0) as C. cbn [drop] in C.
      pose proof (IH 0) as I.
      destruct (split_from old 0 s) as [|hd tl] eqn:F.
      * now apply split_from_nonempty in F.
      * pose proof (Forall_inv I) as Hhd. pose proof (Forall_inv_tail I) as Htl.
        cbv beta in Hhd. constructor; [|exact Htl].
        cbn [contains]. rewrite Hhd, orb_false_r.
        destruct (startswith (String c hd) old) eqn:S; [|reflexivity].
        assert (X : exists rest, s = (hd ++ rest)%string).
        { destruct tl; [exists ""%string; cbn in C; now rewrite append_nil_r|].
          eexists. rewrite <- C. reflexivity. }
        destruct X as [rest ->].
        apply (startswith_app _ rest) in S. cbn [String.append] in S. congruence.
Qed.

(** ** What a text file receives *)

Lemma concat_empty_cons x l :
  String.concat "" (x :: l) = (x ++ String.concat "" l)%string.
Proof. destruct l; [symmetry; apply append_nil_r|reflexivity]. Qed.

(** when every string is written the file holds them all, one after the
    other *)
Lemma encoded_all chunks : forall data,
  FS.encoded chunks = (data, true) -> data = String.concat "" chunks.
Proof.
  induction chunks as [|c r IH]; intros data; cbn [FS.encoded].
  - now intros [= <-].
  - destruct (utf8_valid c); [|discriminate].
    destruct (FS.encoded r) as [data' ok]. intros [= <- ->].
    rewrite concat_empty_cons. f_equal. now apply IH.
Qed.

(** ** The rewritten text can be written *)

Lemma replace_valid old new s :
  all_ascii old = true -> old <> ""%string ->
  utf8_valid new = true -> utf8_valid s = true ->
  utf8_valid (replace old new s) = true.
Proof.
  intros Ha Hne Hnew Hs.
  assert (E : replace old new s = replace_from old new 0 s)
    by (destruct old; [contradiction|reflexivity]).
  rewrite E, replace_from_split. apply utf8_valid_concat; [exact Hnew|].
  apply (utf8_valid_pieces old); auto.
  now rewrite (concat_split_from old s Hne 0).
Qed.

Lemma rewrite_text_valid platform d :
  utf8_valid platform = true -> utf8_valid d = true ->
  utf8_valid (rewrite_text platform d) = true.
Proof.
  intros Hp Hd. unfold rewrite_text. apply replace_valid; auto.
  - discriminate.
  - now rewrite utf8_valid_universal_newlines.
Qed.

End TextFacts.



Module FSFacts.
Import FS PosixPath PathFacts.
Local Open Scope list_scope.


Lemma lookup_set_entry_same n x es : lookup n (set_entry n x es) = Some x.
Proof.
  induction es as [|[m y] es IH]; simpl.
  - now rewrite String.eqb_refl.
  - destruct (String.eqb m n) eqn:E; simpl; now rewrite E.
Qed.

Lemma lookup_set_entry_other n m x es :
  n <> m -> lookup m (set_entry n x es) = lookup m es.
Proof.
  intros Hnm. induction es as [|[k y] es IH]; simpl.
  - destruct (String.eqb_spec n m); [contradiction|reflexivity].
  - destruct (String.eqb_spec k n) as [->|Hk]; simpl.
    + destruct (String.eqb_spec n m); [contradiction|reflexivity].
    + now rewrite IH.
Qed.

Lemma lookup_remove_entry_other n m es :
  n <> m -> lookup m (remove_entry n es) = lookup m es.
Proof.
  intros Hnm. induction es as [|[k y] es IH]; simpl; [reflexivity|].
  destruct (String.eqb_spec k n) as [->|Hk]; simpl.
  - destruct (String.eqb_spec n m); [contradiction|reflexivity].
  - now rewrite IH.
Qed.

Lemma lookup_none_existsb n es :
  existsb (String.eqb n) (map fst es) = false -> lookup n es = None.
Proof.
  induction es as [|[k y] es IH]; simpl; [reflexivity|].
  intros H. apply orb_false_elim in H as [H1 H2].
  rewrite String.eqb_sym, H1. auto.
Qed.

Lemma lookup_remove_entry_same n es :
  nodupb (map fst es) = true -> lookup n (remove_entry n es) = None.
Proof.
  induction es as [|[k y] es IH]; simpl; [reflexivity|].
  intros H. apply andb_prop in H as [H1 H2]. apply negb_true_iff in H1.
  destruct (String.eqb_spec k n) as [->|Hk]; simpl.
  - now apply lookup_none_existsb.
  - destruct (String.eqb_spec k n); [contradiction|]. auto.
Qed.

Lemma remove_entry_absent n es : lookup n es = None -> remove_entry n es = es.
Proof.
  induction es as [|[k y] es IH]; simpl; [reflexivity|].
  destruct (String.eqb k n); [discriminate|]. intros H. now rewrite IH.
Qed.

Lemma lookup_map_entry_same n f es :
  lookup n (map_entry n f es) = option_map f (lookup n es).
Proof.
  induction es as [|[k y] es IH]; simpl; [reflexivity|].
  destruct (String.eqb k n) eqn:E; simpl; now rewrite E.
Qed.

Lemma lookup_map_entry_other n m f es :
  n <> m -> lookup m (map_entry n f es) = lookup m es.
Proof.
  intros Hnm. induction es as [|[k y] es IH]; simpl; [reflexivity|].
  destruct (String.eqb_spec k n) as [->|Hk]; simpl.
  - destruct (String.eqb_spec n m); [contradiction|reflexivity].
  - now rewrite IH.
Qed.

Lemma map_entry_absent n f es : lookup n es = None -> map_entry n f es = es.
Proof.
  induction es as [|[k y] es IH]; simpl; [reflexivity|].
  destruct (String.eqb k n); [discriminate|]. intros H. now rewrite IH.
Qed.

Lemma map_entry_set_entry n f es x :
  lookup n es = Some x -> map_entry n f es = set_entry n (f x) es.
Proof.
  induction es as [|[k y] es IH]; simpl; [discriminate|].
  destruct (String.eqb k n).
  - now intros [= ->].
  - intros H. now rewrite IH.
Qed.

Lemma map_entry_ext n f g es :
  (forall x, lookup n es = Some x -> f x = g x) -> map_entry n f es = map_entry n g es.
Proof.
  induction es as [|[k y] es IH]; simpl; [reflexivity|].
  destruct (String.eqb k n); intros H.
  - now rewrite (H y).
  - now rewrite IH.
Qed.

Lemma set_entry_twice n x y es : set_entry n x (set_entry n y es) = set_entry n x es.
Proof.
  induction es as [|[k z] es IH]; simpl.
  - now rewrite String.eqb_refl.
  - destruct (String.eqb k n) eqn:E; simpl; rewrite E; [reflexivity|now rewrite IH].
Qed.

(** ** [get] along a path *)

Lemma get_app root a b :
  get root (a ++ b) = match get root a with Some x => get x b | None => None end.
Proof.
  revert root. induction a as [|n a IH]; intros root; simpl; [reflexivity|].
  destruct root; try reflexivity.
  destruct (lookup n entries); [apply IH|reflexivity].
Qed.

Lemma get_snoc root a n :
  get root (a ++ [n]) = match get root a with
                        | Some (Dir es) => lookup n es
                        | _ => None
                        end.
Proof.
  rewrite get_app. destruct (get root a) as [[| |es]|]; simpl; try reflexivity.
  now destruct (lookup n es).
Qed.

Lemma get_some_dir root a b x :
  get root (a ++ b) = Some x -> b <> [] -> exists es, get root a = Some (Dir es).
Proof.
  rewrite get_app. destruct (get root a) as [[| |es]|]; try discriminate;
    destruct b; try contradiction; try discriminate.
  intros _ _. now exists es.
Qed.

Lemma get_none_app root a b : get root a = None -> get root (a ++ b) = None.
Proof. rewrite get_app. now intros ->. Qed.

(** ** [put] and [del] *)


Lemma put_cons_cons n m rest x es :
  put (n :: m :: rest) x (Dir es) = Dir (map_entry n (put (m :: rest) x) es).
Proof. reflexivity. Qed.

Lemma del_cons_cons n m rest es :
  del (n :: m :: rest) (Dir es) = Dir (map_entry n (del (m :: rest)) es).
Proof. reflexivity. Qed.

Lemma put_sub Y s x root t :
  get root Y = Some t -> s <> [] -> put (Y ++ s) x root = put Y (put s x t) root.
Proof.
  revert root. induction Y as [|y Y IH]; intros root Hg Hs; simpl in Hg.
  - now injection Hg as ->.
  - destruct root as [| |es]; try discriminate.
    destruct (lookup y es) as [x1|] eqn:L; [|discriminate].
    destruct Y as [|z Y].
    + simpl in Hg. injection Hg as ->. simpl ([] ++ s) in *.
      destruct s as [|s0 s]; [contradiction|]. simpl app.
      rewrite put_cons_cons.
      now rewrite (map_entry_set_entry y (put (s0 :: s) x) es t L).
    + simpl app. rewrite !put_cons_cons. f_equal. apply map_entry_ext.
      intros x2 L2. rewrite L in L2. injection L2 as <-.
      apply (IH x1 Hg Hs).
Qed.

Lemma del_sub Y s root t :
  get root Y = Some t -> s <> [] -> del (Y ++ s) root = put Y (del s t) root.
Proof.
  revert root. induction Y as [|y Y IH]; intros root Hg Hs; simpl in Hg.
  - now injection Hg as ->.
  - destruct root as [| |es]; try discriminate.
    destruct (lookup y es) as [x1|] eqn:L; [|discriminate].
    destruct Y as [|z Y].
    + simpl in Hg. injection Hg as ->. simpl ([] ++ s) in *.
      destruct s as [|s0 s]; [contradiction|]. simpl app.
      rewrite del_cons_cons.
      now rewrite (map_entry_set_entry y (del (s0 :: s)) es t L).
    + simpl app. rewrite del_cons_cons, put_cons_cons. f_equal. apply map_entry_ext.
      intros x2 L2. rewrite L in L2. injection L2 as <-.
      apply (IH x1 Hg Hs).
Qed.

Lemma get_put_same p x root :
  (p = [] \/ exists es, get root (removelast p) = Some (Dir es)) ->
  get (put p x root) p = Some x.
Proof.
  revert root. induction p as [|n p IH]; intros root H; [reflexivity|].
  destruct H as [H|[es H]]; [discriminate|].
  destruct p as [|m p].
  - simpl in H. injection H as ->. simpl. now rewrite lookup_set_entry_same.
  - change (removelast (n :: m :: p)) with (n :: removelast (m :: p)) in H.
    simpl in H. destruct root as [| |es0]; try discriminate.
    destruct (lookup n es0) as [x1|] eqn:L; [|discriminate].
    rewrite put_cons_cons. cbn [get]. rewrite lookup_map_entry_same, L. simpl.
    apply IH. right. now exists es.
Qed.

Lemma get_put_under p x root r :
  (p = [] \/ exists es, get root (removelast p) = Some (Dir es)) ->
  get (put p x root) (p ++ r) = get x r.
Proof. intros H. now rewrite get_app, get_put_same. Qed.

(** a node beside [p] is not touched *)
Lemma get_put_frame p x root q :
  ~ prefix_of p q -> ~ prefix_of q p -> get (put p x root) q = get root q.
Proof.
  revert root q. induction p as [|n p IH]; intros root q Hpq Hqp.
  - exfalso. apply Hpq. now exists q.
  - destruct q as [|m q]; [exfalso; apply Hqp; now exists (n :: p)|].
    destruct root as [| |es]; try reflexivity.
    destruct (String.eqb_spec n m) as [<-|Hnm].
    + destruct p as [|k p].
      * exfalso. apply Hpq. now exists q.
      * rewrite put_cons_cons. cbn [get]. rewrite lookup_map_entry_same.
        destruct (lookup n es) as [x1|]; [|reflexivity]. simpl.
        apply IH.
        -- intros [r Hr]. apply Hpq. exists r. simpl. now rewrite Hr.
        -- intros [r Hr]. apply Hqp. exists r. simpl. now rewrite Hr.
    + destruct p as [|k p].
      * simpl. now rewrite lookup_set_entry_other.
      * rewrite put_cons_cons. cbn [get]. now rewrite lookup_map_entry_other.
Qed.

Lemma get_del_frame p root q :
  ~ prefix_of p q -> ~ prefix_of q p -> get (del p root) q = get root q.
Proof.
  revert root q. induction p as [|n p IH]; intros root q Hpq Hqp.
  - exfalso. apply Hpq. now exists q.
  - destruct q as [|m q]; [exfalso; apply Hqp; now exists (n :: p)|].
    destruct root as [| |es]; try reflexivity.
    destruct (String.eqb_spec n m) as [<-|Hnm].
    + destruct p as [|k p].
      * exfalso. apply Hpq. now exists q.
      * rewrite del_cons_cons. cbn [get]. rewrite lookup_map_entry_same.
        destruct (lookup n es) as [x1|]; [|reflexivity]. simpl.
        apply IH.
        -- intros [r Hr]. apply Hpq. exists r. simpl. now rewrite Hr.
        -- intros [r Hr]. apply Hqp. exists r. simpl. now rewrite Hr.
    + destruct p as [|k p].
      * simpl. now rewrite lookup_remove_entry_other.
      * rewrite del_cons_cons. cbn [get]. now rewrite lookup_map_entry_other.
Qed.

(** a directory above [p] is still a directory *)
Lemma get_put_above p x root q r es :
  p = q ++ r -> r <> [] -> get root q = Some (Dir es) ->
  exists es', get (put p x root) q = Some (Dir es').
Proof.
  intros -> Hr. revert root. induction q as [|n q IH]; intros root Hg.
  - simpl in Hg. injection Hg as ->. destruct r as [|r0 r]; [contradiction|].
    simpl. destruct r; eauto.
  - simpl in Hg. destruct root as [| |es0]; try discriminate.
    destruct (lookup n es0) as [x1|] eqn:L; [|discriminate].
    assert (E : exists k l, q ++ r = k :: l).
    { destruct q; simpl; [destruct r; [contradiction|]|]; eauto. }
    destruct E as [k [l E]]. simpl app. rewrite E, put_cons_cons, <- E.
    cbn [get]. rewrite lookup_map_entry_same, L. simpl. now apply IH.
Qed.

Lemma get_del_above p root q r es :
  p = q ++ r -> r <> [] -> get root q = Some (Dir es) ->
  exists es', get (del p root) q = Some (Dir es').
Proof.
  intros -> Hr. revert root. induction q as [|n q IH]; intros root Hg.
  - simpl in Hg. injection Hg as ->. destruct r as [|r0 r]; [contradiction|].
    simpl. destruct r; eauto.
  - simpl in Hg. destruct root as [| |es0]; try discriminate.
    destruct (lookup n es0) as [x1|] eqn:L; [|discriminate].
    assert (E : exists k l, q ++ r = k :: l).
    { destruct q; simpl; [destruct r; [contradiction|]|]; eauto. }
    destruct E as [k [l E]]. simpl app. rewrite E, del_cons_cons, <- E.
    cbn [get]. rewrite lookup_map_entry_same, L. simpl. now apply IH.
Qed.

Lemma put_twice p x y root : put p x (put p y root) = put p x root.
Proof.
  revert root. induction p as [|n p IH]; intros root; [reflexivity|].
  destruct root as [| |es]; try reflexivity.
  destruct p as [|m p].
  - simpl. now rewrite set_entry_twice.
  - rewrite !put_cons_cons. f_equal.
    induction es as [|[k z] es IHes]; cbn [map_entry]; [reflexivity|].
    destruct (String.eqb k n) eqn:E; cbn [map_entry]; rewrite E.
    + now rewrite IH.
    + now rewrite IHes.
Qed.

Lemma del_absent p root : get root p = None -> del p root = root.
Proof.
  revert root. induction p as [|n p IH]; intros root H; [discriminate|].
  destruct root as [| |es]; try reflexivity.
  simpl in H. destruct p as [|m p].
  - simpl. f_equal. apply remove_entry_absent.
    now destruct (lookup n es).
  - rewrite del_cons_cons. f_equal.
    destruct (lookup n es) as [x1|] eqn:L.
    + rewrite (map_entry_set_entry _ _ _ _ L), (IH _ H).
      clear -L. induction es as [|[k z] es IHes]; simpl in *; [discriminate|].
      destruct (String.eqb_spec k n) as [->|Hk]; [now injection L as ->|].
      now rewrite IHes.
    + now apply map_entry_absent.
Qed.

(** ** Path resolution through real directories *)

Lemma resolve_from_eq links root follow cur todo :
  resolve_from links root follow cur todo =
  match todo with
  | [] => inr cur
  | c :: rest =>
      if String.eqb c "." then resolve_from links root follow cur rest
      else if String.eqb c ".." then resolve_from links root follow (removelast cur) rest
      else
        match get root (cur ++ [c]) with
        | None => match rest with
                  | [] => inr (cur ++ [c])
                  | _ => inl FileNotFoundError
                  end
        | Some (File _) => match rest with
                           | [] => inr (cur ++ [c])
                           | _ => inl NotADirectoryError
                           end
        | Some (Dir _) => resolve_from links root follow (cur ++ [c]) rest
        | Some (Link t) =>
            match rest, follow with
            | [], false => inr (cur ++ [c])
            | _, _ =>
                if String.eqb t "" then inl FileNotFoundError
                else
                  match links with
                  | O => inl OSError
                  | S l => resolve_from l root follow
                             (if isabs t then [] else cur)
                             (components t ++ rest)
                  end
            end
        end
  end.
Proof. destruct links; destruct todo; reflexivity. Qed.


Lemma resolve_real links root follow todo : forall cur,
  Forall plain todo ->
  (todo = [] \/ exists es, get root (cur ++ removelast todo) = Some (Dir es)) ->
  (follow = true -> forall t, get root (cur ++ todo) <> Some (Link t)) ->
  resolve_from links root follow cur todo = inr (cur ++ todo).
Proof.
  induction todo as [|c rest IH]; intros cur Hp Hd Hl; rewrite resolve_from_eq.
  - now rewrite app_nil_r.
  - inversion Hp as [|? ? [Hc1 Hc2] Hp']; subst.
    destruct (String.eqb_spec c "."); [contradiction|].
    destruct (String.eqb_spec c ".."); [contradiction|].
    destruct Hd as [Hd|[es Hd]]; [discriminate|].
    destruct rest as [|c' rest].
    + destruct (get root (cur ++ [c])) as [[d|t|es']|] eqn:G; try reflexivity.
      * destruct follow; [|reflexivity]. exfalso. now apply (Hl eq_refl t).
      * rewrite resolve_from_eq. reflexivity.
    + change (removelast (c :: c' :: rest)) with (c :: removelast (c' :: rest)) in Hd.
      assert (Hc : exists es', get root (cur ++ [c]) = Some (Dir es')).
      { replace (cur ++ c :: removelast (c' :: rest))
          with ((cur ++ [c]) ++ removelast (c' :: rest)) in Hd
          by (now rewrite <- app_assoc).
        destruct (removelast (c' :: rest)) eqn:R.
        - rewrite app_nil_r in Hd. eauto.
        - eapply get_some_dir; [exact Hd|discriminate]. }
      destruct Hc as [es' Hc]. rewrite Hc.
      rewrite IH; [now rewrite <- app_assoc|exact Hp'| |].
      * right. exists es. now rewrite <- app_assoc.
      * intros Hf t. rewrite <- app_assoc. now apply Hl.
Qed.

Lemma locate_real root cwd follow p l :
  isabs p = true -> components p = l -> Forall plain l ->
  (l = [] \/ exists es, get root (removelast l) = Some (Dir es)) ->
  (follow = true -> forall t, get root l <> Some (Link t)) ->
  locate root cwd follow p = inr l.
Proof.
  intros Ha Hc Hp Hd Hl. unfold locate.
  destruct (String.eqb_spec p "") as [->|_]; [discriminate|].
  rewrite Ha, Hc. now apply (resolve_real _ root follow l []).
Qed.

Lemma get_removelast_dir root l x :
  get root l = Some x -> l = [] \/ exists es, get root (removelast l) = Some (Dir es).
Proof.
  intros H. destruct l as [|a l]; [now left|right].
  rewrite (app_removelast_last "" (l := a :: l)) in H by discriminate.
  eapply get_some_dir; [exact H|discriminate].
Qed.

(** ** The operations on a path through real directories *)

Section RealPath.
Variables (root : node) (cwd p : string) (l : loc).
Hypothesis Habs : isabs p = true.
Hypothesis Hcomp : components p = l.
Hypothesis Hplain : Forall plain l.

Lemma stat_real follow x :
  get root l = Some x -> (follow = true -> forall t, x <> Link t) ->
  stat root cwd follow p = Some x.
Proof.
  intros G Hl. unfold stat. rewrite (locate_real root cwd follow p l); auto.
  - eapply get_removelast_dir; eauto.
  - intros Hf t. rewrite G. intros [= ->]. now apply (Hl Hf t).
Qed.

Lemma stat_real_none follow :
  (l = [] \/ exists es, get root (removelast l) = Some (Dir es)) ->
  get root l = None -> stat root cwd follow p = None.
Proof.
  intros Hd G. unfold stat. rewrite (locate_real root cwd follow p l); auto.
  intros _ t. now rewrite G.
Qed.

Lemma mkdir_real es :
  l <> [] -> get root (removelast l) = Some (Dir es) -> get root l = None ->
  mkdir root cwd p = inr (put l (Dir []) root).
Proof.
  intros Hne Hd G. unfold mkdir. rewrite (locate_real root cwd false p l); eauto.
  - now rewrite G, Hd.
  - discriminate.
Qed.

Lemma mkdir_real_exists x :
  get root l = Some x -> mkdir root cwd p = inl FileExistsError.
Proof.
  intros G. unfold mkdir. rewrite (locate_real root cwd false p l); auto.
  - now rewrite G.
  - eapply get_removelast_dir; eauto.
  - discriminate.
Qed.

Lemma rmtree_real es :
  l <> [] -> get root l = Some (Dir es) -> rmtree root cwd p = inr (del l root).
Proof.
  intros Hne G. unfold rmtree. rewrite (locate_real root cwd false p l); auto.
  - rewrite G. now destruct l.
  - eapply get_removelast_dir; eauto.
  - discriminate.
Qed.

Lemma read_file_real d :
  get root l = Some (File d) -> read_file root cwd p = inr d.
Proof.
  intros G. unfold read_file. rewrite (locate_real root cwd true p l); auto.
  - now rewrite G.
  - eapply get_removelast_dir; eauto.
  - intros _ t. now rewrite G.
Qed.

Lemma write_file_real data es :
  get root (removelast l) = Some (Dir es) ->
  (get root l = None \/ exists d, get root l = Some (File d)) ->
  write_file root cwd p data = inr (put l (File data) root).
Proof.
  intros Hd G. unfold write_file. rewrite (locate_real root cwd true p l); eauto.
  - destruct G as [G|[d G]]; rewrite G; [now rewrite Hd|reflexivity].
  - intros _ t. destruct G as [G|[d G]]; now rewrite G.
Qed.

End RealPath.

(** The recursion of [makedirs] is on a shorter path each time: the length
    of the name is fuel enough, and more fuel changes nothing. *)
Lemma makedirs_rec_fuel root cwd : forall fuel fuel' name,
  String.length name <= fuel -> String.length name <= fuel' ->
  makedirs_rec fuel root cwd name = makedirs_rec fuel' root cwd name.
Proof.
  induction fuel as [|k IH]; intros fuel' name H H'.
  - destruct name; [|cbn in H; lia]. destruct fuel'; reflexivity.
  - destruct fuel' as [|k'].
    + destruct name; [|cbn in H'; lia]. reflexivity.
    + cbn [makedirs_rec].
      pose proof (split_length name) as L.
      destruct (split name) as [h0 t0]. cbn [fst snd] in L.
      assert (X : forall h t,
                 (if String.eqb t0 "" then split h0 else (h0, t0)) = (h, t) ->
                 t <> "" -> String.length h < String.length name).
      { intros h t E Ht. destruct (String.eqb_spec t0 "") as [->|N].
        - pose proof (split_length h0) as L0. rewrite E in L0. cbn [fst snd] in L0.
          destruct t; [congruence|]. cbn [String.length] in *. lia.
        - injection E as <- <-. destruct t0; [congruence|].
          cbn [String.length] in *. lia. }
      destruct (if String.eqb t0 "" then split h0 else (h0, t0)) as [h t].
      specialize (X h t eq_refl).
      destruct (String.eqb_spec t "") as [->|Ht].
      * now rewrite andb_false_r.
      * specialize (X Ht).
        destruct (negb (String.eqb h "") && negb false && negb (path_exists root cwd h));
          [|reflexivity].
        rewrite (IH k' h); [reflexivity|lia|lia].
Qed.

Lemma makedirs_fuel root cwd name fuel :
  String.length name <= fuel ->
  makedirs_rec fuel root cwd name = makedirs root cwd name.
Proof. intros H. unfold makedirs. now apply makedirs_rec_fuel. Qed.

Lemma makedirs_real root cwd a n A es :
  isabs a = true -> components a = A -> Forall plain A ->
  get root A = Some (Dir es) -> is_name n = true ->
  makedirs root cwd (join a n) = mkdir root cwd (join a n).
Proof.
  intros Habs Hc Hp Hg Hn. unfold makedirs.
  unfold is_name in Hn. apply andb_prop in Hn as [Hn Hns].
  apply andb_prop in Hn as [Hn Hn2]. apply andb_prop in Hn as [Hn0 Hn1].
  apply negb_true_iff in Hn0. apply String.eqb_neq in Hn0.
  assert (Ha : a <> "") by (intros ->; discriminate).
  destruct (split_join_name a n Hns Hn0 Ha) as [hd [Hs [Hhc [Hhne Hha]]]].
  assert (Hex : path_exists root cwd hd = true).
  { unfold path_exists. rewrite (stat_real root cwd hd A) with (x := Dir es); auto.
    - now rewrite Hhc.
    - discriminate. }
  destruct (String.length (join a n)); cbn [makedirs_rec]; rewrite Hs;
    apply String.eqb_neq in Hn0; rewrite Hn0, Hex;
    rewrite andb_false_r; reflexivity.
Qed.

(** ** Well-formed trees *)

Lemma lookup_In n es x : lookup n es = Some x -> In (n, x) es.
Proof.
  induction es as [|[k y] es IH]; simpl; [discriminate|].
  destruct (String.eqb_spec k n) as [->|_].
  - intros [= ->]. now left.
  - intros H. right. auto.
Qed.

Lemma wf_Dir es :
  wf (Dir es) = true <->
  forallb is_name (map fst es) = true /\ nodupb (map fst es) = true
  /\ forallb (fun e => wf (snd e)) es = true.
Proof.
  cbn [wf]. rewrite !andb_true_iff. tauto.
Qed.

Lemma wf_lookup es n x :
  wf (Dir es) = true -> lookup n es = Some x -> is_name n = true /\ wf x = true.
Proof.
  intros Hw L. apply wf_Dir in Hw as [Hn [_ Hc]]. apply lookup_In in L.
  rewrite forallb_forall in Hn, Hc. split.
  - apply Hn. now apply (in_map fst) in L.
  - now apply (Hc (n, x)).
Qed.

Lemma wf_get root p x :
  wf root = true -> get root p = Some x ->
  Forall (fun n => is_name n = true) p /\ wf x = true.
Proof.
  revert root. induction p as [|n p IH]; intros root Hw G; simpl in G.
  - injection G as <-. auto.
  - destruct root as [| |es]; try discriminate.
    destruct (lookup n es) as [x1|] eqn:L; [|discriminate].
    destruct (wf_lookup es n x1 Hw L) as [Hn Hx1].
    destruct (IH x1 Hx1 G). auto.
Qed.

Lemma is_name_plain n : is_name n = true -> plain n.
Proof.
  unfold is_name, plain. rewrite !andb_true_iff, !negb_true_iff, !String.eqb_neq.
  tauto.
Qed.

Lemma names_plain p :
  Forall (fun n => is_name n = true) p -> Forall plain p.
Proof. intros H. eapply Forall_impl; [|exact H]. apply is_name_plain. Qed.

Lemma existsb_set_entry_other m n x es :
  m <> n ->
  existsb (String.eqb m) (map fst (set_entry n x es))
  = existsb (String.eqb m) (map fst es).
Proof.
  intros Hmn. induction es as [|[k y] es IH]; simpl.
  - destruct (String.eqb_spec m n); [contradiction|reflexivity].
  - destruct (String.eqb_spec k n) as [->|Hk]; simpl; [reflexivity|now rewrite IH].
Qed.

Lemma names_map_entry n f es : map fst (map_entry n f es) = map fst es.
Proof.
  induction es as [|[k y] es IH]; simpl; [reflexivity|].
  destruct (String.eqb k n); simpl; [reflexivity|now rewrite IH].
Qed.

Lemma wf_set_entry n x es :
  is_name n = true -> wf x = true -> wf (Dir es) = true ->
  wf (Dir (set_entry n x es)) = true.
Proof.
  intros Hn Hx Hw. apply wf_Dir in Hw as [H1 [H2 H3]]. apply wf_Dir.
  induction es as [|[k y] es IH]; simpl in *.
  - now rewrite Hn, Hx.
  - apply andb_prop in H1 as [H1a H1b]. apply andb_prop in H2 as [H2a H2b].
    apply andb_prop in H3 as [H3a H3b].
    destruct (String.eqb_spec k n) as [->|Hk]; simpl.
    + now rewrite H1a, H1b, H2a, H2b, Hx, H3b.
    + destruct (IH H1b H2b H3b) as [I1 [I2 I3]].
      rewrite H1a, I1, I2, H3a, I3. rewrite existsb_set_entry_other by exact Hk.
      now rewrite H2a.
Qed.

Lemma existsb_remove_entry m n es :
  existsb (String.eqb m) (map fst es) = false ->
  existsb (String.eqb m) (map fst (remove_entry n es)) = false.
Proof.
  induction es as [|[k y] es IH]; simpl; [reflexivity|].
  intros H. apply orb_false_elim in H as [H1 H2].
  destruct (String.eqb k n); simpl; [exact H2|]. now rewrite H1, IH.
Qed.

Lemma wf_remove_entry n es :
  wf (Dir es) = true -> wf (Dir (remove_entry n es)) = true.
Proof.
  intros Hw. apply wf_Dir in Hw as [H1 [H2 H3]]. apply wf_Dir.
  induction es as [|[k y] es IH]; simpl in *; [auto|].
  apply andb_prop in H1 as [H1a H1b]. apply andb_prop in H2 as [H2a H2b].
  apply andb_prop in H3 as [H3a H3b].
  destruct (String.eqb k n); simpl; [auto|].
  destruct (IH H1b H2b H3b) as [I1 [I2 I3]].
  rewrite H1a, I1, I2, H3a, I3.
  apply negb_true_iff in H2a. now rewrite existsb_remove_entry.
  
Qed.

Lemma wf_map_entry n f es :
  (forall x, lookup n es = Some x -> wf (f x) = true) ->
  wf (Dir es) = true -> wf (Dir (map_entry n f es)) = true.
Proof.
  intros Hf Hw. apply wf_Dir in Hw as [H1 [H2 H3]]. apply wf_Dir.
  rewrite names_map_entry. repeat split; auto.
  clear H1 H2. induction es as [|[k y] es IH]; simpl in *; [reflexivity|].
  apply andb_prop in H3 as [H3a H3b].
  destruct (String.eqb k n) eqn:E; simpl.
  - now rewrite Hf, H3b.
  - rewrite H3a. simpl. apply IH; auto.
Qed.

Lemma wf_put p x root :
  Forall (fun n => is_name n = true) p -> wf x = true -> wf root = true ->
  wf (put p x root) = true.
Proof.
  revert root. induction p as [|n p IH]; intros root Hp Hx Hw; [exact Hx|].
  inversion Hp as [|? ? Hn Hp']; subst.
  destruct root as [| |es]; try exact Hw.
  destruct p as [|m p].
  - now apply wf_set_entry.
  - rewrite put_cons_cons. apply wf_map_entry; [|exact Hw].
    intros y Hy. apply IH; auto. now apply (wf_lookup es n y Hw Hy).
Qed.

Lemma wf_del p root : wf root = true -> wf (del p root) = true.
Proof.
  revert root. induction p as [|n p IH]; intros root Hw; [exact Hw|].
  destruct root as [| |es]; try exact Hw.
  destruct p as [|m p].
  - now apply wf_remove_entry.
  - rewrite del_cons_cons. apply wf_map_entry; [|exact Hw].
    intros y Hy. apply IH. now apply (wf_lookup es n y Hw Hy).
Qed.

Lemma get_del_same p root : wf root = true -> p <> [] -> get (del p root) p = None.
Proof.
  revert root. induction p as [|n p IH]; intros root Hw Hp; [contradiction|].
  destruct root as [| |es]; try reflexivity.
  destruct p as [|m p].
  - simpl. rewrite lookup_remove_entry_same; [reflexivity|].
    now apply wf_Dir in Hw as [_ [H _]].
  - rewrite del_cons_cons. cbn [get]. rewrite lookup_map_entry_same.
    destruct (lookup n es) as [x1|] eqn:L; [|reflexivity]. simpl.
    apply IH; [|discriminate]. now apply (wf_lookup es n x1 Hw L).
Qed.

(** ** [copytree] *)


Lemma copy_node_eq fuel symlinks root at_ x :
  copy_node fuel symlinks root at_ x =
  match x with
  | File d => (Some (File d), false)
  | Dir es => let r := copy_entries fuel symlinks root at_ es in
              (Some (Dir (fst r)), snd r)
  | Link t =>
      if symlinks then (Some (Link t), false)
      else match fuel with
           | O => (None, true)
           | S f => match link_target root (removelast at_) t with
                    | Some (c, y) => copy_node f symlinks root c y
                    | None => (None, true)
                    end
           end
  end.
Proof.
  assert (E : forall es, (fix entries (es0 : list (string * node)) :
                 list (string * node) * bool :=
               match es0 with
               | [] => ([], false)
               | (n, y) :: rest =>
                   let '(y', e1) := copy_node fuel symlinks root (at_ ++ [n]) y in
                   let '(rest', e2) := entries rest in
                   (match y' with Some v => (n, v) :: rest' | None => rest' end,
                    e1 || e2)
               end) es = copy_entries fuel symlinks root at_ es).
  { induction es as [|[n y] es IH]; [reflexivity|]. cbn [copy_entries].
    rewrite <- IH. reflexivity. }
  destruct x as [d|t|es].
  - destruct fuel; reflexivity.
  - destruct fuel; reflexivity.
  - cbv zeta. rewrite <- (E es). destruct fuel; reflexivity.
Qed.

(** with [symlinks=True] the copy is the source itself, links included *)
Lemma copy_node_symlinks fuel root x : forall at_,
  copy_node fuel true root at_ x = (Some x, false).
Proof.
  induction x as [d|t|es IH] using node_ind'; intros at_; rewrite copy_node_eq;
    try reflexivity.
  cbv zeta.
  assert (E : copy_entries fuel true root at_ es = (es, false)).
  { induction IH as [|[n y] es Hy _ IHes]; [reflexivity|].
    cbn [copy_entries]. simpl in Hy. now rewrite Hy, IHes. }
  now rewrite E.
Qed.

(** with [symlinks=False] the copy holds no link *)
Lemma copy_node_link_free fuel root : forall x at_ r e,
  copy_node fuel false root at_ x = (Some r, e) -> link_free r = true.
Proof.
  induction fuel as [|f IHf];
    (induction x as [d|t|es IH] using node_ind'; intros at_ r e; rewrite copy_node_eq;
     [intros [= <- _]; reflexivity| |]).
  - discriminate.
  - cbv zeta. intros [= <- _]. cbn [link_free]. clear e.
    induction IH as [|[n y] es Hy _ IHes]; [reflexivity|].
    cbn [copy_entries]. simpl in Hy.
    destruct (copy_node 0 false root (at_ ++ [n]) y) as [[v|] e1] eqn:C;
      destruct (copy_entries 0 false root at_ es) as [rest' e2]; simpl in *; auto.
    now rewrite (Hy _ _ _ C), IHes.
  - destruct (link_target root (removelast at_) t) as [[c y]|]; [|discriminate].
    apply IHf.
  - cbv zeta. intros [= <- _]. cbn [link_free]. clear e.
    induction IH as [|[n y] es Hy _ IHes]; [reflexivity|].
    cbn [copy_entries]. simpl in Hy.
    destruct (copy_node (S f) false root (at_ ++ [n]) y) as [[v|] e1] eqn:C;
      destruct (copy_entries (S f) false root at_ es) as [rest' e2]; simpl in *; auto.
    now rewrite (Hy _ _ _ C), IHes.
Qed.

Lemma link_target_get root dir t c y :
  link_target root dir t = Some (c, y) -> get root c = Some y.
Proof.
  unfold link_target. destruct (String.eqb t ""); [discriminate|].
  destruct (resolve_from _ _ _ _ _) as [|c']; [discriminate|].
  destruct (get root c') eqn:G; [|discriminate]. now intros [= <- <-].
Qed.

Lemma copy_entries_wf fuel symlinks root at_ es :
  Forall (fun e => forall at_ r err,
            copy_node fuel symlinks root at_ (snd e) = (Some r, err) -> wf r = true) es ->
  wf (Dir es) = true ->
  wf (Dir (fst (copy_entries fuel symlinks root at_ es))) = true
  /\ forall m, existsb (String.eqb m) (map fst es) = false ->
               existsb (String.eqb m)
                 (map fst (fst (copy_entries fuel symlinks root at_ es))) = false.
Proof.
  intros IH. induction IH as [|[n y] es Hy _ IHes]; intros Hw; [now split|].
  apply wf_Dir in Hw as [H1 [H2 H3]]. simpl in H1, H2, H3, Hy.
  apply andb_prop in H1 as [H1a H1b]. apply andb_prop in H2 as [H2a H2b].
  apply andb_prop in H3 as [H3a H3b].
  destruct IHes as [I1 I2]; [apply wf_Dir; auto|].
  apply wf_Dir in I1 as [J1 [J2 J3]].
  cbn [copy_entries].
  destruct (copy_node fuel symlinks root (at_ ++ [n]) y) as [[v|] e1] eqn:C;
    destruct (copy_entries fuel symlinks root at_ es) as [rest' e2]; simpl in *.
  - split.
    + rewrite H1a, J1, J2, J3, (Hy _ _ _ C).
      apply negb_true_iff in H2a. now rewrite (I2 _ H2a).
    + intros m Hm. apply orb_false_elim in Hm as [Hm1 Hm2].
      now rewrite Hm1, (I2 _ Hm2).
  - split.
    + now rewrite J1, J2, J3.
    + intros m Hm. apply orb_false_elim in Hm as [Hm1 Hm2]. auto.
Qed.

(** the copy of a well-formed tree is well formed *)
Lemma copy_node_wf fuel symlinks root :
  wf root = true ->
  forall x at_ r e, wf x = true ->
  copy_node fuel symlinks root at_ x = (Some r, e) -> wf r = true.
Proof.
  intros Hroot.
  induction fuel as [|f IHf];
    (induction x as [d|t|es IH] using node_ind'; intros at_ r e Hw; rewrite copy_node_eq;
     [intros [= <- _]; reflexivity| |]).
  - destruct symlinks; [intros [= <- _]; reflexivity|discriminate].
  - cbv zeta. intros [= <- _].
    apply copy_entries_wf; [|exact Hw].
    apply wf_Dir in Hw as [_ [_ H3]]. rewrite forallb_forall in H3.
    rewrite Forall_forall in *. intros x Hx at' r' e' C.
    apply (IH x Hx at' r' e'); auto.
  - destruct symlinks; [intros [= <- _]; reflexivity|].
    destruct (link_target root (removelast at_) t) as [[c y]|] eqn:L; [|discriminate].
    apply IHf. apply link_target_get in L.
    now apply (wf_get root c y Hroot L).
  - cbv zeta. intros [= <- _].
    apply copy_entries_wf; [|exact Hw].
    apply wf_Dir in Hw as [_ [_ H3]]. rewrite forallb_forall in H3.
    rewrite Forall_forall in *. intros x Hx at' r' e' C.
    apply (IH x Hx at' r' e'); auto.
Qed.

Lemma set_entry_same_id n x es : lookup n es = Some x -> set_entry n x es = es.
Proof.
  induction es as [|[k y] es IH]; simpl; [discriminate|].
  destruct (String.eqb k n); [now intros [= ->]|].
  intros H. now rewrite IH.
Qed.

Lemma put_same_id p x root : get root p = Some x -> put p x root = root.
Proof.
  revert root. induction p as [|n p IH]; intros root G; simpl in G.
  - now injection G.
  - destruct root as [| |es]; try discriminate.
    destruct (lookup n es) as [x1|] eqn:L; [|discriminate].
    destruct p as [|m p].
    + simpl in G. injection G as ->. simpl. now rewrite set_entry_same_id.
    + rewrite put_cons_cons. f_equal.
      rewrite (map_entry_set_entry _ _ _ _ L), (IH _ G).
      now apply set_entry_same_id.
Qed.

Lemma lookup_app_notin n (l1 l2 : list (string * node)) :
  existsb (String.eqb n) (map fst l1) = false -> lookup n (l1 ++ l2) = lookup n l2.
Proof.
  induction l1 as [|[k y] l1 IH]; simpl; [reflexivity|].
  intros H. apply orb_false_elim in H as [H1 H2].
  rewrite String.eqb_sym, H1. auto.
Qed.

Lemma set_entry_app_notin n x (l1 l2 : list (string * node)) :
  existsb (String.eqb n) (map fst l1) = false ->
  set_entry n x (l1 ++ l2) = l1 ++ set_entry n x l2.
Proof.
  induction l1 as [|[k y] l1 IH]; simpl; [reflexivity|].
  intros H. apply orb_false_elim in H as [H1 H2].
  rewrite String.eqb_sym, H1. now rewrite IH.
Qed.

Lemma nodupb_app_cons (l1 l2 : list string) n :
  nodupb (l1 ++ n :: l2) = true ->
  existsb (String.eqb n) l1 = false /\ nodupb ((l1 ++ [n]) ++ l2) = true.
Proof.
  rewrite <- app_assoc. simpl. intros H. split; [|exact H].
  induction l1 as [|k l1 IH]; simpl in *; [reflexivity|].
  apply andb_prop in H as [H1 H2]. rewrite (IH H2), orb_false_r.
  apply negb_true_iff in H1. rewrite existsb_app in H1.
  apply orb_false_elim in H1 as [_ H1]. simpl in H1.
  apply orb_false_elim in H1 as [H1 _]. now rewrite String.eqb_sym.
Qed.

(** ** [os.walk] *)


Lemma walk_node_Dir root top at_ es :
  walk_node root top at_ (Dir es) =
  (top,
   map fst (filter (fun e => entry_is_dir root at_ (snd e)) es),
   map fst (filter (fun e => negb (entry_is_dir root at_ (snd e))) es))
  :: walk_subdirs root top at_ es.
Proof.
  cbn [walk_node]. f_equal.
  induction es as [|[n y] es IH]; [reflexivity|].
  cbn [walk_subdirs]. now rewrite <- IH.
Qed.

Lemma filter_link_free root at_ (es : list (string * node)) :
  forallb (fun e => link_free (snd e)) es = true ->
  filter (fun e => negb (entry_is_dir root at_ (snd e))) es
  = filter (fun e => negb (is_dirb (snd e))) es.
Proof.
  induction es as [|[n y] es IH]; simpl; [reflexivity|].
  intros H. apply andb_prop in H as [H1 H2]. rewrite (IH H2).
  destruct y; try reflexivity. discriminate.
Qed.

End FSFacts.

Module ScriptFacts.
Import Py PosixPath FS PathFacts TextFacts FSFacts.
Local Open Scope list_scope.

Lemma with_fs_id st : with_fs st (fs st) = st.
Proof. now destruct st. Qed.

Lemma with_fs_twice st a b : with_fs (with_fs st a) b = with_fs st b.
Proof. reflexivity. Qed.

Lemma for_each_app {A : Type} (l1 l2 : list A) (body : A -> M unit) st :
  for_each (l1 ++ l2) body st =
  match for_each l1 body st with
  | (inr _, st') => for_each l2 body st'
  | (inl e, st') => (inl e, st')
  end.
Proof.
  revert st. induction l1 as [|x l1 IH]; intros st; [reflexivity|].
  simpl. unfold bind. destruct (body x st) as [[e|[]] st']; [reflexivity|].
  apply IH.
Qed.

Section EditRepos.
Variables (h : host) (platform yumrepodir : string).
Hypothesis Hrepo_abs : isabs yumrepodir = true.

Lemma names_rw_file l : map fst (map (rw_file platform) l) = map fst l.
Proof. rewrite map_map. reflexivity. Qed.

Lemma names_rw_full l : map fst (map (rw_full platform) l) = map fst l.
Proof. rewrite map_map. reflexivity. Qed.

Lemma is_name_not_abs n : is_name n = true -> isabs n = false.
Proof.
  unfold is_name. rewrite !andb_true_iff. intros [_ H].
  destruct n as [|c n]; [reflexivity|]. cbn [no_slash] in H.
  apply andb_prop in H as [H _]. apply negb_true_iff in H.
  unfold isabs. cbn [startswith]. unfold is_slash in H.
  rewrite Ascii.eqb_sym, H. reflexivity.
Qed.

Lemma is_name_components n : is_name n = true -> components n = [n].
Proof.
  intros H. pose proof H as H'. unfold is_name in H'.
  rewrite !andb_true_iff, !negb_true_iff, !String.eqb_neq in H'.
  apply components_name; tauto.
Qed.

Lemma components_join_name a n :
  is_name n = true -> components (join a n) = components a ++ [n].
Proof.
  intros H. rewrite components_join by now apply is_name_not_abs.
  now rewrite (is_name_components n H).
Qed.

(** *** The outcomes of the rewrite *)

Lemma edit_file_outcome_ok n d x u :
  edit_file_outcome platform n d = (x, inr u) -> x = rewrite_file platform n d.
Proof.
  unfold edit_file_outcome, rewrite_file.
  destruct (endswith n ".repo"); [|now intros [= <-]].
  destruct (utf8_valid d); [|discriminate].
  destruct (utf8_valid (rewrite_text platform d)); [|discriminate].
  now intros [= <-].
Qed.

Lemma edit_files_of_ok es : forall es' u,
  edit_files_of platform es = (es', inr u) -> es' = map (rw_file platform) es.
Proof.
  induction es as [|[n y] es IH]; intros es' u; cbn [edit_files_of map].
  - now intros [= <-].
  - destruct y as [d|t|sub].
    + destruct (edit_file_outcome platform n d) as [x [e|u0]] eqn:E; [discriminate|].
      destruct (edit_files_of platform es) as [rest' o] eqn:R. intros [= <- ->].
      apply edit_file_outcome_ok in E. subst x.
      unfold rw_file at 1. cbn [fst snd]. f_equal. eapply IH. reflexivity.
    + destruct (edit_files_of platform es) as [rest' o] eqn:R. intros [= <- ->].
      unfold rw_file at 1. cbn [fst snd]. f_equal. eapply IH. reflexivity.
    + destruct (edit_files_of platform es) as [rest' o] eqn:R. intros [= <- ->].
      unfold rw_file at 1. cbn [fst snd]. f_equal. eapply IH. reflexivity.
Qed.

Lemma edit_tree_Dir es :
  edit_tree platform (Dir es)
  = match edit_files_of platform es with
    | (es1, inl e) => (Dir es1, inl e)
    | (_, inr _) => (Dir (fst (edit_subdirs_of platform es)),
                     snd (edit_subdirs_of platform es))
    end.
Proof.
  cbn [edit_tree]. destruct (edit_files_of platform es) as [es1 [e|u]]; [reflexivity|].
  cbv zeta.
  match goal with
  | |- (Dir (fst (?f es)), snd (?f es)) = _ =>
      assert (E : forall l, f l = edit_subdirs_of platform l)
  end.
  { induction l as [|[n y] l IH]; [reflexivity|].
    cbn [edit_subdirs_of]. now rewrite <- IH. }
  now rewrite E.
Qed.

Lemma edit_tree_ok x : forall x' u,
  edit_tree platform x = (x', inr u) -> x' = rewrite_tree platform x.
Proof.
  induction x as [d|t|es IH] using node_ind'; intros x' u.
  - now intros [= <-].
  - now intros [= <-].
  - rewrite edit_tree_Dir.
    destruct (edit_files_of platform es) as [es1 [e|u1]]; [discriminate|].
    intros H. injection H as <- H. cbn [rewrite_tree]. f_equal.
    clear es1. revert u H.
    induction IH as [|[n y] l Hy _ IHl]; intros u H; [reflexivity|].
    cbn [edit_subdirs_of] in *. cbn [map fst snd].
    destruct y as [d|t|sub].
    + destruct (edit_subdirs_of platform l) as [rest' o] eqn:R.
      cbn [fst snd] in *. subst o. f_equal. eapply IHl. reflexivity.
    + destruct (edit_subdirs_of platform l) as [rest' o] eqn:R.
      cbn [fst snd] in *. subst o. f_equal. eapply IHl. reflexivity.
    + cbn [snd] in Hy.
      destruct (edit_tree platform (Dir sub)) as [y' [e|u']] eqn:T;
        [cbn [snd] in H; discriminate|].
      destruct (edit_subdirs_of platform l) as [rest' o] eqn:R.
      cbn [fst snd] in *. subst o. rewrite (Hy y' u' eq_refl). f_equal.
      eapply IHl. reflexivity.
Qed.


Lemma encoded_one c :
  encoded [c] = if utf8_valid c then (c, true) else (""%string, false).
Proof. cbn [encoded]. destruct (utf8_valid c); [|reflexivity]. now rewrite append_nil_r. Qed.

Section OneDirectory.
Variables (dirname : string) (at_ : loc).
Hypothesis Hdir_abs : isabs dirname = true.
Hypothesis Hdir_comp : components dirname = at_.
Hypothesis Hat_plain : Forall plain at_.

Lemma edit_repo_file_file st n d cur :
  is_name n = true ->
  get (fs st) at_ = Some (Dir cur) -> lookup n cur = Some (File d) ->
  edit_repo_file h platform yumrepodir dirname n st
  = (snd (edit_file_outcome platform n d),
     with_fs st (put at_ (Dir (set_entry n (fst (edit_file_outcome platform n d)) cur))
                     (fs st))).
Proof.
  intros Hn G L. unfold edit_repo_file, edit_file_outcome.
  assert (Hl : get (fs st) (at_ ++ [n]) = Some (File d)) by now rewrite get_snoc, G.
  assert (Hj : join3 yumrepodir dirname n = join dirname n).
  { unfold join3. now rewrite (join_abs yumrepodir dirname Hdir_abs). }
  assert (Ha : isabs (join dirname n) = true) by now apply isabs_join.
  assert (Hc : components (join dirname n) = at_ ++ [n]).
  { rewrite components_join_name by exact Hn. now rewrite Hdir_comp. }
  assert (Hp : Forall plain (at_ ++ [n])).
  { apply Forall_app. split; [exact Hat_plain|]. constructor; [|constructor].
    now apply is_name_plain. }
  assert (Hsame : (with_fs st (put at_ (Dir (set_entry n (File d) cur)) (fs st))) = st).
  { rewrite set_entry_same_id by exact L. rewrite put_same_id by exact G.
    apply with_fs_id. }
  assert (Hw : forall data,
             write_file (fs st) (getcwd h) (join dirname n) data
             = inr (put at_ (Dir (set_entry n (File data) cur)) (fs st))).
  { intros data.
    rewrite (write_file_real (fs st) (getcwd h) _ _ Ha Hc Hp _ cur).
    - f_equal. rewrite (put_sub at_ [n] _ _ (Dir cur) G); [reflexivity|discriminate].
    - now rewrite removelast_last.
    - right. now exists d. }
  destruct (endswith n ".repo") eqn:E; cbn [negb fst snd].
  - rewrite Hj. unfold bind, try_ask, effect, read_text, write_text.
    rewrite (read_file_real (fs st) (getcwd h) _ _ Ha Hc Hp d Hl).
    destruct (utf8_valid d); cbn [fst snd]; [|now rewrite Hsame].
    fold (rewrite_text platform d). rewrite encoded_one.
    destruct (utf8_valid (rewrite_text platform d)); now rewrite Hw.
  - unfold ret. now rewrite Hsame.
Qed.

(** the inner loop over the file names of one directory *)
Lemma edit_files todo : forall done st,
  nodupb (map fst (done ++ todo)) = true ->
  forallb is_name (map fst todo) = true ->
  forallb (fun e => link_free (snd e)) todo = true ->
  get (fs st) at_ = Some (Dir (map (rw_file platform) done ++ todo)) ->
  for_each (map fst (filter (fun e => negb (is_dirb (snd e))) todo))
           (edit_repo_file h platform yumrepodir dirname) st
  = (snd (edit_files_of platform todo),
     with_fs st (put at_ (Dir (map (rw_file platform) done
                               ++ fst (edit_files_of platform todo))) (fs st))).
Proof.
  induction todo as [|[n y] todo IH]; intros done st Hnd Hnm Hlf G.
  - simpl. unfold ret. rewrite app_nil_r in *. rewrite put_same_id by exact G.
    now rewrite with_fs_id.
  - simpl in Hnm, Hlf. apply andb_prop in Hnm as [Hn Hnm].
    apply andb_prop in Hlf as [Hy Hlf].
    rewrite map_app in Hnd. simpl in Hnd.
    apply nodupb_app_cons in Hnd as [Hnot Hnd].
    assert (Hnd' : nodupb (map fst ((done ++ [(n, y)]) ++ todo)) = true).
    { now rewrite !map_app. }
    assert (Hnot' : existsb (String.eqb n) (map fst (map (rw_file platform) done)) = false).
    { now rewrite names_rw_file. }
    destruct y as [d|t|es]; [|discriminate|].
    + cbn [filter snd is_dirb negb map fst for_each edit_files_of]. unfold bind.
      rewrite (edit_repo_file_file st n d (map (rw_file platform) done ++ (n, File d) :: todo) Hn G).
      2:{ rewrite lookup_app_notin by exact Hnot'. simpl. now rewrite String.eqb_refl. }
      rewrite set_entry_app_notin by exact Hnot'. cbn [set_entry].
      rewrite String.eqb_refl.
      destruct (edit_file_outcome platform n d) as [x [e|u]] eqn:O; cbn [fst snd].
      * reflexivity.
      * apply edit_file_outcome_ok in O. subst x.
        rewrite (IH (done ++ [(n, File d)])); auto.
        -- cbn [fs with_fs]. rewrite with_fs_twice, put_twice.
           destruct (edit_files_of platform todo) as [rest' o]. cbn [fst snd].
           rewrite map_app, <- app_assoc. reflexivity.
        -- cbn [fs with_fs]. rewrite get_put_same.
           ++ rewrite map_app, <- app_assoc. reflexivity.
           ++ eapply get_removelast_dir; eauto.
    + cbn [filter snd is_dirb negb edit_files_of].
      rewrite (IH (done ++ [(n, Dir es)])); auto.
      * destruct (edit_files_of platform todo) as [rest' o]. cbn [fst snd].
        rewrite map_app, <- app_assoc. reflexivity.
      * rewrite map_app, <- app_assoc. exact G.
Qed.

End OneDirectory.

Lemma edit_subdirs rootW top at_ :
  isabs top = true -> components top = at_ -> Forall plain at_ ->
  forall todo, Forall (fun e => walk_rewrites h platform yumrepodir (snd e)) todo ->
  forall done st,
    nodupb (map fst (done ++ todo)) = true ->
    forallb is_name (map fst todo) = true ->
    forallb (fun e => wf (snd e)) todo = true ->
    forallb (fun e => link_free (snd e)) todo = true ->
    get (fs st) at_ = Some (Dir (map (rw_full platform) done ++ map (rw_file platform) todo)) ->
    for_each (walk_subdirs rootW top at_ todo) (edit_repo_dir h platform yumrepodir) st
    = (snd (edit_subdirs_of platform todo),
       with_fs st (put at_ (Dir (map (rw_full platform) done
                                 ++ fst (edit_subdirs_of platform todo))) (fs st))).
Proof.
  intros Ha Hc Hp todo IH.
  induction IH as [|[n y] todo Hy _ IHt]; intros done st Hnd Hnm Hwf Hlf G.
  - simpl. unfold ret. simpl in G. rewrite app_nil_r in *.
    rewrite put_same_id by exact G. now rewrite with_fs_id.
  - simpl in Hnm, Hlf, Hwf, Hy. apply andb_prop in Hnm as [Hn Hnm].
    apply andb_prop in Hlf as [Hylf Hlf]. apply andb_prop in Hwf as [Hywf Hwf].
    rewrite map_app in Hnd. simpl in Hnd.
    apply nodupb_app_cons in Hnd as [Hnot Hnd].
    assert (Hnd' : nodupb (map fst ((done ++ [(n, y)]) ++ todo)) = true).
    { now rewrite !map_app. }
    assert (Hnot' : existsb (String.eqb n) (map fst (map (rw_full platform) done)) = false).
    { now rewrite names_rw_full. }
    cbn [walk_subdirs edit_subdirs_of].
    destruct y as [d|t|es]; [|discriminate|].
    + cbn [app]. rewrite (IHt (done ++ [(n, File d)])); auto.
      * destruct (edit_subdirs_of platform todo) as [rest' o]. cbn [fst snd].
        rewrite map_app, <- app_assoc. reflexivity.
      * rewrite map_app, <- app_assoc. exact G.
    + rewrite for_each_app.
      assert (Hsub : get (fs st) (at_ ++ [n]) = Some (Dir es)).
      { rewrite get_snoc, G, lookup_app_notin by exact Hnot'.
        simpl. now rewrite String.eqb_refl. }
      rewrite (Hy Hywf Hylf rootW (join top n) (at_ ++ [n]) st); auto.
      * rewrite (put_sub at_ [n] _ _ _ G) by discriminate.
        cbn [put]. rewrite set_entry_app_notin by exact Hnot'.
        cbn [map rw_file fst snd set_entry]. rewrite String.eqb_refl.
        destruct (edit_tree platform (Dir es)) as [y' [e|u]] eqn:T; cbn [fst snd].
        -- reflexivity.
        -- apply edit_tree_ok in T. subst y'.
           rewrite (IHt (done ++ [(n, Dir es)])); auto.
           ++ cbn [fs with_fs]. rewrite with_fs_twice, put_twice.
              destruct (edit_subdirs_of platform todo) as [rest' o]. cbn [fst snd].
              rewrite map_app, <- app_assoc. reflexivity.
           ++ cbn [fs with_fs]. rewrite get_put_same.
              ** rewrite map_app, <- app_assoc. reflexivity.
              ** eapply get_removelast_dir; eauto.
      * now apply isabs_join.
      * rewrite components_join_name by exact Hn. now rewrite Hc.
      * apply Forall_app. split; [exact Hp|]. constructor; [|constructor].
        now apply is_name_plain.
Qed.

Lemma edit_walk x : walk_rewrites h platform yumrepodir x.
Proof.
  induction x as [d|t|es IH] using node_ind'; intros Hwf Hlf rootW top at_ st Ha Hc Hp G.
  - simpl. unfold ret. rewrite put_same_id by exact G. now rewrite with_fs_id.
  - discriminate.
  - rewrite walk_node_Dir, edit_tree_Dir. cbn [for_each]. unfold bind.
    cbn [edit_repo_dir]. cbn [link_free] in Hlf.
    rewrite (filter_link_free rootW at_ es Hlf).
    pose proof Hwf as Hwf'. apply wf_Dir in Hwf' as [W1 [W2 W3]].
    rewrite (edit_files top at_ Ha Hc Hp es [] st); auto.
    destruct (edit_files_of platform es) as [es1 [e|u]] eqn:F; cbn [fst snd app map].
    + reflexivity.
    + apply edit_files_of_ok in F. subst es1.
      rewrite (edit_subdirs rootW top at_ Ha Hc Hp es IH [] _); auto.
      * cbn [fs with_fs app map]. rewrite with_fs_twice, put_twice. reflexivity.
      * cbn [fs with_fs app map]. rewrite get_put_same; [reflexivity|].
        eapply get_removelast_dir; eauto.
Qed.

(** the loop of lines 140-148, however it ends *)
Lemma edit_repos_spec st L t :
  components yumrepodir = L -> Forall plain L ->
  get (fs st) L = Some t -> wf t = true -> link_free t = true ->
  edit_repos h platform yumrepodir st
  = (snd (edit_tree platform t),
     with_fs st (put L (fst (edit_tree platform t)) (fs st))).
Proof.
  intros Hc Hp G Hwf Hlf. unfold edit_repos, bind, ask, walk.
  rewrite (locate_real (fs st) (getcwd h) true yumrepodir L); auto.
  - rewrite G. apply (edit_walk t Hwf Hlf); auto.
  - eapply get_removelast_dir; eauto.
  - intros _ t' G'. rewrite G in G'. injection G' as ->. discriminate.
Qed.

(** when every text can be decoded the rewrite goes through *)
Lemma edit_tree_valid x :
  utf8_valid platform = true -> texts_ok x = true ->
  edit_tree platform x = (rewrite_tree platform x, inr tt).
Proof.
  intros Hpl. induction x as [d|t|es IH] using node_ind'; intros Hok; try reflexivity.
  rewrite edit_tree_Dir. cbn [texts_ok] in Hok.
  assert (F : edit_files_of platform es = (map (rw_file platform) es, inr tt)).
  { clear IH. induction es as [|[n y] es IHes]; [reflexivity|].
    cbn [forallb fst snd] in Hok. apply andb_prop in Hok as [H1 H2].
    cbn [edit_files_of map]. rewrite (IHes H2).
    destruct y as [d|t|sub]; try reflexivity.
    unfold edit_file_outcome, rw_file, rewrite_file. cbn [fst snd].
    destruct (endswith n ".repo"); [|reflexivity].
    cbn [negb orb] in H1. rewrite H1, rewrite_text_valid by auto. reflexivity. }
  rewrite F. cbn [rewrite_tree].
  assert (S : edit_subdirs_of platform es
              = (map (fun e => (fst e, match snd e with
                                       | File d => rewrite_file platform (fst e) d
                                       | _ => rewrite_tree platform (snd e)
                                       end)) es, inr tt)).
  { clear F. induction IH as [|[n y] l Hy _ IHl]; [reflexivity|].
    cbn [forallb fst snd] in Hok. apply andb_prop in Hok as [H1 H2].
    cbn [edit_subdirs_of map fst snd]. rewrite (IHl H2).
    destruct y as [d|t|sub]; try reflexivity.
    cbn [snd] in Hy. now rewrite (Hy H1). }
  now rewrite S.
Qed.

(** the inner loop goes through only if every text can be decoded *)
Lemma edit_files_of_texts es : forall es1 u,
  edit_files_of platform es = (es1, inr u) ->
  forallb (fun e => match snd e with
                    | File d => negb (endswith (fst e) ".repo") || utf8_valid d
                    | _ => true
                    end) es = true.
Proof.
  induction es as [|[n y] es IHes]; intros es1 u; cbn [edit_files_of forallb fst snd];
    [reflexivity|].
  destruct y as [d|t|sub].
  - unfold edit_file_outcome.
    destruct (endswith n ".repo"); cbn [negb orb].
    + destruct (utf8_valid d); [|discriminate].
      destruct (utf8_valid (rewrite_text platform d)); [|discriminate].
      destruct (edit_files_of platform es) as [rest' [e'|u']]; [discriminate|].
      intros _. eapply IHes. reflexivity.
    + destruct (edit_files_of platform es) as [rest' [e'|u']]; [discriminate|].
      intros _. eapply IHes. reflexivity.
  - destruct (edit_files_of platform es) as [rest' [e'|u']]; [discriminate|].
    intros _. eapply IHes. reflexivity.
  - destruct (edit_files_of platform es) as [rest' [e'|u']]; [discriminate|].
    intros _. eapply IHes. reflexivity.
Qed.

(** and a text that cannot be decoded stops it *)
Lemma edit_tree_invalid x :
  utf8_valid platform = true -> texts_ok x = false ->
  snd (edit_tree platform x) = inl UnicodeDecodeError.
Proof.
  intros Hpl. induction x as [d|t|es IH] using node_ind'; intros Hok; try discriminate.
  rewrite edit_tree_Dir. cbn [texts_ok] in Hok.
  destruct (edit_files_of platform es) as [es1 [e|u]] eqn:F.
  - cbn [snd]. f_equal. clear IH Hok. revert es1 F.
    induction es as [|[n y] es IHes]; intros es1; cbn [edit_files_of]; [discriminate|].
    destruct y as [d|t|sub].
    + unfold edit_file_outcome.
      destruct (endswith n ".repo").
      * destruct (utf8_valid d) eqn:V.
        -- rewrite rewrite_text_valid by auto.
           destruct (edit_files_of platform es) as [rest' [e'|u']]; [|discriminate].
           intros [= _ <-]. eapply IHes. reflexivity.
        -- now intros [= _ <-].
      * destruct (edit_files_of platform es) as [rest' [e'|u']]; [|discriminate].
        intros [= _ <-]. eapply IHes. reflexivity.
    + destruct (edit_files_of platform es) as [rest' [e'|u']]; [|discriminate].
      intros [= _ <-]. eapply IHes. reflexivity.
    + destruct (edit_files_of platform es) as [rest' [e'|u']]; [|discriminate].
      intros [= _ <-]. eapply IHes. reflexivity.
  - cbn [snd].
    pose proof (edit_files_of_texts es es1 u F) as Hfiles.
    clear F. induction IH as [|[n y] l Hy _ IHl]; [discriminate|].
    cbn [forallb fst snd] in Hok, Hfiles. apply andb_prop in Hfiles as [F1 F2].
    cbn [edit_subdirs_of].
    destruct y as [d|t|sub].
    + rewrite F1 in Hok. cbn [andb] in Hok.
      destruct (edit_subdirs_of platform l) as [rest' o]. cbn [snd] in *. auto.
    + cbn [texts_ok andb] in Hok.
      destruct (edit_subdirs_of platform l) as [rest' o]. cbn [snd] in *. auto.
    + cbn [snd] in Hy.
      destruct (texts_ok (Dir sub)) eqn:T.
      * cbn [andb] in Hok. rewrite (edit_tree_valid (Dir sub) Hpl T).
        destruct (edit_subdirs_of platform l) as [rest' o]. cbn [snd] in *. auto.
      * specialize (Hy eq_refl).
        destruct (edit_tree platform (Dir sub)) as [y' [e|u']]; cbn [snd] in *;
          [exact Hy|discriminate].
Qed.

End EditRepos.

(** ** Sequencing *)

Lemma bind_ok {A B : Type} (m : M A) (k : A -> M B) st a st' :
  m st = (inr a, st') -> bind m k st = k a st'.
Proof. unfold bind. now intros ->. Qed.

Lemma bind_err {A B : Type} (m : M A) (k : A -> M B) st e st' :
  m st = (inl e, st') -> bind m k st = (inl e, st').
Proof. unfold bind. now intros ->. Qed.

Lemma update_ok f st root' :
  f (fs st) = inr root' -> update f st = (inr tt, with_fs st root').
Proof. unfold update. now intros ->. Qed.

Lemma update_err f st e : f (fs st) = inl e -> update f st = (inl e, st).
Proof. unfold update. now intros ->. Qed.

(** ** The scratch directory *)



Section Scratch.
Variables (h : host) (platform : string).

Let Hm : loc := components (HOMEDIR h).
Let Y : loc := scratch_loc h platform.

Hypothesis Habs : isabs (HOMEDIR h) = true.
Hypothesis Hplat : no_slash platform = true.

Lemma scratch_name : is_name ("yum-" ++ platform)%string = true.
Proof. unfold is_name. cbn. now rewrite Hplat. Qed.

Lemma yumdir_abs : isabs (yumdir h platform) = true.
Proof. now apply isabs_join. Qed.

Lemma yumdir_comp : components (yumdir h platform) = Y.
Proof. unfold yumdir. now rewrite (components_join_name _ _ scratch_name). Qed.

(** a tree whose scratch directory may be set: the home directory is a real
    directory in it *)
Section Base.
Variable base : node.
Hypothesis Hwf : wf base = true.
Variable hes : list (string * node).
Hypothesis Hhome : get base Hm = Some (Dir hes).

Lemma home_names : Forall (fun n => is_name n = true) Hm.
Proof. now destruct (wf_get base Hm _ Hwf Hhome). Qed.

Lemma scratch_names : Forall (fun n => is_name n = true) Y.
Proof.
  apply Forall_app. split; [apply home_names|].
  constructor; [apply scratch_name|constructor].
Qed.

Lemma scratch_plain s :
  Forall (fun n => is_name n = true) s -> Forall plain (Y ++ s).
Proof.
  intros Hs. apply names_plain, Forall_app. split; [apply scratch_names|exact Hs].
Qed.

Lemma scratch_parent : Y = [] \/ exists es, get base (removelast Y) = Some (Dir es).
Proof. right. exists hes. unfold Y, scratch_loc. now rewrite removelast_last. Qed.

Lemma get_scratch T s : get (put Y T base) (Y ++ s) = get T s.
Proof. apply get_put_under, scratch_parent. Qed.

Lemma get_scratch_root T : get (put Y T base) Y = Some T.
Proof. apply get_put_same, scratch_parent. Qed.

Lemma put_scratch T s x :
  s <> [] -> put (Y ++ s) x (put Y T base) = put Y (put s x T) base.
Proof.
  intros Hs. rewrite (put_sub Y s x _ T (get_scratch_root T) Hs).
  apply put_twice.
Qed.

Lemma wf_scratch T : wf T = true -> wf (put Y T base) = true.
Proof. intros HT. apply wf_put; auto. apply scratch_names. Qed.

(** a path [join (yumdir h platform) n] inside the scratch directory *)
Lemma in_scratch_abs n : isabs (join (yumdir h platform) n) = true.
Proof. apply isabs_join, yumdir_abs. Qed.

Lemma in_scratch_comp n :
  is_name n = true -> components (join (yumdir h platform) n) = Y ++ [n].
Proof. intros Hn. now rewrite (components_join_name _ _ Hn), yumdir_comp. Qed.

Lemma makedirs_in_scratch es n cwd :
  is_name n = true -> lookup n es = None ->
  makedirs (put Y (Dir es) base) cwd (join (yumdir h platform) n)
  = inr (put Y (Dir (set_entry n (Dir []) es)) base).
Proof.
  intros Hn L.
  rewrite (makedirs_real _ cwd (yumdir h platform) n Y es yumdir_abs yumdir_comp); auto.
  - rewrite (mkdir_real _ cwd (join (yumdir h platform) n) (Y ++ [n])) with (es := es).
    + now rewrite put_scratch by discriminate.
    + apply in_scratch_abs.
    + now apply in_scratch_comp.
    + apply scratch_plain. now constructor.
    + now destruct Y.
    + rewrite removelast_last. apply get_scratch_root.
    + rewrite get_scratch. simpl. now rewrite L.
  - apply names_plain, scratch_names.
  - apply get_scratch_root.
Qed.


Hypothesis Hfresh : get base Y = None.

Lemma makedirs_scratch cwd : makedirs base cwd (yumdir h platform) = inr (put Y (Dir []) base).
Proof.
  unfold yumdir.
  rewrite (makedirs_real base cwd (HOMEDIR h) ("yum-" ++ platform)%string Hm hes Habs eq_refl); auto.
  - apply (mkdir_real base cwd _ Y) with (es := hes); auto.
    + apply yumdir_abs.
    + apply yumdir_comp.
    + apply names_plain, scratch_names.
    + unfold Y, scratch_loc. now destruct (components (HOMEDIR h)).
    + unfold Y, scratch_loc. now rewrite removelast_last.
  - apply names_plain, home_names.
Qed.



Lemma fill_scratch_spec st :
  fs st = base ->
  match (fill_scratch h platform) st with
  | (inr _, st') => exists t d, wf t = true /\ link_free t = true
                                /\ st' = with_fs st (put Y (scratch_dir t d) base)
  | (inl _, st') => exists T, st' = with_fs st (put Y T base)
  end.
Proof.
  intros Hfs. unfold fill_scratch.
  erewrite bind_ok
    by (apply update_ok; rewrite Hfs; apply makedirs_scratch).
  erewrite bind_ok
    by (apply update_ok; cbn [fs with_fs];
        now rewrite (makedirs_in_scratch [] "RPMs")).
  rewrite with_fs_twice. cbn [set_entry].
  set (r2 := put Y (Dir [("RPMs", Dir [])]) base).
  assert (Hwf2 : wf r2 = true) by now apply wf_scratch.
  unfold bind at 1. cbn [fs with_fs]. unfold copytree.
  destruct (locate r2 (getcwd h) true "/etc/yum.repos.d") as [e|cs] eqn:Ls;
    [now exists (Dir [("RPMs", Dir [])])|].
  destruct (get r2 cs) as [[d|t|es]|] eqn:Gs;
    try (now exists (Dir [("RPMs", Dir [])])).
  unfold r2 at 1. rewrite (makedirs_in_scratch _ "yum.repos.d") by reflexivity.
  cbn [set_entry String.eqb Ascii.eqb Bool.eqb].
  set (T3 := Dir [("RPMs", Dir []); ("yum.repos.d", Dir [])]).
  assert (Hl3 : locate (put Y T3 base) (getcwd h) true (yumrepodir h platform)
                = inr (Y ++ ["yum.repos.d"])).
  { apply locate_real.
    - apply in_scratch_abs.
    - now apply in_scratch_comp.
    - apply scratch_plain. now constructor.
    - right. rewrite removelast_last. exists [("RPMs", Dir []); ("yum.repos.d", Dir [])].
      apply get_scratch_root.
    - intros _ t. now rewrite get_scratch. }
  rewrite Hl3, get_scratch. cbn [get lookup String.eqb Ascii.eqb Bool.eqb T3].
  destruct (copy_node MAXSYMLINKS false r2 cs (Dir es)) as [[t|] err] eqn:C;
    [|now exists T3].
  rewrite put_scratch by discriminate.
  change (put ["yum.repos.d"] t T3) with (Dir [("RPMs", Dir []); ("yum.repos.d", t)]).
  set (T4 := Dir [("RPMs", Dir []); ("yum.repos.d", t)]).
  destruct err; [now exists T4|].
  assert (Hwt : wf t = true).
  { apply (copy_node_wf MAXSYMLINKS false r2 Hwf2 (Dir es) cs t false); [|exact C].
    now apply (wf_get r2 cs _ Hwf2 Gs). }
  assert (Hlt : link_free t = true) by exact (copy_node_link_free _ _ _ _ _ _ C).
  unfold update. cbn [fs with_fs]. unfold copyfile.
  destruct (locate (put Y T4 base) (getcwd h) true "/etc/dnf/dnf.conf") as [e|cf];
    [now exists T4|].
  destruct (get (put Y T4 base) cf) as [[d| |]|]; try (now exists T4).
  assert (Hl4 : locate (put Y T4 base) (getcwd h) true (yumcfgfile h platform)
                = inr (Y ++ ["dnf.conf"])).
  { apply locate_real.
    - apply in_scratch_abs.
    - now apply in_scratch_comp.
    - apply scratch_plain. now constructor.
    - right. rewrite removelast_last. exists [("RPMs", Dir []); ("yum.repos.d", t)].
      apply get_scratch_root.
    - intros _ t'. now rewrite get_scratch. }
  rewrite Hl4.
  destruct (list_eq_dec string_dec cf (Y ++ ["dnf.conf"])); [now exists T4|].
  rewrite (write_file_real _ _ (yumcfgfile h platform) (Y ++ ["dnf.conf"]))
    with (es := [("RPMs", Dir []); ("yum.repos.d", t)]).
  - exists t, d. repeat split; auto. rewrite put_scratch by discriminate. reflexivity.
  - apply in_scratch_abs.
  - now apply in_scratch_comp.
  - apply scratch_plain. now constructor.
  - rewrite removelast_last. apply get_scratch_root.
  - left. now rewrite get_scratch.
Qed.


(** lines 132-137, on the scratch directory just filled: when the edit
    raises, the configuration is as it was or holds the part of the new text
    written before the exception *)
Lemma edit_config_scratch st t d :
  fs st = put Y (scratch_dir t d) base ->
  match edit_config h (yumcfgfile h platform) (yumrepodir h platform) st with
  | (inr _, st') =>
      exists cfg cfg',
        ini_read h d = inr cfg
        /\ ConfigParser.setitem cfg "main" "reposdir" (yumrepodir h platform) = inr cfg'
        /\ st' = with_fs st (put Y (scratch_dir t (ConfigParser.write cfg')) base)
  | (inl _, st') => exists d', st' = with_fs st (put Y (scratch_dir t d') base)
  end.
Proof.
  intros Hfs.
  assert (Hsame : st = with_fs st (put Y (scratch_dir t d) base)).
  { rewrite <- Hfs. symmetry. apply with_fs_id. }
  unfold edit_config. unfold bind at 1. unfold ask. rewrite Hfs.
  assert (Hc : components (yumcfgfile h platform) = Y ++ ["dnf.conf"]) by now apply in_scratch_comp.
  assert (Hp : Forall plain (Y ++ ["dnf.conf"])).
  { apply scratch_plain. now constructor. }
  rewrite (read_file_real _ (getcwd h) (yumcfgfile h platform) _ (in_scratch_abs _) Hc Hp d)
    by now rewrite get_scratch.
  unfold bind at 1. destruct (ini_read h d) as [e|cfg] eqn:Hini; [now exists d|].
  unfold bind at 1.
  destruct (ConfigParser.setitem cfg "main" "reposdir" (yumrepodir h platform)) as [e|cfg'] eqn:Hset;
    [now exists d|].
  unfold effect, write_text. rewrite Hfs.
  destruct (encoded (ConfigParser.write_chunks cfg')) as [data ok] eqn:En.
  rewrite (write_file_real _ (getcwd h) (yumcfgfile h platform) _ (in_scratch_abs _) Hc Hp)
    with (es := [("RPMs", Dir []); ("yum.repos.d", t); ("dnf.conf", File d)]).
  - rewrite put_scratch by discriminate.
    change (put ["dnf.conf"] (File data) (scratch_dir t d)) with (scratch_dir t data).
    destruct ok; [|now exists data].
    exists cfg, cfg'. repeat split; auto.
    apply encoded_all in En. unfold ConfigParser.write. now rewrite <- En.
  - rewrite removelast_last. apply get_scratch_root.
  - right. exists d. now rewrite get_scratch.
Qed.

(** lines 140-148, on the scratch directory *)
Lemma edit_repos_scratch st t d :
  wf t = true -> link_free t = true ->
  fs st = put Y (scratch_dir t d) base ->
  edit_repos h platform (yumrepodir h platform) st
  = (snd (edit_tree platform t),
     with_fs st (put Y (scratch_dir (fst (edit_tree platform t)) d) base)).
Proof.
  intros Hwt Hlt Hfs.
  rewrite (edit_repos_spec h platform (yumrepodir h platform) (in_scratch_abs _) st
             (Y ++ ["yum.repos.d"]) t); auto.
  - rewrite Hfs, put_scratch by discriminate. reflexivity.
  - now apply in_scratch_comp.
  - apply scratch_plain. now constructor.
  - now rewrite Hfs, get_scratch.
Qed.

End Base.

Lemma make_scratch_eq :
  make_scratch h platform (yumdir h platform) (yumcfgfile h platform) (yumrepodir h platform) (yumrpmdir h platform) =
  bind (printr ("Creating DNF repo for platform '" ++ platform ++ "' at '"
                ++ (yumdir h platform) ++ "' ...")%string) (fun _ =>
  bind (ask (fun root => path_exists root (getcwd h) (yumdir h platform))) (fun there =>
  bind (if there then update (fun root => rmtree root (getcwd h) (yumdir h platform))
        else ret tt) (fun _ => (fill_scratch h platform)))).
Proof. reflexivity. Qed.

Section Initial.
Variable root0 : node.
Hypothesis Hwf0 : wf root0 = true.
Variable hes : list (string * node).
Hypothesis Hhome0 : get root0 Hm = Some (Dir hes).

Let base : node := del Y root0.

Lemma scratch_nonempty : Y <> [].
Proof. unfold Y, scratch_loc. now destruct (components (HOMEDIR h)). Qed.

Lemma base_wf : wf base = true.
Proof. now apply wf_del. Qed.

Lemma base_home : exists es, get base Hm = Some (Dir es).
Proof.
  apply (get_del_above Y root0 Hm ["yum-" ++ platform]%string hes); auto.
  discriminate.
Qed.

Lemma base_fresh : get base Y = None.
Proof. apply get_del_same; [exact Hwf0|apply scratch_nonempty]. Qed.

Lemma yumdir_locate follow :
  (follow = true -> forall t, get root0 Y <> Some (Link t)) ->
  locate root0 (getcwd h) follow (yumdir h platform) = inr Y.
Proof.
  intros Hl. apply locate_real; auto.
  - apply yumdir_abs.
  - apply yumdir_comp.
  - apply names_plain. apply (scratch_names root0 Hwf0 hes Hhome0).
  - right. exists hes. unfold Y, scratch_loc. now rewrite removelast_last.
Qed.

(** lines 118-130, from any state of the scratch directory *)
Lemma make_scratch_spec st :
  fs st = root0 ->
  match make_scratch h platform (yumdir h platform) (yumcfgfile h platform) (yumrepodir h platform) (yumrpmdir h platform) st with
  | (inr _, st') => exists t d, wf t = true /\ link_free t = true
                                /\ fs st' = put Y (scratch_dir t d) base
  | (inl _, st') => fs st' = root0 \/ exists T, fs st' = put Y T base
  end.
Proof.
  intros Hfs. rewrite make_scratch_eq. unfold bind at 1. unfold printr, emit.
  set (st1 := with_event st _).
  assert (Hfs1 : fs st1 = root0) by exact Hfs.
  unfold bind at 1. unfold ask. rewrite Hfs1.
  destruct base_home as [hes' Hbh].
  assert (Hfill : forall st2, fs st2 = base ->
            match (fill_scratch h platform) st2 with
            | (inr _, st') => exists t d, wf t = true /\ link_free t = true
                                /\ fs st' = put Y (scratch_dir t d) base
            | (inl _, st') => fs st' = root0 \/ exists T, fs st' = put Y T base
            end).
  { intros st2 H2.
    pose proof (fill_scratch_spec base base_wf hes' Hbh base_fresh st2 H2) as F.
    destruct ((fill_scratch h platform) st2) as [[e|u] st'].
    - destruct F as [T ->]. right. now exists T.
    - destruct F as [t [d [? [? ->]]]]. now exists t, d. }
  destruct (get root0 Y) as [[d|t|es]|] eqn:GY.
  - (* a regular file in the way *)
    unfold path_exists.
    rewrite (stat_real root0 (getcwd h) (yumdir h platform) Y yumdir_abs yumdir_comp)
      with (x := File d); auto; try discriminate.
    2:{ apply names_plain. apply (scratch_names root0 Hwf0 hes Hhome0). }
    unfold bind, update. rewrite Hfs1. unfold rmtree.
    rewrite yumdir_locate by discriminate. rewrite GY. now left.
  - (* a link in the way *)
    destruct (path_exists root0 (getcwd h) (yumdir h platform)).
    + unfold bind, update. rewrite Hfs1. unfold rmtree.
      rewrite yumdir_locate by discriminate. rewrite GY. now left.
    + unfold bind at 1. unfold ret. unfold fill_scratch.
      rewrite (bind_err _ _ st1 FileExistsError st1); [now left|].
      apply update_err. rewrite Hfs1. unfold yumdir.
      rewrite (makedirs_real root0 _ (HOMEDIR h) ("yum-" ++ platform)%string Hm hes Habs eq_refl
                 (names_plain _ (home_names root0 Hwf0 hes Hhome0)) Hhome0 scratch_name).
      apply (mkdir_real_exists root0 _ _ Y yumdir_abs yumdir_comp
               (names_plain _ (scratch_names root0 Hwf0 hes Hhome0)) (Link t) GY).
  - (* the directory of a prior run *)
    unfold path_exists.
    rewrite (stat_real root0 (getcwd h) (yumdir h platform) Y yumdir_abs yumdir_comp)
      with (x := Dir es); auto; try discriminate.
    2:{ apply names_plain. apply (scratch_names root0 Hwf0 hes Hhome0). }
    erewrite bind_ok.
    2:{ apply update_ok. rewrite Hfs1.
        apply (rmtree_real root0 _ (yumdir h platform) Y yumdir_abs yumdir_comp) with (es := es); auto.
        - apply names_plain. apply (scratch_names root0 Hwf0 hes Hhome0).
        - apply scratch_nonempty. }
    now apply Hfill.
  - (* nothing there *)
    unfold path_exists.
    rewrite (stat_real_none root0 (getcwd h) (yumdir h platform) Y yumdir_abs yumdir_comp); auto.
    2:{ apply names_plain. apply (scratch_names root0 Hwf0 hes Hhome0). }
    2:{ right. exists hes. unfold Y, scratch_loc. now rewrite removelast_last. }
    unfold bind at 1. unfold ret. apply Hfill.
    rewrite Hfs1. unfold base. symmetry. now apply del_absent.
Qed.

(** a scratch directory left by a prior run counts for nothing *)
Lemma make_scratch_ignores_stale st es :
  fs st = root0 -> get root0 Y = Some (Dir es) ->
  make_scratch h platform (yumdir h platform) (yumcfgfile h platform) (yumrepodir h platform) (yumrpmdir h platform) st
  = make_scratch h platform (yumdir h platform) (yumcfgfile h platform) (yumrepodir h platform) (yumrpmdir h platform) (with_fs st base).
Proof.
  intros Hfs GY. rewrite make_scratch_eq. unfold bind at 1 4. unfold printr, emit.
  unfold bind at 1 3. unfold ask. cbn [fs with_event with_fs]. rewrite Hfs.
  destruct base_home as [hes' Hbh].
  unfold path_exists.
  rewrite (stat_real root0 (getcwd h) (yumdir h platform) Y yumdir_abs yumdir_comp)
    with (x := Dir es); auto; try discriminate.
  2:{ apply names_plain. apply (scratch_names root0 Hwf0 hes Hhome0). }
  rewrite (stat_real_none base (getcwd h) (yumdir h platform) Y yumdir_abs yumdir_comp).
  - erewrite bind_ok.
    2:{ apply update_ok. cbn [fs with_event]. rewrite Hfs.
        apply (rmtree_real root0 _ (yumdir h platform) Y yumdir_abs yumdir_comp) with (es := es); auto.
        - apply names_plain. apply (scratch_names root0 Hwf0 hes Hhome0).
        - apply scratch_nonempty. }
    reflexivity.
  - apply names_plain. apply (scratch_names root0 Hwf0 hes Hhome0).
  - right. exists hes'. unfold Y, scratch_loc. now rewrite removelast_last.
  - apply base_fresh.
Qed.


(** lines 118-148: every way the making of the repository context can end *)
Lemma build_repo_spec st :
  fs st = root0 ->
  match build_repo h platform (yumdir h platform) (yumcfgfile h platform) (yumrepodir h platform) (yumrpmdir h platform) st with
  | (inr _, st') =>
      exists t d cfg cfg',
        wf t = true /\ link_free t = true
        /\ ini_read h d = inr cfg
        /\ ConfigParser.setitem cfg "main" "reposdir" (yumrepodir h platform) = inr cfg'
        /\ fs st' = put Y (scratch_dir (rewrite_tree platform t)
                                       (ConfigParser.write cfg')) base
  | (inl _, st') => fs st' = root0 \/ exists T, fs st' = put Y T base
  end.
Proof.
  intros Hfs. unfold build_repo. unfold bind at 1.
  pose proof (make_scratch_spec st Hfs) as MS.
  destruct (make_scratch h platform (yumdir h platform) (yumcfgfile h platform) (yumrepodir h platform) (yumrpmdir h platform) st)
    as [[e|u] st1]; [exact MS|].
  destruct MS as [t [d [Hwt [Hlt Hfs1]]]].
  destruct base_home as [hes' Hbh].
  unfold bind at 1.
  pose proof (edit_config_scratch base base_wf hes' Hbh st1 t d Hfs1) as EC.
  destruct (edit_config h (yumcfgfile h platform) (yumrepodir h platform) st1) as [[e|u'] st2].
  - destruct EC as [d' ->]. right. now exists (scratch_dir t d').
  - destruct EC as [cfg [cfg' [Hini [Hset ->]]]].
    rewrite (edit_repos_scratch base base_wf hes' Hbh _ t (ConfigParser.write cfg'));
      auto.
    destruct (edit_tree platform t) as [t' [e|u'']] eqn:T; cbn [fst snd fs with_fs].
    + right. now exists (scratch_dir t' (ConfigParser.write cfg')).
    + apply (edit_tree_ok platform) in T. subst t'. exists t, d, cfg, cfg'. auto.
Qed.

End Initial.
End Scratch.

End ScriptFacts.

(* ===================================================================== *)
(** * The properties of the provisioning *)
(* ===================================================================== *)

Import PathFacts TextFacts FSFacts ScriptFacts.
Local Open Scope string_scope.
Local Open Scope list_scope.

(** ** The probe and the short circuit *)

Lemma get_libgcc_path_ok h rtlib platform st root' out :
  exec h (probe_cmdline rtlib platform (PLATFORM_SUFFIX st)) None (fs st)
  = (root', 0%Z, out) ->
  get_libgcc_path h rtlib platform st
  = (inr (abspath (getcwd h) (strip out)),
     with_event (with_fs st root')
       (EvRun (probe_cmdline rtlib platform (PLATFORM_SUFFIX st)) None 0)).
Proof.
  intros E. unfold get_libgcc_path, bind, subprocess_run. rewrite E. reflexivity.
Qed.

(** C2 (idempotency short circuit).  Take any host, any platform and any
    state in which the probe for that platform succeeds and names a path that
    exists.  Then the iteration of the provisioning loop for this platform
    ends normally after the probe: the file system is the one the probe
    left, and the trace is extended by the probe and the message "already
    installed" alone, so no repository is built, no [dnf] command is run, no
    process is started and nothing is copied.  With the configured list of
    platforms, which holds this one platform, the whole loop does the same. *)
Theorem idempotency_short_circuit :
  forall (h : host) (platform : string) (st : state) (root' : node) (out : string),
    let cmdline := probe_cmdline rtlib_default (Some platform) (PLATFORM_SUFFIX st) in
    let st' := with_event (with_event (with_fs st root') (EvRun cmdline None 0))
                 (EvPrint ("compiler-rt for " ++ platform ++ " already installed.")) in
    exec h cmdline None (fs st) = (root', 0%Z, out) ->
    path_exists root' (getcwd h) (abspath (getcwd h) (strip out)) = true ->
    install_platform h platform st = (inr tt, st')
    /\ fs st' = root'
    /\ trace st' = trace st ++ [EvRun cmdline None 0;
                                EvPrint ("compiler-rt for " ++ platform
                                         ++ " already installed.")]
    /\ (TARGET_PLATFORMS = [platform] ->
        install_alt_platforms_rtlib h st = (inr tt, st')).
Proof.
  intros h platform st root' out cmdline st' E Hex.
  assert (Hbody : install_platform h platform st = (inr tt, st')).
  { unfold install_platform.
    rewrite (bind_ok _ _ st _ _
               (get_libgcc_path_ok h rtlib_default (Some platform) st root' out E)).
    unfold bind at 1. unfold ask. cbn [fs with_fs with_event].
    rewrite Hex. reflexivity. }
  repeat split.
  - exact Hbody.
  - cbn. now rewrite <- app_assoc.
  - intros HT. unfold install_alt_platforms_rtlib. rewrite HT. cbn [for_each].
    rewrite (bind_ok _ _ st tt st' Hbody). reflexivity.
Qed.

Lemma idempotency_short_circuit_witness :
  exists st', install_platform sample_host "x86_64" provisioned_state = (inr tt, st')
              /\ fs st' = fs provisioned_state.
Proof.
  destruct (idempotency_short_circuit sample_host "x86_64" provisioned_state
              (fs provisioned_state)
              ("/usr/lib64/clang/17/lib/x86_64-redhat-linux-gnu/libclang_rt.builtins.a"
               ++ nl)%string) as [H [Hfs _]].
  - vm_compute. reflexivity.
  - vm_compute. reflexivity.
  - eexists. split; [exact H|exact Hfs].
Defined.

(** ** The two-stage extraction *)

(** every way the extraction can end once its directory is made: both
    children are started, [cpio] is waited for first, then [rpm2cpio]; the
    exit code of [rpm2cpio] decides, the one of [cpio] is not looked at *)
Lemma extract_outcome h rpm extractdir st root1 :
  makedirs (fs st) (getcwd h) extractdir = inr root1 ->
  isdir root1 (getcwd h) extractdir = true ->
  let p1 := rpm2cpio_proc rpm in
  let p2 := cpio_proc rpm extractdir in
  let root2 := fst (child h p2 root1) in
  let rc2 := snd (child h p2 root1) in
  let root3 := fst (child h p1 root2) in
  let rc1 := snd (child h p1 root2) in
  extract h (Some rpm) extractdir st
  = (if Z.eqb rc1 0 then inr tt
     else inl (CalledProcessError rc1 [("rpm2cpio " ++ rpm)%string]),
     {| fs := root3; PLATFORM_SUFFIX := PLATFORM_SUFFIX st;
        trace := trace st ++ [EvPopen p1; EvPopen p2; EvWait p2 rc2; EvWait p1 rc1] |}).
Proof.
  intros Hmk Hdir p1 p2 root2 rc2 root3 rc1.
  subst root3 rc1 root2 rc2 p1 p2. unfold rpm2cpio_proc, cpio_proc.
  unfold extract, popen_cm, Popen, bind, update, emit, ret, ask, wait, raise.
  cbn [fold_right]. rewrite Hmk.
  cbv beta iota zeta delta [option_map args fs with_fs with_event PLATFORM_SUFFIX trace].
  rewrite Hdir.
  cbv beta iota zeta delta [option_map args fs with_fs with_event PLATFORM_SUFFIX trace].
  destruct (child h _ root1) as [r2 c2].
  cbv beta iota zeta delta [fst snd andb fs with_fs with_event PLATFORM_SUFFIX trace].
  destruct (child h _ r2) as [r3 c1].
  cbv beta iota zeta delta [fst snd andb fs with_fs with_event PLATFORM_SUFFIX trace].
  destruct (Z.eqb c1 0); cbn [negb]; rewrite <- !app_assoc; reflexivity.
Qed.

(** C6 (two-stage exit checking), evaluated where it fails.  On a host whose
    [cpio] exits with code 2 while [rpm2cpio] exits with 0, the extraction
    step ends normally: the exit code of [cpio] is waited for and recorded,
    and not looked at, because the inner [popen_cm] is called without
    [check=True].  Lemma [extract_outcome] above gives every outcome: both
    children are waited for, and [rpm2cpio] alone decides. *)
Theorem cpio_failure_goes_unnoticed :
  exists st',
    extract cpio_fails_host (Some sample_rpm) (extractdir cpio_fails_host "x86_64")
            sample_fetched = (inr tt, st')
    /\ In (EvWait (cpio_proc sample_rpm (extractdir cpio_fails_host "x86_64")) 2)
          (trace st').
Proof.
  eexists. split.
  - vm_compute. reflexivity.
  - vm_compute. auto 10.
Qed.

(** ** The platform suffix *)

Lemma find_dash_strip s : forall i,
  find "-" s = Some i -> drop (i + 1) s = strip_through "-" s.
Proof.
  induction s as [|c r IH]; intros i; cbn [find startswith]; [discriminate|].
  rewrite andb_true_r, Ascii.eqb_sym. cbn [strip_through].
  destruct (Ascii.eqb c "-").
  - now intros [= <-].
  - destruct (find "-" r) as [j|]; [|discriminate].
    intros [= <-]. cbn [Nat.add drop]. now apply IH.
Qed.

Lemma split_dash_second s x :
  nth_error (split_maxsplit1 "-" s) 1 = Some x -> x = strip_through "-" s.
Proof.
  unfold split_maxsplit1. destruct (find "-" s) as [i|] eqn:F; [|discriminate].
  cbn. intros [= <-]. now apply find_dash_strip.
Qed.

Lemma find_dir_found triplet extractdir dirname dirnames d :
  find_dir triplet extractdir dirname dirnames = Some d ->
  In triplet dirnames /\ d = join3 extractdir dirname triplet.
Proof.
  induction dirnames as [|idir rest IH]; cbn [find_dir]; [discriminate|].
  destruct (String.eqb_spec idir triplet) as [->|_].
  - intros [= <-]. split; [now left|reflexivity].
  - intros H. destruct (IH H). split; [now right|assumption].
Qed.

Lemma find_libgcc_dir_found triplet extractdir triples d :
  find_libgcc_dir triplet extractdir triples = Some d ->
  exists dirname dirnames filenames,
    In (dirname, dirnames, filenames) triples /\ In triplet dirnames
    /\ d = join3 extractdir dirname triplet.
Proof.
  induction triples as [|[[dirname dirnames] filenames] rest IH];
    cbn [find_libgcc_dir]; [discriminate|].
  destruct (find_dir triplet extractdir dirname dirnames) as [d'|] eqn:F.
  - intros [= <-]. apply find_dir_found in F as [Hin ->].
    exists dirname, dirnames, filenames. split; [now left|auto].
  - intros H. destruct (IH H) as [dn [dns [fns [Hin [Hin' ->]]]]].
    exists dn, dns, fns. split; [now right|auto].
Qed.

(** ** The scan for the downloaded package *)



Lemma bind_inv {A B : Type} (m : M A) (k : A -> M B) st b st' :
  bind m k st = (inr b, st') ->
  exists a st1, m st = (inr a, st1) /\ k a st1 = (inr b, st').
Proof.
  unfold bind. destruct (m st) as [[e|a] st1]; [discriminate|]. eauto.
Qed.





(** ** The search for the directory of the target *)

Lemma find_app_first {A : Type} (f : A -> bool) (l1 l2 : list A) :
  List.find f (l1 ++ l2)
  = match List.find f l1 with Some x => Some x | None => List.find f l2 end.
Proof.
  induction l1 as [|x l1 IH]; cbn [List.find app]; [reflexivity|].
  now destruct (f x).
Qed.

Lemma find_dir_first triplet extractdir dirname dirnames :
  find_dir triplet extractdir dirname dirnames
  = option_map (fun p => join3 extractdir (fst p) (snd p))
      (List.find (fun p => String.eqb (snd p) triplet)
                 (map (fun d => (dirname, d)) dirnames)).
Proof.
  induction dirnames as [|idir rest IH]; cbn [find_dir map List.find snd];
    [reflexivity|].
  now destruct (String.eqb idir triplet).
Qed.

Lemma find_libgcc_dir_first triplet extractdir triples :
  find_libgcc_dir triplet extractdir triples
  = option_map (fun p => join3 extractdir (fst p) (snd p))
      (List.find (fun p => String.eqb (snd p) triplet) (walk_pairs triples)).
Proof.
  induction triples as [|[[dirname dirnames] filenames] rest IH];
    [reflexivity|].
  cbn [find_libgcc_dir walk_pairs flat_map fst snd].
  rewrite find_app_first, find_dir_first, IH.
  now destruct (List.find _ (map _ dirnames)).
Qed.

Lemma In_lookup n y es :
  nodupb (map fst es) = true -> In (n, y) es -> lookup n es = Some y.
Proof.
  induction es as [|[k z] es IH]; cbn [map fst nodupb lookup]; [contradiction|].
  intros H [E|Hin]; apply andb_prop in H as [H1 H2].
  - injection E as -> ->. now rewrite String.eqb_refl.
  - destruct (String.eqb_spec k n) as [->|_]; [|auto].
    apply negb_true_iff in H1. exfalso.
    assert (X : existsb (String.eqb n) (map fst es) = true).
    { apply existsb_exists. exists n. split; [|apply String.eqb_refl].
      now apply (in_map fst) in Hin. }
    congruence.
Qed.

Lemma In_walk_subdirs root top at_ t es :
  In t (walk_subdirs root top at_ es) <->
  exists m es', In (m, Dir es') es
                /\ In t (walk_node root (join top m) (at_ ++ [m]) (Dir es')).
Proof.
  induction es as [|[k z] es IH]; cbn [walk_subdirs].
  - split; [contradiction|]. now intros [m [es' [[] _]]].
  - rewrite in_app_iff, IH. split.
    + intros [H|[m [es' [H1 H2]]]].
      * destruct z as [| |es']; try contradiction. exists k, es'. split; [now left|auto].
      * exists m, es'. split; [now right|auto].
    + intros [m [es' [[E|H1] H2]]].
      * injection E as -> ->. now left.
      * right. now exists m, es'.
Qed.

(** every directory name the walk lists is the name of a directory of the
    tree (or of a link to one) *)
Lemma walk_node_sound root x : forall top at_ dn dns fns n,
  wf x = true ->
  In (dn, dns, fns) (walk_node root top at_ x) -> In n dns ->
  exists p y, get x (p ++ [n]) = Some y /\ entry_is_dir root (at_ ++ p) y = true.
Proof.
  induction x as [d|t|es IH] using node_ind'; intros top at_ dn dns fns n Hwf Hin Hn;
    try contradiction.
  rewrite walk_node_Dir in Hin. pose proof Hwf as Hwf'.
  apply wf_Dir in Hwf' as [_ [Hnd Hsub]]. destruct Hin as [E|Hin].
  - injection E as <- <- <-. apply in_map_iff in Hn as [[k y] [E Hk]].
    cbn [fst] in E. subst k. apply filter_In in Hk as [Hk Hd]. cbn [snd] in Hd.
    exists [], y. rewrite app_nil_r. split; [|exact Hd].
    cbn [app get]. now rewrite (In_lookup n y es Hnd Hk).
  - apply In_walk_subdirs in Hin as [m [es' [Hm Hin]]].
    rewrite Forall_forall in IH. rewrite forallb_forall in Hsub.
    destruct (IH (m, Dir es') Hm (join top m) (at_ ++ [m]) dn dns fns n
                (Hsub _ Hm) Hin Hn) as [p [y [G D]]].
    exists (m :: p), y. split.
    + cbn [app get]. now rewrite (In_lookup m _ es Hnd Hm).
    + now rewrite <- app_assoc in D.
Qed.

(** and the walk lists every directory of the tree it can reach *)
Lemma walk_node_complete root p : forall x top at_ es,
  get x p = Some (Dir es) ->
  exists top',
    In (top',
        map fst (filter (fun e => entry_is_dir root (at_ ++ p) (snd e)) es),
        map fst (filter (fun e => negb (entry_is_dir root (at_ ++ p) (snd e))) es))
       (walk_node root top at_ x).
Proof.
  induction p as [|n p IH]; intros x top at_ es G.
  - cbn [get] in G. injection G as ->. exists top. rewrite walk_node_Dir, app_nil_r.
    now left.
  - cbn [get] in G. destruct x as [| |es0]; try discriminate.
    destruct (lookup n es0) as [y|] eqn:L; [|discriminate].
    assert (Hy : exists es1, y = Dir es1).
    { destruct y as [d|t|es1]; [| |now exists es1]; destruct p; discriminate. }
    destruct Hy as [es1 ->].
    destruct (IH (Dir es1) (join top n) (at_ ++ [n]) es G) as [top' Hin].
    exists top'. rewrite walk_node_Dir. right. apply In_walk_subdirs.
    exists n, es1. split; [now apply lookup_In|].
    now rewrite <- app_assoc in Hin.
Qed.

(** C7 (locator), as the script has it.  Let the extraction directory be
    there, with a well-formed tree in it.  The search returns the first
    pair, in the order of the walk, of a walked directory and one of its
    sub-directory names equal to the triplet, and looks no further.  If the
    tree has no directory (or link to a directory) of that name, the search
    ends normally with [None]: no exception of its own is raised.  The
    attempt is aborted by the statement after it, [Path(None)], which
    raises [TypeError], the exception a missing package ends with too; the
    file system is untouched and nothing is installed.  If the tree has a
    directory of that name, reached through real directories, something is
    found. *)
Theorem locator_not_found :
  forall (h : host) (triplet extractdir : string) (st : state) (c : loc) (x : node),
    locate (fs st) (getcwd h) true extractdir = inr c ->
    get (fs st) c = Some x ->
    wf x = true ->
    let found := List.find (fun p => String.eqb (snd p) triplet)
                   (walk_pairs (walk (fs st) (getcwd h) extractdir)) in
    locate_libgcc_dir h triplet extractdir st
    = (inr (option_map (fun p => join3 extractdir (fst p) (snd p)) found), st)
    /\ ((forall p y, get x (p ++ [triplet]) = Some y ->
                     entry_is_dir (fs st) (c ++ p) y = false) ->
        found = None
        /\ bind (locate_libgcc_dir h triplet extractdir)
                (fun d => install h d extractdir) st = (inl TypeError, st))
    /\ ((exists p y, get x (p ++ [triplet]) = Some y
                     /\ entry_is_dir (fs st) (c ++ p) y = true) ->
        exists dirname, found = Some (dirname, triplet)).
Proof.
  intros h triplet extractdir st c x Hloc Hget Hwf found.
  assert (Hwalk : walk (fs st) (getcwd h) extractdir
                  = walk_node (fs st) extractdir c x).
  { unfold walk. now rewrite Hloc, Hget. }
  assert (Hrun : locate_libgcc_dir h triplet extractdir st
                 = (inr (option_map (fun p => join3 extractdir (fst p) (snd p)) found),
                    st)).
  { unfold locate_libgcc_dir, bind, ask, ret. now rewrite find_libgcc_dir_first. }
  split; [exact Hrun|]. split.
  - intros Hnone.
    assert (Hf : found = None).
    { destruct found as [[dn n]|] eqn:F; [exfalso|reflexivity].
      apply find_some in F as [Hin Heq]. cbn [snd] in Heq.
      apply String.eqb_eq in Heq. subst n.
      unfold walk_pairs in Hin. apply in_flat_map in Hin as [[[dn' dns] fns] [Ht Hp]].
      cbn [fst snd] in Hp. apply in_map_iff in Hp as [d [E Hd]].
      injection E as <- ->. rewrite Hwalk in Ht.
      destruct (walk_node_sound (fs st) x extractdir c dn' dns fns triplet Hwf Ht Hd)
        as [p [y [G D]]].
      rewrite (Hnone p y G) in D. discriminate. }
    split; [exact Hf|].
    rewrite (bind_ok _ _ st _ st Hrun), Hf. reflexivity.
  - intros [p [y [G D]]].
    rewrite get_snoc in G.
    destruct (get x p) as [[| |es]|] eqn:Gp; try discriminate.
    destruct (walk_node_complete (fs st) p x extractdir c es Gp) as [top' Hin].
    assert (Hpair : In (top', triplet) (walk_pairs (walk (fs st) (getcwd h) extractdir))).
    { rewrite Hwalk. unfold walk_pairs. apply in_flat_map. eexists. split; [exact Hin|].
      cbn [fst snd]. apply in_map. apply in_map_iff. exists (triplet, y).
      split; [reflexivity|]. apply filter_In. split; [now apply lookup_In|exact D]. }
    destruct found as [[dn n]|] eqn:F.
    + apply find_some in F as [_ Heq]. cbn [snd] in Heq. apply String.eqb_eq in Heq.
      subst n. now exists dn.
    + exfalso. pose proof (find_none _ _ F _ Hpair) as X. cbn [snd] in X.
      now rewrite String.eqb_refl in X.
Qed.

Lemma locator_not_found_witness :
  locate_libgcc_dir sample_host "x86_64-redhat-linux-gnu"
                    (extractdir sample_host "x86_64") sample_extracted
  = (inr (Some ("/home/u/yum-x86_64/RPMs/extract/usr/lib64/clang/17/lib/x86_64-redhat-linux-gnu"%string)),
     sample_extracted)
  /\ bind (locate_libgcc_dir sample_host "x86_64-redhat-linux-gnu"
                             (extractdir sample_host "x86_64"))
          (fun d => install sample_host d (extractdir sample_host "x86_64"))
          sample_nothing_extracted = (inl TypeError, sample_nothing_extracted).
Proof.
  split.
  - assert (H1 : locate (fs sample_extracted) (getcwd sample_host) true
                   (extractdir sample_host "x86_64")
                 = inr ["home"; "u"; "yum-x86_64"; "RPMs"; "extract"])
      by (vm_compute; reflexivity).
    assert (H2 : get (fs sample_extracted)
                   ["home"; "u"; "yum-x86_64"; "RPMs"; "extract"]
                 = Some sample_payload) by (vm_compute; reflexivity).
    assert (H3 : wf sample_payload = true) by (vm_compute; reflexivity).
    destruct (locator_not_found sample_host "x86_64-redhat-linux-gnu" _ _ _ _ H1 H2 H3)
      as [H _].
    rewrite H. vm_compute. reflexivity.
  - assert (H1 : locate (fs sample_nothing_extracted) (getcwd sample_host) true
                   (extractdir sample_host "x86_64")
                 = inr ["home"; "u"; "yum-x86_64"; "RPMs"; "extract"])
      by (vm_compute; reflexivity).
    assert (H2 : get (fs sample_nothing_extracted)
                   ["home"; "u"; "yum-x86_64"; "RPMs"; "extract"]
                 = Some (Dir [])) by (vm_compute; reflexivity).
    assert (H3 : wf (Dir []) = true) by reflexivity.
    destruct (locator_not_found sample_host "x86_64-redhat-linux-gnu" _ _ _ _ H1 H2 H3)
      as [_ [H _]].
    apply H. intros p y G. destruct p; discriminate.
Defined.

(** C7 as it was stated does not hold of the script.  With an empty
    extraction tree the search ends normally, with [None]; what raises is
    the install, and the exception is [TypeError]. *)
Lemma search_without_match_returns :
  get (fs sample_nothing_extracted) ["home"; "u"; "yum-x86_64"; "RPMs"; "extract"]
  = Some (Dir [])
  /\ locate_libgcc_dir sample_host "x86_64-redhat-linux-gnu"
                       (extractdir sample_host "x86_64") sample_nothing_extracted
     = (inr None, sample_nothing_extracted)
  /\ install sample_host None (extractdir sample_host "x86_64")
             sample_nothing_extracted
     = (inl TypeError, sample_nothing_extracted).
Proof. repeat split; vm_compute; reflexivity. Qed.

(** ** The install *)

Lemma strip_prefix_app pre : forall l rest,
  Pathlib.strip_prefix pre l = Some rest -> l = pre ++ rest.
Proof.
  induction pre as [|x pre IH]; intros l rest; cbn [Pathlib.strip_prefix].
  - now intros [= ->].
  - destruct l as [|y l]; [discriminate|].
    destruct (String.eqb_spec x y) as [->|_]; [|discriminate].
    intros H. cbn [app]. f_equal. now apply IH.
Qed.

Lemma split_char_parts s :
  Forall (fun c => no_slash c = true) (split_char "/" s).
Proof.
  induction s as [|x s IH]; cbn [split_char]; [now constructor|].
  destruct (Ascii.eqb x "/") eqn:E; [now constructor|].
  destruct (split_char "/" s) as [|hd tl].
  - constructor; [|constructor]. cbn [no_slash]. unfold is_slash. now rewrite E.
  - inversion IH as [|? ? Hh Ht]; subst. constructor; [|exact Ht].
    cbn [no_slash]. unfold is_slash. now rewrite E, Hh.
Qed.

Lemma names_parts p :
  Forall (fun c => no_slash c = true /\ c <> ""%string) (Pathlib.names p).
Proof.
  unfold Pathlib.names. pose proof (split_char_parts p) as H.
  induction H as [|c l Hc _ IH]; cbn [filter]; [constructor|].
  destruct (String.eqb_spec c ""); cbn [negb andb]; [exact IH|].
  destruct (negb (String.eqb c ".")); [|exact IH].
  constructor; auto.
Qed.

Lemma join_root_relative rest :
  Forall (fun c => no_slash c = true /\ c <> ""%string) rest ->
  let rel := match rest with [] => "."%string | _ => str_join "/" rest end in
  join "/" rel = ("/" ++ rel)%string.
Proof.
  intros H rel. unfold join.
  assert (Hs : startswith rel "/" = false).
  { unfold rel. destruct H as [|c l [Hc Hne] _]; [reflexivity|].
    destruct c as [|a c]; [contradiction|]. cbn [no_slash] in Hc.
    apply andb_prop in Hc as [Hc _]. apply negb_true_iff in Hc. unfold is_slash in Hc.
    unfold str_join. destruct l; cbn [String.concat String.append startswith];
      now rewrite Ascii.eqb_sym, Hc. }
  now rewrite Hs.
Qed.

(** what [copytree] with [symlinks=True] does when it succeeds *)
Lemma copytree_symlinks_ok root cwd src dst root' :
  copytree root cwd src dst true = (root', inr tt) ->
  exists cs es root1 cd,
    locate root cwd true src = inr cs /\ get root cs = Some (Dir es)
    /\ makedirs root cwd dst = inr root1
    /\ locate root1 cwd true dst = inr cd
    /\ root' = put cd (Dir es) root1
    /\ get root' cd = Some (Dir es).
Proof.
  unfold copytree.
  destruct (locate root cwd true src) as [e|cs] eqn:L; [discriminate|].
  destruct (get root cs) as [[d|t|es]|] eqn:G; try discriminate.
  destruct (makedirs root cwd dst) as [e|root1] eqn:Mk; [discriminate|].
  destruct (locate root1 cwd true dst) as [e|cd] eqn:L1; [discriminate|].
  rewrite copy_node_symlinks.
  destruct (get root1 cd) as [[d|t|es1]|] eqn:G1; try discriminate.
  intros [= <-]. exists cs, es, root1, cd. repeat split; auto.
  apply get_put_same. eapply get_removelast_dir; eauto.
Qed.

(** the install ends normally as soon as the located directory is there,
    below the extraction root, and its destination can be made *)
Lemma install_ends_normally h d extractdir st rel cs es root1 cd es0 :
  Pathlib.relative_to d extractdir = inr rel ->
  locate (fs st) (getcwd h) true d = inr cs ->
  get (fs st) cs = Some (Dir es) ->
  makedirs (fs st) (getcwd h) (join "/" rel) = inr root1 ->
  locate root1 (getcwd h) true (join "/" rel) = inr cd ->
  get root1 cd = Some (Dir es0) ->
  install h (Some d) extractdir st = (inr tt, with_fs st (put cd (Dir es) root1)).
Proof.
  intros Hrel L G Mk L1 G1. unfold install, bind. rewrite Hrel.
  unfold copytree. rewrite L, G, Mk, L1, G1, copy_node_symlinks. reflexivity.
Qed.

(** C9 (installer destination and links).  When the install ends normally:
    the located directory is the extraction root followed by some names
    [rest]; the destination is [/] followed by these same names; the
    destination is made with [makedirs] (so it was not there), and what is
    found at the destination afterwards is the listing of the located
    directory itself, so every symbolic link of the located tree is at the
    same place under the destination, a link to the same target. *)
Theorem install_destination :
  forall (h : host) (d extractdir : string) (st st' : state),
    install h (Some d) extractdir st = (inr tt, st') ->
    exists (rest : list string) (rel : string) (cs cd : loc)
           (es : list (string * node)) (root1 : node),
      Pathlib.root_of d = Pathlib.root_of extractdir
      /\ Pathlib.names d = Pathlib.names extractdir ++ rest
      /\ rel = match rest with [] => "."%string | _ => str_join "/" rest end
      /\ locate (fs st) (getcwd h) true d = inr cs
      /\ get (fs st) cs = Some (Dir es)
      /\ join "/" rel = ("/" ++ rel)%string
      /\ makedirs (fs st) (getcwd h) ("/" ++ rel) = inr root1
      /\ locate root1 (getcwd h) true ("/" ++ rel) = inr cd
      /\ fs st' = put cd (Dir es) root1
      /\ get (fs st') cd = Some (Dir es)
      /\ forall p t, get (Dir es) p = Some (Link t) ->
                     get (fs st') (cd ++ p) = Some (Link t).
Proof.
  intros h d extractdir st st' Hrun. unfold install in Hrun.
  apply bind_inv in Hrun as [rel [st1 [Hrel Hcopy]]].
  unfold Pathlib.relative_to in Hrel.
  destruct (String.eqb_spec (Pathlib.root_of d) (Pathlib.root_of extractdir))
    as [Hroot|_]; [|discriminate].
  destruct (Pathlib.strip_prefix (Pathlib.names extractdir) (Pathlib.names d))
    as [rest|] eqn:S; [|discriminate].
  apply strip_prefix_app in S.
  assert (Hparts : Forall (fun c => no_slash c = true /\ c <> ""%string) rest).
  { pose proof (names_parts d) as H. rewrite S in H.
    now apply Forall_app in H as [_ H]. }
  assert (Hrel' : rel = match rest with [] => "."%string | _ => str_join "/" rest end
                  /\ st1 = st).
  { destruct rest; injection Hrel as <- <-; auto. }
  destruct Hrel' as [Hrel' ->].
  pose proof (join_root_relative rest Hparts) as Hjoin. cbv zeta in Hjoin.
  rewrite <- Hrel' in Hjoin. rewrite Hjoin in Hcopy.
  destruct (copytree (fs st) (getcwd h) d ("/" ++ rel) true) as [root' r] eqn:C.
  injection Hcopy as -> <-.
  apply copytree_symlinks_ok in C as [cs [es [root1 [cd [H1 [H2 [H3 [H4 [H5 H6]]]]]]]]].
  exists rest, rel, cs, cd, es, root1. cbn [fs with_fs].
  repeat split; auto.
  intros p t Hp. now rewrite get_app, H6.
Qed.

Lemma install_destination_witness :
  exists st',
    install sample_host (Some sample_located) (extractdir sample_host "x86_64")
            sample_extracted = (inr tt, st')
    /\ get (fs st') ["usr"; "lib64"; "clang"; "17"; "lib"; "x86_64-redhat-linux-gnu";
                     "libclang_rt.a"]
       = Some (Link "libclang_rt.builtins.a").
Proof.
  exists (snd (install sample_host (Some sample_located)
                 (extractdir sample_host "x86_64") sample_extracted)).
  assert (H : install sample_host (Some sample_located)
                (extractdir sample_host "x86_64") sample_extracted
              = (inr tt, snd (install sample_host (Some sample_located)
                                (extractdir sample_host "x86_64") sample_extracted)))
    by (vm_compute; reflexivity).
  split; [exact H|].
  destruct (install_destination _ _ _ _ _ H)
    as [rest [rel [cs [cd [es [root1 [_ [_ [_ [_ [_ [_ [_ [_ [_ [_ _]]]]]]]]]]]]]]]].
  vm_compute. reflexivity.
Defined.

(** ** The edit of the copied configuration *)

Lemma assoc_set_same {A : Type} k (v : A) l :
  ConfigParser.assoc k (ConfigParser.assoc_set k v l) = Some v.
Proof.
  induction l as [|[k' v'] l IH]; cbn [ConfigParser.assoc ConfigParser.assoc_set].
  - now rewrite String.eqb_refl.
  - destruct (String.eqb k' k) eqn:E; cbn [ConfigParser.assoc]; now rewrite E.
Qed.

Lemma assoc_set_other {A : Type} k k0 (v : A) l :
  k0 <> k -> ConfigParser.assoc k0 (ConfigParser.assoc_set k v l) = ConfigParser.assoc k0 l.
Proof.
  intros Hk. induction l as [|[k' v'] l IH];
    cbn [ConfigParser.assoc ConfigParser.assoc_set].
  - destruct (String.eqb_spec k k0); [congruence|reflexivity].
  - destruct (String.eqb_spec k' k) as [->|Hk']; cbn [ConfigParser.assoc].
    + destruct (String.eqb_spec k k0); [congruence|reflexivity].
    + now rewrite IH.
Qed.

Lemma assoc_set_names {A : Type} k (v v0 : A) l :
  ConfigParser.assoc k l = Some v0 ->
  map fst (ConfigParser.assoc_set k v l) = map fst l.
Proof.
  induction l as [|[k' v'] l IH]; cbn [ConfigParser.assoc ConfigParser.assoc_set];
    [discriminate|].
  destruct (String.eqb k' k); cbn [map fst]; [reflexivity|].
  intros H. now rewrite IH.
Qed.

(** an entry found under a key cuts the list in two *)
Lemma assoc_split {A : Type} k (v : A) l :
  ConfigParser.assoc k l = Some v ->
  exists b a, l = b ++ (k, v) :: a /\ ConfigParser.assoc k b = None.
Proof.
  induction l as [|[k' v'] l IH]; cbn [ConfigParser.assoc]; [discriminate|].
  destruct (String.eqb_spec k' k) as [->|Hk].
  - intros [= ->]. now exists [], l.
  - intros H. destruct (IH H) as [b [a [-> Hb]]].
    exists ((k', v') :: b), a. split; [reflexivity|].
    cbn [ConfigParser.assoc]. destruct (String.eqb_spec k' k); [contradiction|exact Hb].
Qed.

Lemma assoc_set_split {A : Type} k (v v' : A) b a :
  ConfigParser.assoc k b = None ->
  ConfigParser.assoc_set k v' (b ++ (k, v) :: a) = b ++ (k, v') :: a.
Proof.
  induction b as [|[k0 v0] b IH]; cbn [ConfigParser.assoc ConfigParser.assoc_set app].
  - now rewrite String.eqb_refl.
  - destruct (String.eqb k0 k); [discriminate|]. intros H. now rewrite IH.
Qed.

Lemma assoc_set_absent {A : Type} k (v : A) l :
  ConfigParser.assoc k l = None -> ConfigParser.assoc_set k v l = l ++ [(k, v)].
Proof.
  induction l as [|[k0 v0] l IH]; cbn [ConfigParser.assoc ConfigParser.assoc_set app];
    [reflexivity|].
  destruct (String.eqb k0 k); [discriminate|]. intros H. now rewrite IH.
Qed.

(** where a value is set: in the place of the old one, or at the end *)
Lemma assoc_set_place {A : Type} k (v : A) l :
  (exists b old a, l = b ++ (k, old) :: a /\ ConfigParser.assoc k b = None
                   /\ ConfigParser.assoc_set k v l = b ++ (k, v) :: a)
  \/ (ConfigParser.assoc k l = None /\ ConfigParser.assoc_set k v l = l ++ [(k, v)]).
Proof.
  destruct (ConfigParser.assoc k l) as [old|] eqn:E.
  - left. apply assoc_split in E as [b [a [-> Hb]]]. exists b, old, a.
    repeat split; auto. now apply assoc_set_split.
  - right. split; [reflexivity|]. now apply assoc_set_absent.
Qed.

(** *** What [ConfigParser.write] writes *)

Lemma concat_empty_app l1 l2 :
  String.concat "" (l1 ++ l2) = (String.concat "" l1 ++ String.concat "" l2)%string.
Proof.
  induction l1 as [|x l1 IH]; [reflexivity|].
  cbn [app]. now rewrite !concat_empty_cons, IH, append_assoc.
Qed.

Lemma unlines_app l1 l2 : unlines (l1 ++ l2) = (unlines l1 ++ unlines l2)%string.
Proof. unfold unlines. now rewrite map_app, concat_empty_app. Qed.

Lemma write_section_lines name items :
  ConfigParser.write_section name items
  = map (fun x => x ++ String "010" "")%string (section_lines (name, items)).
Proof.
  unfold ConfigParser.write_section, section_lines. cbn [fst snd map].
  rewrite map_app, map_map. cbn [map String.append].
  f_equal; [now rewrite !append_assoc|]. f_equal.
  apply map_ext. intros kv. unfold ConfigParser.write_option, option_line.
  now rewrite !append_assoc.
Qed.

Lemma write_sections_lines l :
  flat_map (fun s => ConfigParser.write_section (fst s) (snd s)) l
  = map (fun x => x ++ String "010" "")%string (flat_map section_lines l).
Proof.
  induction l as [|[name items] l IH]; [reflexivity|].
  cbn [flat_map fst snd]. now rewrite map_app, IH, write_section_lines.
Qed.

(** the file written is the lines of the [DEFAULT] options, if any, then
    the lines of the sections in order *)
Lemma write_lines c :
  ConfigParser.write c
  = unlines (default_lines (ConfigParser.defaults c)
             ++ flat_map section_lines (ConfigParser.sections c)).
Proof.
  unfold ConfigParser.write, ConfigParser.write_chunks, unlines.
  rewrite map_app, write_sections_lines. f_equal. f_equal.
  unfold default_lines. destruct (ConfigParser.defaults c); [reflexivity|].
  apply write_section_lines.
Qed.

Lemma write_file_inv root cwd p data root' :
  write_file root cwd p data = inr root' ->
  exists c, locate root cwd true p = inr c
            /\ root' = put c (File data) root
            /\ get root' c = Some (File data).
Proof.
  unfold write_file. destruct (locate root cwd true p) as [e|c]; [discriminate|].
  destruct (get root c) as [[d|t|es]|] eqn:G; try discriminate.
  - intros [= <-]. exists c. repeat split.
    apply get_put_same. eapply get_removelast_dir; eauto.
  - destruct (get root (removelast c)) as [[| |es]|] eqn:Gp; try discriminate.
    intros [= <-]. exists c. repeat split.
    apply get_put_same. right. now exists es.
Qed.

(** C10 (configuration frame).  When the edit of the copied configuration
    ends normally, the file was read and parsed into [cfg], which has a
    section [main], and the file now holds, line by line: the [DEFAULT]
    options of [cfg] if it has any; the sections of [cfg] before [main],
    unchanged; the section [main] with [reposdir = yumrepodir] in the place
    of its old [reposdir] line, or after its last option if it had none, and
    its other options unchanged; the sections after [main], unchanged.
    Each section is its header, one line for each option in order, and an
    empty line.  Nothing but this file is changed.  Read by name, every
    option but [reposdir] of [main] has the value it had. *)
Theorem config_frame :
  forall (h : host) (yumcfgfile yumrepodir : string) (st st' : state),
    edit_config h yumcfgfile yumrepodir st = (inr tt, st') ->
    exists (text : string) (cfg : ConfigParser.config)
           (before after : list (string * list (string * string)))
           (main main' : list (string * string)) (c : loc),
      read_file (fs st) (getcwd h) yumcfgfile = inr text
      /\ ini_read h text = inr cfg
      /\ ConfigParser.sections cfg = before ++ ("main"%string, main) :: after
      /\ ConfigParser.assoc "main" before = None
      /\ ((exists b old a,
             main = b ++ ("reposdir"%string, old) :: a
             /\ ConfigParser.assoc "reposdir" b = None
             /\ main' = b ++ ("reposdir"%string, yumrepodir) :: a)
          \/ (ConfigParser.assoc "reposdir" main = None
              /\ main' = main ++ [("reposdir"%string, yumrepodir)]))
      /\ locate (fs st) (getcwd h) true yumcfgfile = inr c
      /\ let text' :=
           unlines (default_lines (ConfigParser.defaults cfg)
                    ++ flat_map section_lines before
                    ++ section_lines ("main"%string, main')
                    ++ flat_map section_lines after) in
         let cfg' :=
           {| ConfigParser.defaults := ConfigParser.defaults cfg;
              ConfigParser.sections := before ++ ("main"%string, main') :: after |} in
         st' = with_fs st (put c (File text') (fs st))
         /\ get (fs st') c = Some (File text')
         /\ (forall q, ~ prefix_of c q -> ~ prefix_of q c ->
                       get (fs st') q = get (fs st) q)
         /\ ConfigParser.get_option cfg' "main" "reposdir" = Some yumrepodir
         /\ (forall section opt,
               (section, opt) <> ("main"%string, "reposdir"%string) ->
               ConfigParser.get_option cfg' section opt
               = ConfigParser.get_option cfg section opt).
Proof.
  intros h yumcfgfile yumrepodir st st' Hrun. unfold edit_config in Hrun.
  apply bind_inv in Hrun as [text [st1 [H1 Hrun]]].
  unfold ask in H1. injection H1 as <- <-.
  apply bind_inv in Hrun as [cfg [st2 [H2 Hrun]]].
  apply bind_inv in Hrun as [cfg' [st3 [H3 Hrun]]].
  injection H3 as H3 <-.
  unfold ConfigParser.setitem in H3.
  destruct (ConfigParser.assoc "main" (ConfigParser.sections cfg)) as [main|] eqn:Hm.
  2:{ cbn in H3. discriminate. }
  destruct (String.eqb yumrepodir "" || ConfigParser.before_set_ok yumrepodir);
    [|discriminate].
  injection H3 as <-.
  destruct (read_file (fs st) (getcwd h) yumcfgfile) as [e|text] eqn:Hr.
  { unfold ret in H2. injection H2 as <- <-. discriminate. }
  injection H2 as H2 <-.
  unfold effect, write_text in Hrun.
  match type of Hrun with context [encoded ?l] =>
    destruct (encoded l) as [data ok] eqn:En end.
  destruct (write_file (fs st) (getcwd h) yumcfgfile data) as [e|root'] eqn:Hw;
    [discriminate|].
  destruct ok; [|discriminate]. injection Hrun as <-.
  apply encoded_all in En. fold (ConfigParser.write
    {| ConfigParser.defaults := ConfigParser.defaults cfg;
       ConfigParser.sections :=
         ConfigParser.assoc_set "main"
           (ConfigParser.assoc_set "reposdir" yumrepodir main)
           (ConfigParser.sections cfg) |}) in En.
  rewrite write_lines in En. cbn [ConfigParser.defaults ConfigParser.sections] in En.
  pose proof Hm as Hsplit. apply assoc_split in Hsplit as [before [after [Hsec Hbefore]]].
  rewrite Hsec, (assoc_set_split _ _ _ _ _ Hbefore) in En.
  rewrite flat_map_app in En. cbn [flat_map] in En.
  apply write_file_inv in Hw as [c [Hloc [-> Hget]]].
  exists text, cfg, before, after, main,
         (ConfigParser.assoc_set "reposdir" yumrepodir main), c.
  split; [reflexivity|]. split; [exact H2|]. split; [exact Hsec|].
  split; [exact Hbefore|]. split.
  { destruct (assoc_set_place "reposdir" yumrepodir main) as [[b [old [a [E1 [E2 E3]]]]]|[E1 E2]].
    - left. now exists b, old, a.
    - now right. }
  split; [exact Hloc|]. cbv zeta. rewrite <- En. cbn [fs with_fs].
  split; [reflexivity|]. split; [exact Hget|]. split.
  { intros q Hq1 Hq2. now apply get_put_frame. }
  split.
  - unfold ConfigParser.get_option. cbn [ConfigParser.sections].
    rewrite <- (assoc_set_split "main" main _ before after Hbefore).
    now rewrite !assoc_set_same.
  - intros section opt Hne. unfold ConfigParser.get_option. cbn [ConfigParser.sections].
    rewrite <- (assoc_set_split "main" main _ before after Hbefore), <- Hsec.
    destruct (String.eqb_spec section "main") as [->|Hs].
    + rewrite assoc_set_same, Hm. apply assoc_set_other. congruence.
    + now rewrite assoc_set_other by congruence.
Qed.

Lemma config_frame_witness :
  (exists (c : loc) (text' : string),
     locate (fs sample_scratch) "/root" true (yumcfgfile sample_host "x86_64") = inr c
     /\ snd (edit_config sample_host (yumcfgfile sample_host "x86_64")
               (yumrepodir sample_host "x86_64") sample_scratch)
        = with_fs sample_scratch (put c (File text') (fs sample_scratch)))
  /\ read_file (fs sample_scratch) "/root" (yumcfgfile sample_host "x86_64")
     = inr ("[main]" ++ nl ++ "gpgcheck=1" ++ nl ++ "installonly_limit=3" ++ nl)%string
  /\ read_file (fs (snd (edit_config sample_host (yumcfgfile sample_host "x86_64")
                          (yumrepodir sample_host "x86_64") sample_scratch)))
               "/root" (yumcfgfile sample_host "x86_64")
     = inr ("[main]" ++ nl ++ "gpgcheck = 1" ++ nl ++ "installonly_limit = 3" ++ nl
            ++ "reposdir = /home/u/yum-x86_64/yum.repos.d" ++ nl ++ nl)%string.
Proof.
  split; [|split; vm_compute; reflexivity].
  destruct (config_frame sample_host (yumcfgfile sample_host "x86_64")
              (yumrepodir sample_host "x86_64") sample_scratch
              (snd (edit_config sample_host (yumcfgfile sample_host "x86_64")
                      (yumrepodir sample_host "x86_64") sample_scratch)))
    as [text [cfg [before [after [main [main' [c [_ [_ [_ [_ [_ [Hloc [Hst _]]]]]]]]]]]]]].
  - vm_compute. reflexivity.
  - exists c. eexists. split; [exact Hloc|exact Hst].
Defined.

(** ** The repository context *)

Lemma get_scratch_frame Y T root0 q :
  ~ prefix_of Y q -> ~ prefix_of q Y ->
  get (put Y T (del Y root0)) q = get root0 q.
Proof. intros H1 H2. now rewrite get_put_frame, get_del_frame. Qed.

Lemma scratch_not_under h platform q :
  ~ In ("yum-" ++ platform)%string q -> ~ prefix_of (scratch_loc h platform) q.
Proof.
  intros Hn [r Hr]. apply Hn. rewrite Hr. unfold scratch_loc.
  rewrite <- app_assoc. apply in_or_app. right. now left.
Qed.

Lemma scratch_not_above h platform q :
  ~ In ("yum-" ++ platform)%string q -> ~ prefix_of q (components (HOMEDIR h)) ->
  ~ prefix_of q (scratch_loc h platform).
Proof.
  intros Hn Hp [r Hr]. unfold scratch_loc in Hr.
  destruct r as [|x r _] using rev_ind.
  - rewrite app_nil_r in Hr. apply Hn. rewrite <- Hr. apply in_or_app. right. now left.
  - rewrite app_assoc in Hr. apply app_inj_tail in Hr as [Hr _].
    apply Hp. now exists r.
Qed.

(** C3 (isolation).  On a host whose home directory is a real directory,
    given by an absolute path, and lies neither in [/etc/yum.repos.d] nor
    in [/etc/dnf/dnf.conf], the making of the repository context of a
    platform (lines 118-148), however it ends, leaves [/etc/yum.repos.d] and
    [/etc/dnf/dnf.conf] as they were, and with them every node that is
    neither in the scratch directory nor above it. *)
Theorem isolation_of_system_files :
  forall (h : host) (platform : string) (st st' : state) (r : res unit),
    sane_host h platform (fs st) ->
    ~ prefix_of ["etc"; "yum.repos.d"] (components (HOMEDIR h)) ->
    ~ prefix_of ["etc"; "dnf"; "dnf.conf"] (components (HOMEDIR h)) ->
    build_repo h platform (yumdir h platform) (yumcfgfile h platform)
               (yumrepodir h platform) (yumrpmdir h platform) st = (r, st') ->
    get (fs st') ["etc"; "yum.repos.d"] = get (fs st) ["etc"; "yum.repos.d"]
    /\ get (fs st') ["etc"; "dnf"; "dnf.conf"] = get (fs st) ["etc"; "dnf"; "dnf.conf"]
    /\ forall q, ~ prefix_of (scratch_loc h platform) q ->
                 ~ prefix_of q (scratch_loc h platform) ->
                 get (fs st') q = get (fs st) q.
Proof.
  intros h platform st st' r [Habs [Hplat [Hwf [hes Hh]]]] Hrepo Hconf Hrun.
  assert (Hframe : forall q, ~ prefix_of (scratch_loc h platform) q ->
                             ~ prefix_of q (scratch_loc h platform) ->
                             get (fs st') q = get (fs st) q).
  { intros q H1 H2.
    pose proof (build_repo_spec h platform Habs Hplat (fs st) Hwf hes Hh st eq_refl) as B.
    rewrite Hrun in B. destruct r as [e|u].
    - destruct B as [->|[T ->]]; [reflexivity|]. now apply get_scratch_frame.
    - destruct B as [t [d [cfg [cfg' [_ [_ [_ [_ ->]]]]]]]]. now apply get_scratch_frame. }
  repeat split.
  - apply Hframe.
    + apply scratch_not_under. cbn [In]. intros [E|[E|[]]]; discriminate.
    + apply scratch_not_above; [|exact Hrepo].
      cbn [In]. intros [E|[E|[]]]; discriminate.
  - apply Hframe.
    + apply scratch_not_under. cbn [In]. intros [E|[E|[E|[]]]]; discriminate.
    + apply scratch_not_above; [|exact Hconf].
      cbn [In]. intros [E|[E|[E|[]]]]; discriminate.
  - exact Hframe.
Qed.

Lemma isolation_of_system_files_witness :
  get (fs (snd (build_repo sample_host "x86_64" (yumdir sample_host "x86_64")
                  (yumcfgfile sample_host "x86_64") (yumrepodir sample_host "x86_64")
                  (yumrpmdir sample_host "x86_64") sample_ready)))
      ["etc"; "yum.repos.d"]
  = get sample_root ["etc"; "yum.repos.d"].
Proof.
  refine (proj1 (isolation_of_system_files sample_host "x86_64" sample_ready _ _ _ _ _
                   (surjective_pairing _))).
  - repeat split; try reflexivity. eexists. vm_compute. reflexivity.
  - intros [r Hr]. vm_compute in Hr. discriminate.
  - intros [r Hr]. vm_compute in Hr. discriminate.
Defined.

(** ** The rewrite of the repository definitions *)

Lemma lookup_map_value n (g : string * node -> node) es :
  lookup n (map (fun e => (fst e, g e)) es)
  = option_map (fun y => g (n, y)) (lookup n es).
Proof.
  induction es as [|[k y] es IH]; cbn [map lookup fst]; [reflexivity|].
  destruct (String.eqb_spec k n) as [->|_]; [reflexivity|exact IH].
Qed.

(** the rewritten tree, entry by entry *)
Lemma get_rewrite_tree platform p : forall t n,
  get (rewrite_tree platform t) (p ++ [n])
  = option_map (fun y => match y with
                         | File d => rewrite_file platform n d
                         | _ => rewrite_tree platform y
                         end) (get t (p ++ [n])).
Proof.
  induction p as [|m p IH]; intros t n; destruct t as [d|l|es]; try reflexivity.
  - cbn [app get rewrite_tree]. rewrite lookup_map_value.
    destruct (lookup n es) as [y|]; reflexivity.
  - cbn [app get rewrite_tree]. rewrite lookup_map_value.
    destruct (lookup m es) as [y|]; [|reflexivity]. cbn [option_map fst snd].
    destruct y as [d|l|es']; [|destruct p; reflexivity|apply IH].
    destruct p; reflexivity.
Qed.

Lemma get_rewrite_tree_dir platform p : forall t es,
  get t p = Some (Dir es) ->
  exists es', get (rewrite_tree platform t) p = Some (Dir es')
              /\ map fst es' = map fst es.
Proof.
  destruct p as [|n p _] using rev_ind; intros t es G.
  - cbn [get] in *. injection G as ->. cbn [rewrite_tree]. eexists. split; [reflexivity|].
    rewrite map_map. reflexivity.
  - rewrite get_rewrite_tree, G. cbn [option_map rewrite_tree]. eexists.
    split; [reflexivity|]. rewrite map_map. reflexivity.
Qed.

(** *** A walk that stops half-way *)

Section Partly.
Variable platform : string.
Hypothesis Hplatform : utf8_valid platform = true.

(** a file is left as it was or rewritten, never emptied *)
Lemma edit_file_outcome_cases n d :
  fst (edit_file_outcome platform n d) = File d
  \/ fst (edit_file_outcome platform n d) = rewrite_file platform n d.
Proof.
  unfold edit_file_outcome, rewrite_file.
  destruct (endswith n ".repo"); [|now left].
  destruct (utf8_valid d) eqn:V; [|now left].
  rewrite rewrite_text_valid by auto. now right.
Qed.

Lemma edit_files_of_file n d es :
  lookup n es = Some (File d) ->
  lookup n (fst (edit_files_of platform es)) = Some (File d)
  \/ lookup n (fst (edit_files_of platform es)) = Some (rewrite_file platform n d).
Proof.
  induction es as [|[k y] es IH]; cbn [lookup edit_files_of]; [discriminate|].
  destruct (String.eqb_spec k n) as [->|Hk].
  - intros [= ->]. pose proof (edit_file_outcome_cases n d) as C.
    destruct (edit_file_outcome platform n d) as [x [e|u]];
      [|destruct (edit_files_of platform es)]; cbn [fst lookup] in *;
      rewrite String.eqb_refl; destruct C as [->| ->]; auto.
  - intros H. apply String.eqb_neq in Hk.
    destruct y as [d0|t0|sub].
    + destruct (edit_file_outcome platform k d0) as [x [e|u]].
      * cbn [fst lookup]. rewrite Hk. now left.
      * destruct (edit_files_of platform es). cbn [fst lookup] in *. rewrite Hk. auto.
    + destruct (edit_files_of platform es). cbn [fst lookup] in *. rewrite Hk. auto.
    + destruct (edit_files_of platform es). cbn [fst lookup] in *. rewrite Hk. auto.
Qed.

Lemma edit_files_of_dir n sub es :
  lookup n es = Some (Dir sub) ->
  lookup n (fst (edit_files_of platform es)) = Some (Dir sub).
Proof.
  induction es as [|[k y] es IH]; cbn [lookup edit_files_of]; [discriminate|].
  destruct (String.eqb_spec k n) as [->|Hk].
  - intros [= ->]. destruct (edit_files_of platform es). cbn [fst lookup].
    now rewrite String.eqb_refl.
  - intros H. apply String.eqb_neq in Hk.
    destruct y as [d0|t0|sub0].
    + destruct (edit_file_outcome platform k d0) as [x [e|u]].
      * cbn [fst lookup]. now rewrite Hk.
      * destruct (edit_files_of platform es). cbn [fst lookup] in *. rewrite Hk. auto.
    + destruct (edit_files_of platform es). cbn [fst lookup] in *. rewrite Hk. auto.
    + destruct (edit_files_of platform es). cbn [fst lookup] in *. rewrite Hk. auto.
Qed.

Lemma lookup_rw_file n es :
  lookup n (map (rw_file platform) es)
  = option_map (fun y => snd (rw_file platform (n, y))) (lookup n es).
Proof.
  induction es as [|[k y] es IH]; cbn [map lookup rw_file fst snd]; [reflexivity|].
  destruct (String.eqb_spec k n) as [->|_]; [reflexivity|exact IH].
Qed.

Lemma edit_subdirs_of_file n d es :
  lookup n es = Some (File d) ->
  lookup n (fst (edit_subdirs_of platform es)) = Some (rewrite_file platform n d).
Proof.
  induction es as [|[k y] es IH]; cbn [lookup edit_subdirs_of]; [discriminate|].
  destruct (String.eqb_spec k n) as [->|Hk].
  - intros [= ->]. destruct (edit_subdirs_of platform es).
    cbn [fst lookup rw_file snd]. now rewrite String.eqb_refl.
  - intros H. apply String.eqb_neq in Hk.
    destruct y as [d0|t0|sub0].
    + destruct (edit_subdirs_of platform es). cbn [fst lookup rw_file snd] in *.
      rewrite Hk. auto.
    + destruct (edit_subdirs_of platform es). cbn [fst lookup rw_file snd] in *.
      rewrite Hk. auto.
    + destruct (edit_tree platform (Dir sub0)) as [y' [e|u]].
      * cbn [fst lookup]. rewrite Hk, lookup_rw_file, H. reflexivity.
      * destruct (edit_subdirs_of platform es). cbn [fst lookup] in *. rewrite Hk. auto.
Qed.

Lemma edit_subdirs_of_dir n sub es :
  lookup n es = Some (Dir sub) ->
  lookup n (fst (edit_subdirs_of platform es)) = Some (Dir sub)
  \/ lookup n (fst (edit_subdirs_of platform es))
     = Some (fst (edit_tree platform (Dir sub))).
Proof.
  induction es as [|[k y] es IH]; cbn [lookup edit_subdirs_of]; [discriminate|].
  destruct (String.eqb_spec k n) as [->|Hk].
  - intros [= ->]. right.
    destruct (edit_tree platform (Dir sub)) as [y' [e|u]];
      [|destruct (edit_subdirs_of platform es)]; cbn [fst lookup];
      now rewrite String.eqb_refl.
  - intros H. apply String.eqb_neq in Hk.
    destruct y as [d0|t0|sub0].
    + destruct (edit_subdirs_of platform es). cbn [fst lookup rw_file snd] in *.
      rewrite Hk. auto.
    + destruct (edit_subdirs_of platform es). cbn [fst lookup rw_file snd] in *.
      rewrite Hk. auto.
    + destruct (edit_tree platform (Dir sub0)) as [y' [e|u]].
      * cbn [fst lookup]. rewrite Hk, lookup_rw_file, H. now left.
      * destruct (edit_subdirs_of platform es). cbn [fst lookup] in *. rewrite Hk. auto.
Qed.

(** however the walk ends, a regular file is as it was or rewritten *)
Lemma edit_tree_entry t : forall p n d,
  get t (p ++ [n]) = Some (File d) ->
  get (fst (edit_tree platform t)) (p ++ [n]) = Some (File d)
  \/ get (fst (edit_tree platform t)) (p ++ [n]) = Some (rewrite_file platform n d).
Proof.
  induction t as [d0|t0|es IH] using node_ind'; intros p n d G.
  - destruct p; discriminate.
  - destruct p; discriminate.
  - rewrite edit_tree_Dir. destruct p as [|m p]; cbn [app get] in G.
    + destruct (lookup n es) as [y|] eqn:Ln; [|discriminate]. injection G as ->.
      destruct (edit_files_of platform es) as [es1 [e|u]] eqn:F; cbn [fst app get].
      * pose proof (edit_files_of_file n d es Ln) as C. rewrite F in C. cbn [fst] in C.
        destruct C as [-> | ->]; auto.
      * rewrite (edit_subdirs_of_file n d es Ln). now right.
    + destruct (lookup m es) as [y|] eqn:Lm; [|discriminate].
      assert (Hy : exists sub, y = Dir sub).
      { destruct y as [| |sub]; [| |now exists sub]; destruct p; discriminate. }
      destruct Hy as [sub ->].
      destruct (edit_files_of platform es) as [es1 [e|u]] eqn:F; cbn [fst app get].
      * pose proof (edit_files_of_dir m sub es Lm) as C. rewrite F in C. cbn [fst] in C.
        rewrite C. now left.
      * destruct (edit_subdirs_of_dir m sub es Lm) as [-> | ->]; [now left|].
        rewrite Forall_forall in IH.
        apply (IH (m, Dir sub) (lookup_In _ _ _ Lm) p n d G).
Qed.

End Partly.

(** C4 (rewrite correctness), as the script has it.  The files are read and
    written as text.  Let the copied repository directory be a well-formed
    tree without links, as [copytree] leaves it, reached through real
    directories, and let the platform be a word that can be encoded.

    If every regular file whose name ends in [.repo] is valid UTF-8 the
    rewrite ends normally and leaves in the place of the directory the tree
    in which each of these files holds its old text, the line ends [CR LF]
    and [CR] read as [LF], with every [$basearch] replaced by the platform;
    every other regular file has its contents unchanged and every directory
    has the same names.  The replacement cuts the text at the occurrences
    of [$basearch] into pieces that hold no occurrence, and joins the same
    pieces with the platform.

    If one of these files is not valid UTF-8 the rewrite raises
    [UnicodeDecodeError]; each regular file is then rewritten as above or
    left as it was.  Nothing beside the directory changes in either case. *)
Theorem rewrite_correctness :
  forall (h : host) (platform yumrepodir : string) (st : state) (L : loc) (t : node),
    isabs yumrepodir = true -> components yumrepodir = L -> Forall plain L ->
    get (fs st) L = Some t -> wf t = true -> link_free t = true ->
    utf8_valid platform = true ->
    exists t' : node,
      let st' := with_fs st (put L t' (fs st)) in
      edit_repos h platform yumrepodir st
      = (if texts_ok t then inr tt else inl UnicodeDecodeError, st')
      /\ get (fs st') L = Some t'
      /\ (forall q, ~ prefix_of L q -> ~ prefix_of q L ->
                    get (fs st') q = get (fs st) q)
      /\ (forall p n d,
            get t (p ++ [n]) = Some (File d) ->
            get (fs st') (L ++ p ++ [n])
            = Some (File (if endswith n ".repo"
                          then replace "$basearch" platform (universal_newlines d)
                          else d))
            \/ (texts_ok t = false
                /\ get (fs st') (L ++ p ++ [n]) = Some (File d)))
      /\ (texts_ok t = true ->
          t' = rewrite_tree platform t
          /\ forall p es,
               get t p = Some (Dir es) ->
               exists es', get (fs st') (L ++ p) = Some (Dir es')
                           /\ map fst es' = map fst es)
      /\ (forall d,
            let text := universal_newlines d in
            let pieces := split_from "$basearch" 0 text in
            text = String.concat "$basearch" pieces
            /\ replace "$basearch" platform text = String.concat platform pieces
            /\ Forall (fun piece => contains "$basearch" piece = false) pieces).
Proof.
  intros h platform yumrepodir st L t Ha Hc Hp G Hwf Hlf Hpl.
  exists (fst (edit_tree platform t)). cbv zeta.
  assert (Hroot : get (put L (fst (edit_tree platform t)) (fs st)) L
                  = Some (fst (edit_tree platform t))).
  { apply get_put_same. eapply get_removelast_dir; eauto. }
  assert (Hres : snd (edit_tree platform t)
                 = if texts_ok t then inr tt else inl UnicodeDecodeError).
  { destruct (texts_ok t) eqn:T.
    - now rewrite (edit_tree_valid platform t Hpl T).
    - now apply edit_tree_invalid. }
  split.
  { rewrite (edit_repos_spec h platform yumrepodir Ha st L t Hc Hp G Hwf Hlf).
    now rewrite Hres. }
  cbn [fs with_fs].
  split; [exact Hroot|]. split; [|split; [|split]].
  - intros q H1 H2. now apply get_put_frame.
  - intros p n d Gp. rewrite get_app, Hroot.
    destruct (texts_ok t) eqn:T.
    + left. rewrite (edit_tree_valid platform t Hpl T). cbn [fst].
      rewrite get_rewrite_tree, Gp. reflexivity.
    + destruct (edit_tree_entry platform Hpl t p n d Gp) as [E|E]; rewrite E; auto.
  - intros T. rewrite (edit_tree_valid platform t Hpl T). cbn [fst]. split; [reflexivity|].
    intros p es Gp. rewrite get_app.
    rewrite (edit_tree_valid platform t Hpl T) in Hroot. cbn [fst] in Hroot.
    rewrite Hroot. now apply get_rewrite_tree_dir.
  - intros d. split; [|split].
    + symmetry. apply (concat_split_from "$basearch" (universal_newlines d)); discriminate.
    + apply replace_from_split.
    + apply split_from_pieces. discriminate.
Qed.

Lemma rewrite_correctness_witness :
  exists st',
    edit_repos sample_host "x86_64" (yumrepodir sample_host "x86_64") sample_configured
    = (inr tt, st')
    /\ get (fs st') ["home"; "u"; "yum-x86_64"; "yum.repos.d"; "sub"; "x.repo"]
       = Some (File "x86_64x86_64")
    /\ get (fs st') ["home"; "u"; "yum-x86_64"; "yum.repos.d"; "README"]
       = Some (File "$basearch").
Proof.
  assert (G : get (fs sample_configured) ["home"; "u"; "yum-x86_64"; "yum.repos.d"]
              = Some (Dir [("fedora.repo",
                            File ("[fedora]" ++ nl ++ "baseurl=http://mirror/$basearch/os"
                                  ++ nl ++ "arch=$basearch" ++ nl)%string);
                           ("README", File "$basearch");
                           ("extra.repo", File "metalink=http://m/$basearch");
                           ("sub", Dir [("x.repo", File "$basearch$basearch")])]))
    by (vm_compute; reflexivity).
  assert (Hp : Forall plain ["home"; "u"; "yum-x86_64"; "yum.repos.d"])
    by (repeat constructor; discriminate).
  destruct (rewrite_correctness sample_host "x86_64" (yumrepodir sample_host "x86_64")
              sample_configured _ _ eq_refl eq_refl Hp G eq_refl eq_refl eq_refl)
    as [t' [Hrun [_ [_ [Hfile _]]]]].
  eexists. split; [exact Hrun|]. split.
  - destruct (Hfile ["sub"] "x.repo" "$basearch$basearch"%string eq_refl) as [H|[H _]];
      [exact H|discriminate H].
  - destruct (Hfile [] "README" "$basearch"%string eq_refl) as [H|[H _]];
      [exact H|discriminate H].
Defined.

(** C4 as it was stated does not hold of the script.  A repository
    definition with the line ends of Windows is rewritten with line feeds
    alone: something other than [$basearch] has changed.  And with a
    definition that is not valid UTF-8 the rewrite raises, leaving that file
    and the one after it with their [$basearch]. *)
Lemma rewrite_is_not_verbatim :
  (exists st',
     edit_repos sample_host "x86_64" "/repos" (text_state crlf_repo) = (inr tt, st')
     /\ get (fs st') ["repos"; "a.repo"]
        = Some (File ("[a]" ++ nl ++ "baseurl=http://m/x86_64/os" ++ nl)%string)
     /\ get (fs st') ["repos"; "a.repo"]
        <> Some (File (replace "$basearch" "x86_64" crlf_repo)))
  /\ (exists st',
        edit_repos sample_host "x86_64" "/repos" (text_state latin1_repo)
        = (inl UnicodeDecodeError, st')
        /\ get (fs st') ["repos"; "a.repo"] = Some (File latin1_repo)
        /\ get (fs st') ["repos"; "b.repo"] = Some (File "$basearch")).
Proof.
  split; eexists; (split; [vm_compute; reflexivity|]).
  - split; [vm_compute; reflexivity|]. vm_compute. discriminate.
  - split; vm_compute; reflexivity.
Qed.

(** C5 (scratch directory reset).  On a host whose home directory is a real
    directory given by an absolute path, when the scratch directory is there
    from a prior run, the making of the repository context gives exactly
    what it gives with the scratch directory removed first: same result,
    same final state.  When it ends normally the scratch directory holds
    [RPMs], empty, [yum.repos.d] and [dnf.conf], and nothing under any
    other name. *)
Theorem scratch_directory_reset :
  forall (h : host) (platform : string) (st : state) (stale : list (string * node)),
    sane_host h platform (fs st) ->
    get (fs st) (scratch_loc h platform) = Some (Dir stale) ->
    let run := build_repo h platform (yumdir h platform) (yumcfgfile h platform)
                          (yumrepodir h platform) (yumrpmdir h platform) in
    run st = run (with_fs st (del (scratch_loc h platform) (fs st)))
    /\ forall st',
         run st = (inr tt, st') ->
         exists t text,
           get (fs st') (scratch_loc h platform) = Some (scratch_dir t text)
           /\ get (fs st') (scratch_loc h platform ++ ["RPMs"]) = Some (Dir [])
           /\ forall n rest,
                n <> "RPMs"%string -> n <> "yum.repos.d"%string ->
                n <> "dnf.conf"%string ->
                get (fs st') (scratch_loc h platform ++ n :: rest) = None.
Proof.
  intros h platform st stale [Habs [Hplat [Hwf [hes Hh]]]] Hstale run.
  split.
  - unfold run, build_repo, bind.
    now rewrite (make_scratch_ignores_stale h platform Habs Hplat (fs st) Hwf hes Hh st stale).
  - intros st' Hrun.
    pose proof (build_repo_spec h platform Habs Hplat (fs st) Hwf hes Hh st eq_refl) as B.
    unfold run in Hrun. rewrite Hrun in B.
    destruct B as [t [d [cfg [cfg' [_ [_ [_ [_ Hfs]]]]]]]].
    destruct (base_home h platform (fs st) hes Hh) as [hes' Hbh].
    assert (Hpar : scratch_loc h platform = []
                   \/ exists es, get (del (scratch_loc h platform) (fs st))
                                     (removelast (scratch_loc h platform))
                                 = Some (Dir es)).
    { right. exists hes'. unfold scratch_loc. now rewrite removelast_last. }
    exists (rewrite_tree platform t), (ConfigParser.write cfg'). rewrite Hfs.
    split; [now apply get_put_same|]. split.
    + now rewrite get_put_under.
    + intros n rest H1 H2 H3. rewrite get_put_under by exact Hpar.
      cbn [scratch_dir get lookup].
      destruct (String.eqb_spec "RPMs" n); [congruence|].
      destruct (String.eqb_spec "yum.repos.d" n); [congruence|].
      destruct (String.eqb_spec "dnf.conf" n); [congruence|]. reflexivity.
Qed.

Lemma scratch_directory_reset_witness :
  get (fs sample_stale) (scratch_loc sample_host "x86_64" ++ ["stale"])
  = Some (File "placed by hand")
  /\ get (fs (snd (build_repo sample_host "x86_64" (yumdir sample_host "x86_64")
                     (yumcfgfile sample_host "x86_64") (yumrepodir sample_host "x86_64")
                     (yumrpmdir sample_host "x86_64") sample_stale)))
         (scratch_loc sample_host "x86_64" ++ ["stale"]) = None.
Proof.
  split; [vm_compute; reflexivity|].
  assert (Hsane : sane_host sample_host "x86_64" (fs sample_stale)).
  { split; [reflexivity|]. split; [reflexivity|].
    split; [vm_compute; reflexivity|]. eexists. vm_compute. reflexivity. }
  edestruct (scratch_directory_reset sample_host "x86_64" sample_stale) as [_ Hgone].
  - exact Hsane.
  - vm_compute. reflexivity.
  - destruct (Hgone (snd (build_repo sample_host "x86_64" (yumdir sample_host "x86_64")
                     (yumcfgfile sample_host "x86_64") (yumrepodir sample_host "x86_64")
                     (yumrpmdir sample_host "x86_64") sample_stale)))
      as [t [text [_ [_ Hn]]]].
    + vm_compute. reflexivity.
    + apply Hn; discriminate.
Defined.

(** ** The name the walk searches for *)

Lemma populate_suffix h st st' :
  populate_platform_suffix h st = (inr tt, st') ->
  PLATFORM_SUFFIX st'
  = Some (strip_through "-" (basename (dirname (native_probe h st)))).
Proof.
  intros Hrun.
  unfold populate_platform_suffix, get_libgcc_path, subprocess_run in Hrun.
  unfold bind, ret in Hrun.
  unfold native_probe, basename, dirname.
  change (probe_cmdline rtlib_default None (PLATFORM_SUFFIX st))
    with ["clang"; "--rtlib=compiler-rt"; "--print-libgcc-file-name"] in Hrun.
  destruct (exec h _ None (fs st)) as [[root rc] out].
  destruct (true && negb (Z.eqb rc 0)); [discriminate|].
  destruct (nth_error _ 1) as [x|] eqn:N; [|discriminate].
  apply split_dash_second in N. subst x.
  unfold printr, emit in Hrun. injection Hrun as <-. reflexivity.
Qed.

(** C1 (triple correctness).  When [populate_platform_suffix] ends normally,
    the suffix it stores is the parent directory name of the path the native
    probe returned ([clang --rtlib=compiler-rt --print-libgcc-file-name], no
    target) with everything up to and including the first [-] dropped.  In
    the loop body run for a platform with this suffix stored:

    - whenever the stages before the search (probe, repository context,
      download, extraction) end normally, leaving the state [st5], what is
      left of the run is the search of the extraction tree for the name
      [platform-suffix], then the install of what it returns;
    - that search returns the first pair, in the order of the walk, of a
      walked directory and one of its sub-directory names equal to
      [platform-suffix];
    - so a run that ends normally was cut short by the probe, or has
      installed the first directory of the walk of that very name. *)
Theorem triple_correctness :
  forall (h : host) (st0 st : state) (platform : string),
    populate_platform_suffix h st0 = (inr tt, st) ->
    let suffix := strip_through "-" (basename (dirname (native_probe h st0))) in
    let triplet := (platform ++ "-" ++ suffix)%string in
    let xdir := extractdir h platform in
    let first_named (root : node) :=
      List.find (fun p => String.eqb (snd p) triplet)
                (walk_pairs (walk root (getcwd h) xdir)) in
    PLATFORM_SUFFIX st = Some suffix
    /\ (forall (st1 st2 st3 st4 st5 : state) (path : string) (rpm : option string),
          PLATFORM_SUFFIX st1 = Some suffix ->
          get_libgcc_path h rtlib_default (Some platform) st1 = (inr path, st2) ->
          path_exists (fs st2) (getcwd h) path = false ->
          build_repo h platform (yumdir h platform) (yumcfgfile h platform)
                     (yumrepodir h platform) (yumrpmdir h platform)
                     (with_event st2 (EvPrint ("installing compiler-rt for "
                                               ++ platform ++ " ...")))
          = (inr tt, st3) ->
          fetch h platform (yumcfgfile h platform) (yumrpmdir h platform) st3
          = (inr rpm, st4) ->
          extract h rpm xdir st4 = (inr tt, st5) ->
          install_platform h platform st1
          = bind (locate_libgcc_dir h triplet xdir) (fun d => install h d xdir) st5)
    /\ (forall st5 : state,
          locate_libgcc_dir h triplet xdir st5
          = (inr (option_map (fun p => join3 xdir (fst p) (snd p))
                             (first_named (fs st5))), st5))
    /\ (forall (st1 st' : state),
          PLATFORM_SUFFIX st1 = Some suffix ->
          install_platform h platform st1 = (inr tt, st') ->
          (exists st2 path,
             get_libgcc_path h rtlib_default (Some platform) st1 = (inr path, st2)
             /\ path_exists (fs st2) (getcwd h) path = true)
          \/ (exists st5 dirname,
                first_named (fs st5) = Some (dirname, triplet)
                /\ install h (Some (join3 xdir dirname triplet)) xdir st5
                   = (inr tt, st'))).
Proof.
  intros h st0 st platform Hrun suffix triplet xdir first_named.
  assert (Hsearch : forall st5 : state,
            locate_libgcc_dir h triplet xdir st5
            = (inr (option_map (fun p => join3 xdir (fst p) (snd p))
                               (first_named (fs st5))), st5)).
  { intros st5. unfold locate_libgcc_dir, bind, ask, ret.
    now rewrite find_libgcc_dir_first. }
  assert (Htriplet : forall st1, PLATFORM_SUFFIX st1 = Some suffix ->
                                 platform_triplet platform st1 = triplet).
  { intros st1 H1. unfold platform_triplet. now rewrite H1. }
  split; [now apply populate_suffix|]. split; [|split; [exact Hsearch|]].
  - intros st1 st2 st3 st4 st5 path rpm Hs Hprobe Hex Hbuild Hfetch Hextract.
    unfold install_platform. rewrite (Htriplet st1 Hs).
    rewrite (bind_ok _ _ st1 _ _ Hprobe).
    unfold bind at 1. unfold ask. rewrite Hex.
    unfold bind at 1. unfold printr at 1. unfold emit.
    rewrite (bind_ok _ _ _ _ _ Hbuild).
    rewrite (bind_ok _ _ _ _ _ Hfetch).
    rewrite (bind_ok _ _ _ _ _ Hextract). reflexivity.
  - intros st1 st' Hs Hbody. unfold install_platform in Hbody.
    rewrite (Htriplet st1 Hs) in Hbody.
    apply bind_inv in Hbody as [path [st2 [Hprobe Hbody]]].
    apply bind_inv in Hbody as [there [st2' [Hask Hbody]]].
    unfold ask in Hask. injection Hask as <- <-.
    destruct (path_exists (fs st2) (getcwd h) path) eqn:Hex.
    { left. now exists st2, path. }
    right.
    apply bind_inv in Hbody as [[] [st2' [_ Hbody]]].
    apply bind_inv in Hbody as [[] [st3 [_ Hbody]]].
    apply bind_inv in Hbody as [rpm [st4 [_ Hbody]]].
    apply bind_inv in Hbody as [[] [st5 [_ Hbody]]].
    apply bind_inv in Hbody as [found [st5' [Hloc Hinst]]].
    rewrite Hsearch in Hloc. injection Hloc as <- <-.
    destruct (first_named (fs st5)) as [[dirname n]|] eqn:F;
      [|cbn in Hinst; discriminate].
    pose proof F as F'. unfold first_named in F'.
    apply find_some in F' as [_ Hn]. cbn [snd] in Hn. apply String.eqb_eq in Hn.
    subst n. exists st5, dirname. split; [exact F|exact Hinst].
Qed.

Lemma triple_correctness_witness :
  PLATFORM_SUFFIX (snd (populate_platform_suffix sample_host sample_state))
  = Some "redhat-linux-gnu"
  /\ locate_libgcc_dir sample_host "x86_64-redhat-linux-gnu"
                       (extractdir sample_host "x86_64") sample_extracted
     = (inr (Some sample_located), sample_extracted).
Proof.
  destruct (triple_correctness sample_host sample_state
              (snd (populate_platform_suffix sample_host sample_state)) "x86_64")
    as [H1 [_ [H3 _]]].
  - vm_compute. reflexivity.
  - split; [exact H1|].
    pose proof (H3 sample_extracted) as H. vm_compute in H. vm_compute. exact H.
Defined.

(* ===================================================================== *)
(** * More of the script: the checks, the native tools, the edges *)
(* ===================================================================== *)

(** ** The gates of [main] *)

Lemma all_which_false mi exes exe st :
  In exe exes -> which mi exe (fs st) = None ->
  all_which mi exes st = (inr false, st).
Proof.
  intros Hin Hw. unfold all_which, ask. f_equal. f_equal.
  apply not_true_is_false. intros H. rewrite forallb_forall in H.
  specialize (H exe Hin). now rewrite Hw in H.
Qed.

Lemma all_which_true mi exes st :
  (forall exe, In exe exes -> exists p, which mi exe (fs st) = Some p /\ p <> ""%string) ->
  all_which mi exes st = (inr true, st).
Proof.
  intros H. unfold all_which, ask. f_equal. f_equal.
  apply forallb_forall. intros exe Hin. destruct (H exe Hin) as [p [-> Hp]].
  destruct p; [congruence|reflexivity].
Qed.

(** X1.  On anything but Linux on aarch64 the script says so and exits
    with status 1: no tool is looked for, no command is run, no file is
    touched. *)
Theorem unsupported_machine_exits :
  forall (mi : machine_info) (h : host) (st : state),
    system mi <> "Linux"%string \/ machine mi <> "aarch64"%string ->
    script mi h st
    = (1%Z, with_event st (EvPrint "Only Linux on aarch64 is supported.")).
Proof.
  intros mi h st H. unfold script, main, detect_machine_type.
  assert (E : String.eqb (system mi) "Linux" && String.eqb (machine mi) "aarch64" = false).
  { destruct H as [H|H]; apply String.eqb_neq in H; rewrite H;
      [reflexivity|apply andb_false_r]. }
  rewrite E. reflexivity.
Qed.

Lemma unsupported_machine_exits_witness :
  fst (script mac_machine native_host native_state) = 1%Z.
Proof.
  rewrite (unsupported_machine_exits mac_machine native_host native_state);
    [reflexivity|left; discriminate].
Defined.

(** X2.  On Linux on aarch64, when one of [rpm], [dnf] and [yum] is not
    found, the script names the three and exits with status 1, having run
    no command and touched no file. *)
Theorem missing_package_manager_exits :
  forall (mi : machine_info) (h : host) (st : state) (exe : string),
    system mi = "Linux"%string -> machine mi = "aarch64"%string ->
    In exe ["rpm"; "dnf"; "yum"]%string ->
    which mi exe (fs st) = None ->
    script mi h st
    = (1%Z, with_event st (EvPrint
         "These programs needs to be present in the system: rpm, dnf, yum")).
Proof.
  intros mi h st exe Hs Hm Hin Hw. unfold script, main, detect_machine_type.
  rewrite Hs, Hm. cbn [String.eqb Ascii.eqb Bool.eqb andb].
  unfold pbind at 1. unfold pret.
  unfold pbind at 1. unfold detect_rpm_distro. unfold pbind at 1.
  unfold lift at 1. rewrite (all_which_false mi pkg_mgr_exes exe st Hin Hw).
  reflexivity.
Qed.

Lemma missing_package_manager_exits_witness :
  fst (script no_yum_machine native_host native_state) = 1%Z.
Proof.
  rewrite (missing_package_manager_exits no_yum_machine native_host native_state "yum");
    [reflexivity|reflexivity|reflexivity|cbn [In]; auto|reflexivity].
Defined.

(** ** The plugins of [dnf] *)

(** X3.  [detect_dnf_plugins] runs [dnf download --help]; a non-zero exit
    code of it is caught and never ends the step.  The plugins are
    installed exactly when that code is not 0, and then the step ends
    normally exactly when the install exits with 0: otherwise it raises
    [CalledProcessError] with the code of the install. *)
Theorem dnf_plugins_probe_failure_is_caught :
  forall (h : host) (st : state),
    let r1 := exec h dnf_help_cmd None (fs st) in
    let st1 := with_event (with_fs st (fst (fst r1)))
                 (EvRun dnf_help_cmd None (snd (fst r1))) in
    let r2 := exec h dnf_plugins_cmd None (fst (fst r1)) in
    let st2 := with_event
                 (with_fs (with_event st1 (EvPrint "Installing DNF core plugins ..."))
                          (fst (fst r2)))
                 (EvRun dnf_plugins_cmd None (snd (fst r2))) in
    detect_dnf_plugins h st
    = if Z.eqb (snd (fst r1)) 0 then (inr tt, st1)
      else if Z.eqb (snd (fst r2)) 0 then (inr tt, st2)
      else (inl (CalledProcessError (snd (fst r2)) dnf_plugins_cmd), st2).
Proof.
  intros h st r1 st1 r2 st2. subst r1 st1 r2 st2.
  unfold detect_dnf_plugins, dnf_plugins_installed, try_except, bind, subprocess_run,
    printr, emit, ret, dnf_help_cmd, dnf_plugins_cmd.
  destruct (exec h ["dnf"; "download"; "--help"]%string None (fs st)) as [[root1 rc1] out1].
  cbn [fst snd andb fs with_fs with_event].
  destruct (Z.eqb rc1 0); cbn [negb is_CalledProcessError fs with_fs with_event].
  - reflexivity.
  - destruct (exec h _ None root1) as [[root2 rc2] out2].
    cbn [fst snd]. destruct (Z.eqb rc2 0); reflexivity.
Qed.

(** ** The native tools *)

Lemma check_and_install_ok mi h exes title dnf_cmd_arg st :
  exists evs st',
    check_and_install mi h exes title dnf_cmd_arg st = (inr tt, st')
    /\ trace st' = trace st ++ evs
    /\ Forall print_or_dnf_y evs
    /\ PLATFORM_SUFFIX st' = PLATFORM_SUFFIX st.
Proof.
  unfold check_and_install, bind, all_which, ask, printr, emit, subprocess_run, ret.
  destruct (forallb _ exes).
  - eexists [_], _. repeat split. repeat constructor.
  - cbn [fs with_event with_fs andb].
    destruct (exec h _ None (fs st)) as [[root rc] out].
    eexists [_; _], _. split; [reflexivity|]. cbn [trace with_event with_fs].
    rewrite <- app_assoc. repeat split. repeat constructor.
Qed.

Lemma check_and_install_found mi h exes title dnf_cmd_arg st :
  (forall exe, In exe exes -> exists p, which mi exe (fs st) = Some p /\ p <> ""%string) ->
  check_and_install mi h exes title dnf_cmd_arg st
  = (inr tt, with_event st (EvPrint (title ++ " already installed."))).
Proof.
  intros H. unfold check_and_install. rewrite (bind_ok _ _ st true st); [reflexivity|].
  now apply all_which_true.
Qed.

(** X4.  [install_native_dev_tools] does not look at the exit codes of
    [dnf].  [subprocess.run] raises when the program cannot be started; the
    script comes to this step only after [detect_rpm_distro] has found
    [dnf], and the statement is for a machine on which [dnf] stays where
    [shutil.which] finds it.  There [dnf] is started and, being run without
    [check=True], cannot make the step raise: whatever its exit codes the
    step ends normally, having printed messages and run [dnf -y ...]
    commands only, and [PLATFORM_SUFFIX] is as before. *)
Theorem install_native_dev_tools_ignores_exit_codes :
  forall (mi : machine_info) (h : host) (st : state),
    (forall root, exists p, which mi "dnf" root = Some p /\ p <> ""%string) ->
    exists (evs : list event) (st' : state),
      install_native_dev_tools mi h st = (inr tt, st')
      /\ trace st' = trace st ++ evs
      /\ Forall print_or_dnf_y evs
      /\ PLATFORM_SUFFIX st' = PLATFORM_SUFFIX st.
Proof.
  intros mi h st _. unfold install_native_dev_tools.
  destruct (check_and_install_ok mi h ["gcc"; "make"]%string
              "Native Default Development Tools"
              ["groupinstall"; "Development Tools"]%string st)
    as [e1 [st1 [R1 [T1 [F1 S1]]]]].
  rewrite (bind_ok _ _ st tt st1 R1).
  destruct (check_and_install_ok mi h ["clang"; "lld"]%string
              "Native LLVM Development Tools"
              ["install"; "clang"; "lld"; "compiler-rt"]%string st1)
    as [e2 [st2 [R2 [T2 [F2 S2]]]]].
  rewrite (bind_ok _ _ st1 tt st2 R2).
  destruct (check_and_install_ok mi h ["unzip"; "cpio"]%string "archiving tools"
              ["install"; "unzip"; "cpio"]%string st2)
    as [e3 [st3 [R3 [T3 [F3 S3]]]]].
  exists (e1 ++ e2 ++ e3), st3. split; [exact R3|]. split; [|split].
  - rewrite T3, T2, T1. now rewrite <- !app_assoc.
  - apply Forall_app. split; [exact F1|]. apply Forall_app. now split.
  - congruence.
Qed.

Lemma install_native_dev_tools_ignores_exit_codes_witness :
  (exists (evs : list event) (st' : state),
     install_native_dev_tools bare_machine sample_host sample_state = (inr tt, st')
     /\ trace st' = trace sample_state ++ evs
     /\ Forall print_or_dnf_y evs
     /\ PLATFORM_SUFFIX st' = PLATFORM_SUFFIX sample_state)
  /\ trace (snd (install_native_dev_tools bare_machine sample_host sample_state))
     = [EvPrint "Installing Native Default Development Tools ...";
        EvRun ["dnf"; "-y"; "groupinstall"; "Development Tools"] None 127;
        EvPrint "Installing Native LLVM Development Tools ...";
        EvRun ["dnf"; "-y"; "install"; "clang"; "lld"; "compiler-rt"] None 127;
        EvPrint "Installing archiving tools ...";
        EvRun ["dnf"; "-y"; "install"; "unzip"; "cpio"] None 127]%string.
Proof.
  split; [|vm_compute; reflexivity].
  apply (install_native_dev_tools_ignores_exit_codes bare_machine sample_host sample_state).
  intros root. exists "/usr/bin/dnf"%string. split; [reflexivity|discriminate].
Defined.

Lemma native_tools_idle mi h st :
  (forall exe, In exe ["gcc"; "make"; "clang"; "lld"; "unzip"; "cpio"]%string ->
               exists p, which mi exe (fs st) = Some p /\ p <> ""%string) ->
  install_native_dev_tools mi h st
  = (inr tt,
     with_event
       (with_event
          (with_event st (EvPrint "Native Default Development Tools already installed."))
          (EvPrint "Native LLVM Development Tools already installed."))
       (EvPrint "archiving tools already installed.")).
Proof.
  intros H. unfold install_native_dev_tools.
  rewrite (bind_ok _ _ st tt
             (with_event st (EvPrint "Native Default Development Tools already installed."))).
  2:{ apply check_and_install_found. intros exe Hin. apply H. cbn [In] in *. tauto. }
  rewrite (bind_ok _ _ _ tt
             (with_event
                (with_event st
                   (EvPrint "Native Default Development Tools already installed."))
                (EvPrint "Native LLVM Development Tools already installed."))).
  2:{ apply check_and_install_found. intros exe Hin. apply H. cbn [In] in *. tauto. }
  apply check_and_install_found.
  intros exe Hin. apply H. cbn [In] in *. tauto.
Qed.

(** X5.  When [gcc], [make], [clang], [lld], [unzip] and [cpio] are all
    found, [install_native_dev_tools] runs no command and touches no file:
    it prints its three messages and ends. *)
Theorem native_tools_present_nothing_installed :
  forall (mi : machine_info) (h : host) (st : state),
    (forall exe, In exe ["gcc"; "make"; "clang"; "lld"; "unzip"; "cpio"]%string ->
                 exists p, which mi exe (fs st) = Some p /\ p <> ""%string) ->
    install_native_dev_tools mi h st
    = (inr tt,
       with_event
         (with_event
            (with_event st (EvPrint "Native Default Development Tools already installed."))
            (EvPrint "Native LLVM Development Tools already installed."))
         (EvPrint "archiving tools already installed.")).
Proof. intros mi h st H. now apply native_tools_idle. Qed.

Lemma native_tools_present_nothing_installed_witness :
  fs (snd (install_native_dev_tools native_machine native_host native_state))
  = native_root.
Proof.
  rewrite (native_tools_present_nothing_installed native_machine native_host native_state);
    [reflexivity|].
  intros exe _. eexists. split; [reflexivity|discriminate].
Defined.

(** ** The linker *)

(** X6.  [set_lld] changes the alternative of [ld] only after [ld
    -version] has exited with 0 with an output that does not start with
    [LLD] or does not hold [compatible with GNU linkers].  A non-zero exit
    code of [ld -version] or of [update-alternatives] is raised as
    [CalledProcessError]; when the output says LLD nothing but the message
    follows. *)
Theorem set_lld_outcomes :
  forall (h : host) (st : state),
    let r1 := exec h ld_version_cmd None (fs st) in
    let st1 := with_event (with_fs st (fst (fst r1)))
                 (EvRun ld_version_cmd None (snd (fst r1))) in
    let r2 := exec h set_ld_cmd None (fst (fst r1)) in
    let st2 := with_event
                 (with_fs (with_event st1 (EvPrint "Setting up lld as default ld ..."))
                          (fst (fst r2)))
                 (EvRun set_ld_cmd None (snd (fst r2))) in
    set_lld h st
    = if negb (Z.eqb (snd (fst r1)) 0)
      then (inl (CalledProcessError (snd (fst r1)) ld_version_cmd), st1)
      else if says_lld (snd r1)
      then (inr tt, with_event st1 (EvPrint "System ld is already lld."))
      else if Z.eqb (snd (fst r2)) 0 then (inr tt, st2)
      else (inl (CalledProcessError (snd (fst r2)) set_ld_cmd), st2).
Proof.
  intros h st r1 st1 r2 st2. subst r1 st1 r2 st2.
  unfold set_lld, is_ld_lld, bind, subprocess_run, printr, emit, ret, says_lld,
    ld_version_cmd, set_ld_cmd.
  destruct (exec h ["ld"; "-version"]%string None (fs st)) as [[root1 rc1] out1].
  cbn [fst snd andb fs with_fs with_event].
  destruct (Z.eqb rc1 0); cbn [negb]; [|reflexivity].
  destruct (startswith out1 "LLD" && contains "compatible with GNU linkers" out1);
    cbn [negb fs with_fs with_event]; [reflexivity|].
  destruct (exec h _ None root1) as [[root2 rc2] out2].
  cbn [fst snd]. destruct (Z.eqb rc2 0); reflexivity.
Qed.

(** ** Normal paths *)

Lemma is_name_inv c :
  is_name c = true -> c <> ""%string /\ c <> "."%string /\ c <> ".."%string
                      /\ no_slash c = true.
Proof.
  unfold is_name. intros H.
  apply andb_prop in H as [H H4]. apply andb_prop in H as [H H3].
  apply andb_prop in H as [H1 H2].
  apply negb_true_iff in H1, H2, H3. apply String.eqb_neq in H1, H2, H3. auto.
Qed.

Lemma last_names acc :
  Forall (fun c => is_name c = true) acc -> String.eqb (last acc "") ".." = false.
Proof.
  intros H. destruct acc as [|a acc]; [reflexivity|].
  assert (Hin : In (last (a :: acc) ""%string) (a :: acc)).
  { destruct (exists_last (l := a :: acc)) as [l' [z E]]; [discriminate|].
    rewrite E, last_last. apply in_or_app. right. now left. }
  rewrite Forall_forall in H. apply H, is_name_inv in Hin as [_ [_ [Hin _]]].
  now apply String.eqb_neq.
Qed.

Lemma Forall_removelast {A : Type} (Q : A -> Prop) l :
  Forall Q l -> Forall Q (removelast l).
Proof.
  induction 1 as [|x l Hx Hl IH]; [constructor|].
  cbn [removelast]. destruct l; [constructor|]. constructor; auto.
Qed.

(** below the root [normpath] keeps names only: no empty component, no
    [.], no [..] *)
Lemma norm_comps_names i : i <> 0 -> forall comps acc,
  Forall (fun c => is_name c = true) acc ->
  Forall (fun c => no_slash c = true) comps ->
  Forall (fun c => is_name c = true) (norm_comps i acc comps).
Proof.
  intros Hi. induction comps as [|c comps IH]; intros acc Ha Hc; [exact Ha|].
  inversion Hc as [|? ? Hc1 Hc2]; subst. cbn [norm_comps].
  destruct (String.eqb_spec c "") as [->|N0]; [now apply IH|].
  destruct (String.eqb_spec c ".") as [->|N1]; [now apply IH|]. cbn [orb].
  destruct (String.eqb_spec c "..") as [->|N2]; cbn [negb orb].
  - destruct (Nat.eqb_spec i 0) as [->|_]; [contradiction|]. cbn [andb orb].
    rewrite (last_names acc Ha), andb_false_r.
    apply IH; [now apply Forall_removelast|exact Hc2].
  - apply IH; [|exact Hc2]. apply Forall_app. split; [exact Ha|].
    constructor; [|constructor]. unfold is_name.
    apply String.eqb_neq in N0, N1, N2. now rewrite N0, N1, N2, Hc1.
Qed.

Lemma components_str_join cs :
  Forall (fun c => is_name c = true) cs -> components (str_join "/" cs) = cs.
Proof.
  induction 1 as [|c cs Hc Hcs IH]; [reflexivity|].
  apply is_name_inv in Hc as [H0 [_ [_ Hs]]].
  unfold str_join in *. cbn [String.concat]. destruct cs as [|c' cs].
  - now apply components_name.
  - change (c ++ "/" ++ String.concat "/" (c' :: cs))%string
      with (c ++ String "/" (String.concat "/" (c' :: cs)))%string.
    rewrite components_app_slash, IH. now rewrite (components_name c Hs H0).
Qed.

Lemma components_cons_slash s : components (String "/" s) = components s.
Proof. apply (components_app_slash "" s). Qed.

(** [normpath] of an absolute path: one or two slashes, then names joined
    by slashes *)
Lemma normpath_abs p :
  isabs p = true ->
  exists pre cs,
    normpath p = (pre ++ str_join "/" cs)%string
    /\ (pre = "/" \/ pre = "//")%string
    /\ Forall (fun c => is_name c = true) cs.
Proof.
  intros Ha. unfold normpath. unfold isabs in Ha.
  destruct (String.eqb_spec p "") as [->|_]; [discriminate|]. rewrite Ha.
  set (i := if startswith p "//" && negb (startswith p "///") then 2 else 1).
  assert (Hi : i <> 0) by (unfold i; destruct (_ && _); discriminate).
  pose proof (norm_comps_names i Hi (split_char "/" p) [] (Forall_nil _)
                (split_char_parts p)) as Hn.
  set (cs := norm_comps i [] (split_char "/" p)) in *.
  destruct i as [|[|k]]; [contradiction| |].
  - exists "/"%string, cs. cbn [String.eqb]. auto.
  - exists "//"%string, cs. cbn [String.eqb]. auto.
Qed.

Lemma isabs_abspath_arg cwd p :
  isabs cwd = true -> isabs (if isabs p then p else join cwd p) = true.
Proof.
  intros Hc. destruct (isabs p) eqn:E; [exact E|]. now apply isabs_join.
Qed.

Lemma abspath_normal cwd p :
  isabs cwd = true ->
  isabs (abspath cwd p) = true
  /\ Forall (fun c => is_name c = true) (components (abspath cwd p)).
Proof.
  intros Hc. unfold abspath.
  destruct (normpath_abs _ (isabs_abspath_arg cwd p Hc)) as [pre [cs [-> [Hpre Hcs]]]].
  destruct Hpre as [-> | ->]; (split; [reflexivity|]).
  - change ("/" ++ str_join "/" cs)%string with (String "/" (str_join "/" cs)).
    rewrite components_cons_slash, components_str_join; auto.
  - change ("//" ++ str_join "/" cs)%string
      with (String "/" (String "/" (str_join "/" cs))).
    rewrite !components_cons_slash, components_str_join; auto.
Qed.

(** X7.  Whatever [clang] prints, the path [get_libgcc_path] returns is
    normal (the working directory being given by an absolute path, as
    [os.getcwd()] gives it): it is [/], or [//] when what is normalised
    begins with exactly two slashes, which [os.path.normpath] keeps,
    followed by names joined by one [/] each.  None of the names is empty,
    [.] or [..], and none holds a [/]: after its first slashes the path has
    no doubled slash and no slash at its end. *)
Theorem get_libgcc_path_is_normal :
  forall (h : host) (rtlib platform : option string) (st st' : state) (p : string),
    isabs (getcwd h) = true ->
    get_libgcc_path h rtlib platform st = (inr p, st') ->
    exists (pre : string) (names : list string),
      p = (pre ++ str_join "/" names)%string
      /\ (pre = "/"%string \/ pre = "//"%string)
      /\ Forall (fun c => is_name c = true) names.
Proof.
  intros h rtlib platform st st' p Hc Hrun.
  unfold get_libgcc_path, bind, subprocess_run, ret in Hrun.
  destruct (exec h _ None (fs st)) as [[root rc] out].
  destruct (true && negb (Z.eqb rc 0)); [discriminate|].
  injection Hrun as <- _. unfold abspath.
  destruct (normpath_abs _ (isabs_abspath_arg (getcwd h) (strip out) Hc))
    as [pre [cs [E [Hpre Hcs]]]].
  now exists pre, cs.
Qed.

Lemma get_libgcc_path_is_normal_witness :
  get_libgcc_path odd_host None None native_state
  = (inr "/usr/lib/gcc/11/libgcc.a"%string,
     snd (get_libgcc_path odd_host None None native_state))
  /\ exists (pre : string) (names : list string),
       "/usr/lib/gcc/11/libgcc.a"%string = (pre ++ str_join "/" names)%string
       /\ (pre = "/"%string \/ pre = "//"%string)
       /\ Forall (fun c => is_name c = true) names.
Proof.
  assert (H : get_libgcc_path odd_host None None native_state
              = (inr "/usr/lib/gcc/11/libgcc.a"%string,
                 snd (get_libgcc_path odd_host None None native_state)))
    by (vm_compute; reflexivity).
  split; [exact H|].
  exact (get_libgcc_path_is_normal odd_host None None native_state _ _ eq_refl H).
Defined.

(** ** A path and its directory *)

Lemma last_slash_decomp r :
  no_slash r = false ->
  exists X n, r = (X ++ String "/" n)%string /\ no_slash n = true.
Proof.
  induction r as [|c r IH]; [discriminate|]. cbn [no_slash]. intros H.
  destruct (no_slash r) eqn:E.
  - rewrite andb_true_r in H. apply negb_false_iff in H.
    unfold is_slash in H. apply Ascii.eqb_eq in H. subst c.
    now exists ""%string, r.
  - destruct (IH eq_refl) as [X [n [-> Hn]]]. now exists (String c X), n.
Qed.

Lemma isabs_has_slash p : isabs p = true -> no_slash p = false.
Proof.
  destruct p as [|c p]; [discriminate|]. unfold isabs. cbn [startswith no_slash].
  rewrite andb_true_r. intros H. unfold is_slash. rewrite Ascii.eqb_sym, H. reflexivity.
Qed.

Lemma split_last X n :
  no_slash n = true ->
  snd (split (X ++ String "/" n)) = n
  /\ components (fst (split (X ++ String "/" n))) = components X
  /\ (isabs (X ++ "/") = true -> isabs (fst (split (X ++ String "/" n))) = true).
Proof.
  intros Hn. unfold split. rewrite (cut_last_app X n Hn).
  assert (Hc : components (X ++ "/") = components X).
  { change (X ++ "/")%string with (X ++ String "/" "")%string.
    rewrite components_app_slash, components_empty. apply app_nil_r. }
  destruct (negb (String.eqb (X ++ "/") "") && negb (all_slashes (X ++ "/"))) eqn:E;
    cbn [fst snd].
  - split; [reflexivity|]. split; [now rewrite components_rstrip|].
    apply andb_prop in E as [_ E]. apply negb_true_iff in E.
    intros Ha. now apply rstrip_isabs.
  - auto.
Qed.

(** the directory of an absolute path, and a name put in it *)
Lemma dirname_join_loc p n :
  isabs p = true -> is_name n = true ->
  isabs (join (fst (split p)) n) = true
  /\ components (join (fst (split p)) n) = components (fst (split p)) ++ [n]
  /\ exists t, components p = components (fst (split p)) ++ t.
Proof.
  intros Ha Hn. apply is_name_inv in Hn as [N0 [_ [_ Ns]]].
  destruct (last_slash_decomp p (isabs_has_slash p Ha)) as [X [m [-> Hm]]].
  destruct (split_last X m Hm) as [_ [Hc Hi]].
  assert (Hx : isabs (X ++ "/") = true).
  { destruct X; [reflexivity|exact Ha]. }
  specialize (Hi Hx). split; [now apply isabs_join|]. split.
  - rewrite components_join; [now rewrite (components_name n Ns N0)|].
    destruct n; [congruence|]. unfold isabs. cbn [startswith no_slash] in *.
    apply andb_prop in Ns as [Ns _]. unfold is_slash in Ns.
    rewrite andb_true_r. rewrite Ascii.eqb_sym. now apply negb_true_iff in Ns.
  - exists (components m). now rewrite components_app_slash, Hc.
Qed.

(** ** [os.rename] and [shutil.move] between two names of a real directory *)

Lemma prefixb_sibling D a b :
  a <> b -> Shutil.prefixb (D ++ [a]) (D ++ [b]) = false.
Proof.
  intros H. induction D as [|d D IH]; cbn [app Shutil.prefixb].
  - apply String.eqb_neq in H. now rewrite H.
  - now rewrite IH, andb_false_r.
Qed.

Lemma sibling_neq (D : loc) a b : a <> b -> D ++ [a] <> D ++ [b].
Proof. intros H E. apply app_inv_head in E. congruence. Qed.

Lemma sibling_not_prefix (D : loc) a b : a <> b -> ~ prefix_of (D ++ [a]) (D ++ [b]).
Proof.
  intros H [r E]. rewrite <- app_assoc in E. apply app_inv_head in E.
  cbn in E. congruence.
Qed.

Section Siblings.
Variables (root : node) (cwd src dst : string) (D : loc) (na nb : string)
          (es : list (string * node)).
Hypothesis Hsa : isabs src = true.
Hypothesis Hsc : components src = D ++ [na].
Hypothesis Hda : isabs dst = true.
Hypothesis Hdc : components dst = D ++ [nb].
Hypothesis HD : Forall plain D.
Hypothesis Hna : plain na.
Hypothesis Hnb : plain nb.
Hypothesis Hne : na <> nb.
Hypothesis Hdir : get root D = Some (Dir es).

Lemma sibling_plain n : plain n -> Forall plain (D ++ [n]).
Proof. intros H. apply Forall_app. split; [exact HD|]. now constructor. Qed.

Lemma sibling_parent n :
  D ++ [n] = [] \/ exists es', get root (removelast (D ++ [n])) = Some (Dir es').
Proof. right. exists es. now rewrite removelast_last. Qed.

Lemma sibling_get n : get root (D ++ [n]) = lookup n es.
Proof. now rewrite get_snoc, Hdir. Qed.

Lemma rename_sibling d :
  lookup na es = Some (File d) ->
  (lookup nb es = None \/ exists d', lookup nb es = Some (File d')) ->
  Shutil.rename root cwd src dst
  = inr (put (D ++ [nb]) (File d) (del (D ++ [na]) root)).
Proof.
  intros La Lb. unfold Shutil.rename.
  rewrite (locate_real root cwd false src (D ++ [na]) Hsa Hsc (sibling_plain na Hna)
             (sibling_parent na)) by discriminate.
  rewrite sibling_get, La.
  rewrite (locate_real root cwd false dst (D ++ [nb]) Hda Hdc (sibling_plain nb Hnb)
             (sibling_parent nb)) by discriminate.
  rewrite removelast_last, Hdir.
  destruct (list_eq_dec string_dec (D ++ [na]) (D ++ [nb])) as [E|_];
    [now apply sibling_neq in E|].
  rewrite (prefixb_sibling D na nb Hne), sibling_get.
  destruct Lb as [->|[d' ->]]; reflexivity.
Qed.

Lemma move_sibling d :
  lookup na es = Some (File d) ->
  (lookup nb es = None \/ exists d', lookup nb es = Some (File d')) ->
  Shutil.move root cwd src dst
  = (put (D ++ [nb]) (File d) (del (D ++ [na]) root), inr tt).
Proof.
  intros La Lb. unfold Shutil.move.
  assert (Hd : isdir root cwd dst = false).
  { unfold isdir. destruct Lb as [Lb|[d' Lb]].
    - rewrite (stat_real_none root cwd dst (D ++ [nb]) Hda Hdc (sibling_plain nb Hnb)
                 true (sibling_parent nb)); [reflexivity|].
      now rewrite sibling_get.
    - rewrite (stat_real root cwd dst (D ++ [nb]) Hda Hdc (sibling_plain nb Hnb)
                 true (File d')); [reflexivity| |discriminate].
      now rewrite sibling_get. }
  rewrite Hd, (rename_sibling d La Lb). reflexivity.
Qed.

(** the directory afterwards: [na] is gone, [nb] holds the file *)
Lemma moved_listing d :
  put (D ++ [nb]) (File d) (del (D ++ [na]) root)
  = put D (Dir (set_entry nb (File d) (remove_entry na es))) root.
Proof.
  rewrite (del_sub D [na] root (Dir es) Hdir) by discriminate.
  cbn [del].
  assert (Hp : D = [] \/ exists es', get root (removelast D) = Some (Dir es'))
    by (eapply get_removelast_dir; eauto).
  rewrite (put_sub D [nb] (File d) _ (Dir (remove_entry na es)))
    by (try discriminate; now apply get_put_same).
  cbn [put]. apply put_twice.
Qed.

End Siblings.

(** ** [remove_libgcc_s] *)

Lemma so_is_name : is_name "libgcc_s.so" = true.
Proof. reflexivity. Qed.

Lemma bak_is_name : is_name "libgcc_s.so.bak" = true.
Proof. reflexivity. Qed.

Lemma join_so_bak a :
  (join a "libgcc_s.so" ++ ".bak")%string = join a "libgcc_s.so.bak".
Proof.
  unfold join. cbn [startswith Ascii.eqb Bool.eqb andb].
  destruct (String.eqb a "" || endswith a "/"); now rewrite !append_assoc.
Qed.

Section LibgccS.
Variables (h : host) (st : state) (root1 : node) (out : string)
          (es : list (string * node)).
Hypothesis Hcwd : isabs (getcwd h) = true.
Hypothesis Hexec : exec h gcc_probe_cmd None (fs st) = (root1, 0%Z, out).
Hypothesis Hdir : get root1 (libgcc_s_dir h out) = Some (Dir es).

Let dir : string := fst (split (abspath (getcwd h) (strip out))).
Let st1 : state := with_event (with_fs st root1) (EvRun gcc_probe_cmd None 0).

Lemma libgcc_s_dir_plain : Forall plain (libgcc_s_dir h out).
Proof.
  destruct (abspath_normal (getcwd h) (strip out) Hcwd) as [Ha Hn].
  destruct (dirname_join_loc _ "libgcc_s.so" Ha so_is_name) as [_ [_ [t Ht]]].
  unfold libgcc_s_dir. rewrite Ht in Hn. apply Forall_app in Hn as [Hn _].
  now apply names_plain.
Qed.

Lemma so_abs : isabs (join dir "libgcc_s.so") = true.
Proof.
  destruct (abspath_normal (getcwd h) (strip out) Hcwd) as [Ha _].
  now destruct (dirname_join_loc _ "libgcc_s.so" Ha so_is_name) as [H _].
Qed.

Lemma so_loc : components (join dir "libgcc_s.so") = libgcc_s_dir h out ++ ["libgcc_s.so"%string].
Proof.
  destruct (abspath_normal (getcwd h) (strip out) Hcwd) as [Ha _].
  now destruct (dirname_join_loc _ "libgcc_s.so" Ha so_is_name) as [_ [H _]].
Qed.

Lemma bak_abs : isabs (join dir "libgcc_s.so" ++ ".bak") = true.
Proof.
  rewrite join_so_bak.
  destruct (abspath_normal (getcwd h) (strip out) Hcwd) as [Ha _].
  now destruct (dirname_join_loc _ "libgcc_s.so.bak" Ha bak_is_name) as [H _].
Qed.

Lemma bak_loc :
  components (join dir "libgcc_s.so" ++ ".bak")
  = libgcc_s_dir h out ++ ["libgcc_s.so.bak"%string].
Proof.
  rewrite join_so_bak.
  destruct (abspath_normal (getcwd h) (strip out) Hcwd) as [Ha _].
  now destruct (dirname_join_loc _ "libgcc_s.so.bak" Ha bak_is_name) as [_ [H _]].
Qed.

Lemma so_plain : Forall plain (libgcc_s_dir h out ++ ["libgcc_s.so"%string]).
Proof.
  apply Forall_app. split; [apply libgcc_s_dir_plain|].
  constructor; [|constructor]. split; discriminate.
Qed.

(** the probe, then what is read of [libgcc_s.so] decides *)
Lemma remove_libgcc_s_read :
  remove_libgcc_s h st
  = bind (try_except
            (bind (try_ask (fun root => read_file root (getcwd h) (join dir "libgcc_s.so")))
                  (fun data => ret (Some (negb (String.eqb (take 4 data) ELF_MAGIC)))))
            is_FileNotFoundError
            (bind (printr "libgcc_s.so is no more.") (fun _ => ret None)))
         (fun checked =>
            match checked with
            | None => ret tt
            | Some libgcc_s_is_not_elf =>
                if negb libgcc_s_is_not_elf then printr "libgcc_s is ELF: ignoring."
                else
                  bind (printr "libgcc_s is not an ELF (likely LD instruction): moving ...")
                       (fun _ st =>
                          let '(root, r) :=
                            Shutil.move (fs st) (getcwd h) (join dir "libgcc_s.so")
                                        (join dir "libgcc_s.so" ++ ".bak") in
                          (r, with_fs st root))
            end) st1.
Proof.
  unfold remove_libgcc_s.
  rewrite (bind_ok _ _ st _ _ (get_libgcc_path_ok h None None st root1 out Hexec)).
  reflexivity.
Qed.

Lemma read_so_file d :
  lookup "libgcc_s.so" es = Some (File d) ->
  read_file root1 (getcwd h) (join dir "libgcc_s.so") = inr d.
Proof.
  intros L. apply (read_file_real root1 (getcwd h) _ _ so_abs so_loc so_plain).
  now rewrite get_snoc, Hdir.
Qed.

Lemma read_so_absent :
  lookup "libgcc_s.so" es = None ->
  read_file root1 (getcwd h) (join dir "libgcc_s.so") = inl FileNotFoundError.
Proof.
  intros L. unfold read_file.
  rewrite (locate_real root1 (getcwd h) true _ _ so_abs so_loc so_plain).
  - now rewrite get_snoc, Hdir, L.
  - right. exists es. now rewrite removelast_last.
  - intros _ t. now rewrite get_snoc, Hdir, L.
Qed.

Lemma read_so_dir es' :
  lookup "libgcc_s.so" es = Some (Dir es') ->
  read_file root1 (getcwd h) (join dir "libgcc_s.so") = inl IsADirectoryError.
Proof.
  intros L. unfold read_file.
  rewrite (locate_real root1 (getcwd h) true _ _ so_abs so_loc so_plain).
  - now rewrite get_snoc, Hdir, L.
  - right. exists es. now rewrite removelast_last.
  - intros _ t. now rewrite get_snoc, Hdir, L.
Qed.

Lemma remove_libgcc_s_absent_eq :
  lookup "libgcc_s.so" es = None ->
  remove_libgcc_s h st
  = (inr tt, with_event st1 (EvPrint "libgcc_s.so is no more.")).
Proof.
  intros L. rewrite remove_libgcc_s_read.
  unfold bind at 1, try_except, bind at 1, try_ask. cbn [fs st1 with_event with_fs].
  rewrite (read_so_absent L). reflexivity.
Qed.

Lemma remove_libgcc_s_moves_eq d :
  lookup "libgcc_s.so" es = Some (File d) ->
  take 4 d <> ELF_MAGIC ->
  (lookup "libgcc_s.so.bak" es = None
   \/ exists d', lookup "libgcc_s.so.bak" es = Some (File d')) ->
  remove_libgcc_s h st
  = (inr tt,
     with_fs (with_event st1
                (EvPrint "libgcc_s is not an ELF (likely LD instruction): moving ..."))
             (put (libgcc_s_dir h out ++ ["libgcc_s.so.bak"%string]) (File d)
                  (del (libgcc_s_dir h out ++ ["libgcc_s.so"%string]) root1))).
Proof.
  intros L Hm Lb. rewrite remove_libgcc_s_read.
  unfold bind at 1, try_except, bind at 1, try_ask. cbn [fs st1 with_event with_fs].
  rewrite (read_so_file d L). unfold ret at 1.
  apply String.eqb_neq in Hm. rewrite Hm. cbn [negb].
  unfold bind, printr, emit. cbn [fs with_event with_fs].
  change (fs st1) with root1.
  assert (Hna : plain "libgcc_s.so") by (split; discriminate).
  assert (Hnb : plain "libgcc_s.so.bak") by (split; discriminate).
  assert (Hne : "libgcc_s.so"%string <> "libgcc_s.so.bak"%string) by discriminate.
  now rewrite (move_sibling root1 (getcwd h) _ _ (libgcc_s_dir h out)
                 "libgcc_s.so" "libgcc_s.so.bak" es so_abs so_loc bak_abs bak_loc
                 libgcc_s_dir_plain Hna Hnb Hne Hdir d L Lb).
Qed.

End LibgccS.

(** X8.  When the directory of the native runtime library has no
    [libgcc_s.so], [remove_libgcc_s] says so and ends normally: the
    [FileNotFoundError] is caught and the file system is as the probe left
    it. *)
Theorem libgcc_s_absent_is_fine :
  forall (h : host) (st : state) (root1 : node) (out : string)
         (es : list (string * node)),
    isabs (getcwd h) = true ->
    exec h gcc_probe_cmd None (fs st) = (root1, 0%Z, out) ->
    get root1 (libgcc_s_dir h out) = Some (Dir es) ->
    lookup "libgcc_s.so" es = None ->
    remove_libgcc_s h st
    = (inr tt,
       with_event (with_event (with_fs st root1) (EvRun gcc_probe_cmd None 0))
                  (EvPrint "libgcc_s.so is no more.")).
Proof. intros. eapply remove_libgcc_s_absent_eq; eauto. Qed.

Lemma libgcc_s_absent_is_fine_witness :
  fst (remove_libgcc_s native_host native_moved) = inr tt.
Proof.
  rewrite (libgcc_s_absent_is_fine native_host native_moved (fs native_moved) gcc_out
             [("libgcc.a", File "!<arch>");
              ("libgcc_s.so.bak",
               File "/* GNU ld script */ GROUP ( /lib64/libgcc_s.so.1 )")]);
    [reflexivity|reflexivity|reflexivity|vm_compute; reflexivity|reflexivity].
Defined.

(** X9.  A [libgcc_s.so] that starts with the four bytes of the ELF magic
    number is left where it is: nothing is moved, the file system is as the
    probe left it. *)
Theorem libgcc_s_elf_is_kept :
  forall (h : host) (st : state) (root1 : node) (out d : string)
         (es : list (string * node)),
    isabs (getcwd h) = true ->
    exec h gcc_probe_cmd None (fs st) = (root1, 0%Z, out) ->
    get root1 (libgcc_s_dir h out) = Some (Dir es) ->
    lookup "libgcc_s.so" es = Some (File d) ->
    take 4 d = ELF_MAGIC ->
    remove_libgcc_s h st
    = (inr tt,
       with_event (with_event (with_fs st root1) (EvRun gcc_probe_cmd None 0))
                  (EvPrint "libgcc_s is ELF: ignoring.")).
Proof.
  intros h st root1 out d es Hcwd Hexec Hdir L Hm.
  rewrite (remove_libgcc_s_read h st root1 out Hexec).
  unfold bind at 1, try_except, bind at 1, try_ask. cbn [fs with_event with_fs].
  rewrite (read_so_file h root1 out es Hcwd Hdir d L). unfold ret at 1.
  rewrite Hm, String.eqb_refl. reflexivity.
Qed.

Lemma libgcc_s_elf_is_kept_witness :
  fs (snd (remove_libgcc_s native_host elf_state)) = fs elf_state.
Proof.
  rewrite (libgcc_s_elf_is_kept native_host elf_state (fs elf_state) gcc_out
             (ELF_MAGIC ++ "...")
             [("libgcc.a", File "!<arch>");
              ("libgcc_s.so", File (ELF_MAGIC ++ "..."))]);
    [reflexivity|reflexivity|reflexivity|vm_compute; reflexivity|reflexivity|reflexivity].
Defined.

(** X10.  A [libgcc_s.so] that is a directory is not handled: only
    [FileNotFoundError] is caught, and the [IsADirectoryError] of [open]
    ends the step, nothing moved. *)
Theorem libgcc_s_directory_raises :
  forall (h : host) (st : state) (root1 : node) (out : string)
         (es es' : list (string * node)),
    isabs (getcwd h) = true ->
    exec h gcc_probe_cmd None (fs st) = (root1, 0%Z, out) ->
    get root1 (libgcc_s_dir h out) = Some (Dir es) ->
    lookup "libgcc_s.so" es = Some (Dir es') ->
    remove_libgcc_s h st
    = (inl IsADirectoryError,
       with_event (with_fs st root1) (EvRun gcc_probe_cmd None 0)).
Proof.
  intros h st root1 out es es' Hcwd Hexec Hdir L.
  rewrite (remove_libgcc_s_read h st root1 out Hexec).
  unfold bind at 1, try_except, bind at 1, try_ask. cbn [fs with_event with_fs].
  rewrite (read_so_dir h root1 out es Hcwd Hdir es' L). reflexivity.
Qed.

Lemma libgcc_s_directory_raises_witness :
  fst (remove_libgcc_s native_host dir_state) = inl IsADirectoryError.
Proof.
  rewrite (libgcc_s_directory_raises native_host dir_state (fs dir_state) gcc_out
             [("libgcc.a", File "!<arch>"); ("libgcc_s.so", Dir [])] []);
    [reflexivity|reflexivity|reflexivity|vm_compute; reflexivity|reflexivity].
Defined.

(** X11.  A [libgcc_s.so] that is a regular file not starting with the
    ELF magic number (a shorter file, an empty one, a linker script) is
    moved to [libgcc_s.so.bak] in the same directory, over a regular file
    of that name if there is one.  Afterwards [libgcc_s.so] is gone from
    the listing of the directory, [libgcc_s.so.bak] holds the contents it
    had, and nothing else has changed. *)
Theorem libgcc_s_script_is_moved :
  forall (h : host) (st : state) (root1 : node) (out d : string)
         (es : list (string * node)),
    isabs (getcwd h) = true ->
    exec h gcc_probe_cmd None (fs st) = (root1, 0%Z, out) ->
    get root1 (libgcc_s_dir h out) = Some (Dir es) ->
    lookup "libgcc_s.so" es = Some (File d) ->
    take 4 d <> ELF_MAGIC ->
    (lookup "libgcc_s.so.bak" es = None
     \/ exists d', lookup "libgcc_s.so.bak" es = Some (File d')) ->
    exists st',
      remove_libgcc_s h st = (inr tt, st')
      /\ fs st' = put (libgcc_s_dir h out)
                      (Dir (set_entry "libgcc_s.so.bak" (File d)
                                      (remove_entry "libgcc_s.so" es))) root1
      /\ get (fs st') (libgcc_s_dir h out ++ ["libgcc_s.so.bak"%string]) = Some (File d)
      /\ (nodupb (map fst es) = true ->
          get (fs st') (libgcc_s_dir h out ++ ["libgcc_s.so"%string]) = None)
      /\ forall q, ~ prefix_of (libgcc_s_dir h out) q ->
                   ~ prefix_of q (libgcc_s_dir h out) ->
                   get (fs st') q = get root1 q.
Proof.
  intros h st root1 out d es Hcwd Hexec Hdir L Hm Lb.
  eexists. split; [eapply remove_libgcc_s_moves_eq; eauto|].
  cbn [fs with_fs with_event].
  rewrite (moved_listing root1 (libgcc_s_dir h out) "libgcc_s.so" "libgcc_s.so.bak"
             es Hdir d).
  assert (Hp : libgcc_s_dir h out = []
               \/ exists es', get root1 (removelast (libgcc_s_dir h out)) = Some (Dir es'))
    by (eapply get_removelast_dir; eauto).
  split; [reflexivity|]. split; [|split].
  - rewrite get_put_under by exact Hp. cbn [get]. now rewrite lookup_set_entry_same.
  - intros Hnd. rewrite get_put_under by exact Hp. cbn [get].
    rewrite lookup_set_entry_other by discriminate.
    now rewrite lookup_remove_entry_same.
  - intros q H1 H2. now apply get_put_frame.
Qed.

Lemma libgcc_s_script_is_moved_witness :
  exists st',
    remove_libgcc_s native_host native_state = (inr tt, st')
    /\ get (fs st') (gcc_loc ++ ["libgcc_s.so.bak"])
       = Some (File "/* GNU ld script */ GROUP ( /lib64/libgcc_s.so.1 )")
    /\ get (fs st') (gcc_loc ++ ["libgcc_s.so"]) = None.
Proof.
  destruct (libgcc_s_script_is_moved native_host native_state native_root gcc_out
              "/* GNU ld script */ GROUP ( /lib64/libgcc_s.so.1 )"
              [("libgcc.a", File "!<arch>");
               ("libgcc_s.so",
                File "/* GNU ld script */ GROUP ( /lib64/libgcc_s.so.1 )")])
    as [st' [H1 [_ [H3 [H4 _]]]]].
  - reflexivity.
  - reflexivity.
  - vm_compute. reflexivity.
  - reflexivity.
  - discriminate.
  - now left.
  - exists st'. split; [exact H1|]. split; [exact H3|]. now apply H4.
Defined.

(** X12.  [remove_libgcc_s] is idempotent: once it has moved the file, a
    second run whose probe prints the same path and changes nothing finds
    no [libgcc_s.so], says so and leaves the file system as it is. *)
Theorem libgcc_s_second_run_is_idle :
  forall (h : host) (st : state) (root1 : node) (out d : string)
         (es : list (string * node)),
    isabs (getcwd h) = true ->
    exec h gcc_probe_cmd None (fs st) = (root1, 0%Z, out) ->
    get root1 (libgcc_s_dir h out) = Some (Dir es) ->
    nodupb (map fst es) = true ->
    lookup "libgcc_s.so" es = Some (File d) ->
    take 4 d <> ELF_MAGIC ->
    (lookup "libgcc_s.so.bak" es = None
     \/ exists d', lookup "libgcc_s.so.bak" es = Some (File d')) ->
    let st' := snd (remove_libgcc_s h st) in
    exec h gcc_probe_cmd None (fs st') = (fs st', 0%Z, out) ->
    remove_libgcc_s h st'
    = (inr tt, with_event (with_event st' (EvRun gcc_probe_cmd None 0))
                          (EvPrint "libgcc_s.so is no more.")).
Proof.
  intros h st root1 out d es Hcwd Hexec Hdir Hnd L Hm Lb st' Hexec'.
  assert (Hfs : fs st' = put (libgcc_s_dir h out)
                             (Dir (set_entry "libgcc_s.so.bak" (File d)
                                             (remove_entry "libgcc_s.so" es))) root1).
  { unfold st'. rewrite (remove_libgcc_s_moves_eq h st root1 out es Hcwd Hexec Hdir d L Hm Lb).
    cbn [snd fs with_fs].
    apply (moved_listing root1 (libgcc_s_dir h out) "libgcc_s.so" "libgcc_s.so.bak"
             es Hdir d). }
  assert (Hdir' : get (fs st') (libgcc_s_dir h out)
                  = Some (Dir (set_entry "libgcc_s.so.bak" (File d)
                                         (remove_entry "libgcc_s.so" es)))).
  { rewrite Hfs. apply get_put_same. eapply get_removelast_dir; eauto. }
  rewrite (remove_libgcc_s_absent_eq h st' (fs st') out _ Hcwd Hexec' Hdir').
  - now rewrite with_fs_id.
  - rewrite lookup_set_entry_other by discriminate.
    now apply lookup_remove_entry_same.
Qed.

Lemma libgcc_s_second_run_is_idle_witness :
  fst (remove_libgcc_s native_host native_moved) = inr tt
  /\ fs (snd (remove_libgcc_s native_host native_moved)) = fs native_moved.
Proof.
  unfold native_moved.
  rewrite (libgcc_s_second_run_is_idle native_host native_state native_root gcc_out
             "/* GNU ld script */ GROUP ( /lib64/libgcc_s.so.1 )"
             [("libgcc.a", File "!<arch>");
              ("libgcc_s.so",
               File "/* GNU ld script */ GROUP ( /lib64/libgcc_s.so.1 )")]).
  - split; reflexivity.
  - reflexivity.
  - reflexivity.
  - vm_compute. reflexivity.
  - reflexivity.
  - reflexivity.
  - discriminate.
  - now left.
  - vm_compute. reflexivity.
Defined.

(** ** The platform suffix *)

Lemma find_none_contains sub s : find sub s = None <-> contains sub s = false.
Proof.
  induction s as [|c s IH]; cbn [find contains].
  - destruct (startswith "" sub); split; intros; try discriminate; reflexivity.
  - destruct (startswith (String c s) sub); cbn [orb].
    + split; discriminate.
    + rewrite <- IH. destruct (find sub s); cbn [option_map]; split; intros;
        try discriminate; reflexivity.
Qed.

(** X13.  [populate_platform_suffix] needs a [-] in the name of the
    directory of the native runtime library: without one the split has no
    second part and the function raises [IndexError], [PLATFORM_SUFFIX]
    left unset; with one it ends normally. *)
Theorem suffix_needs_a_dash :
  forall (h : host) (st : state),
    snd (fst (exec h ["clang"; "--rtlib=compiler-rt"; "--print-libgcc-file-name"]%string
                   None (fs st))) = 0%Z ->
    let r := populate_platform_suffix h st in
    if contains "-" (basename (dirname (native_probe h st)))
    then fst r = inr tt
    else fst r = inl IndexError /\ PLATFORM_SUFFIX (snd r) = PLATFORM_SUFFIX st.
Proof.
  intros h st Hrc r. unfold r, populate_platform_suffix, native_probe, basename, dirname.
  unfold bind at 1, get_libgcc_path, bind, subprocess_run, ret.
  change (probe_cmdline rtlib_default None (PLATFORM_SUFFIX st))
    with ["clang"; "--rtlib=compiler-rt"; "--print-libgcc-file-name"]%string.
  destruct (exec h _ None (fs st)) as [[root rc] out]. cbn [fst snd] in Hrc. subst rc.
  cbn [andb negb Z.eqb].
  set (name := snd (split (fst (split (abspath (getcwd h) (strip out)))))).
  unfold split_maxsplit1.
  destruct (contains "-" name) eqn:C.
  - destruct (find "-" name) as [i|] eqn:F.
    + reflexivity.
    + apply find_none_contains in F. congruence.
  - apply find_none_contains in C. rewrite C. cbn [nth_error]. split; reflexivity.
Qed.

Lemma suffix_needs_a_dash_witness :
  fst (populate_platform_suffix flat_host native_state) = inl IndexError.
Proof.
  pose proof (suffix_needs_a_dash flat_host native_state eq_refl) as H.
  cbv zeta in H.
  change (contains "-" (basename (dirname (native_probe flat_host native_state))))
    with false in H.
  exact (proj1 H).
Defined.

(** ** The edit of the copied configuration *)

Lemma encoded_prefix chunks : forall data ok,
  encoded chunks = (data, ok) ->
  exists rest, String.concat "" chunks = (data ++ rest)%string.
Proof.
  induction chunks as [|c r IH]; intros data ok; cbn [encoded].
  - intros [= <- _]. now exists ""%string.
  - rewrite concat_empty_cons. destruct (utf8_valid c).
    + destruct (encoded r) as [data' ok'] eqn:E. intros [= <- _].
      destruct (IH data' ok' eq_refl) as [rest ->]. exists rest.
      now rewrite append_assoc.
    + intros [= <- _]. eexists. reflexivity.
Qed.

(** X14.  When [edit_config] raises, there are two cases.  Either the
    state is as it was: the exception came before the file was opened for
    writing, or from opening it.  Or the file had been read and parsed, the
    option set, and the file opened for writing, which emptied it: the
    exception is the [UnicodeEncodeError] of one of the [write]s of
    [ConfigParser.write], and the file, closed by the [with] statement,
    holds the beginning of the new text, up to the string that could not be
    encoded; its old contents are lost.  (The file system of the model has
    room for every file: a device that is full is not part of it.) *)
Theorem edit_config_failure_outcomes :
  forall (h : host) (yumcfgfile yumrepodir : string) (st st' : state) (e : exn),
    edit_config h yumcfgfile yumrepodir st = (inl e, st') ->
    st' = st
    \/ (e = UnicodeEncodeError
        /\ exists (text : string) (cfg cfg' : ConfigParser.config) (c : loc)
                  (data rest : string),
             read_file (fs st) (getcwd h) yumcfgfile = inr text
             /\ ini_read h text = inr cfg
             /\ ConfigParser.setitem cfg "main" "reposdir" yumrepodir = inr cfg'
             /\ locate (fs st) (getcwd h) true yumcfgfile = inr c
             /\ encoded (ConfigParser.write_chunks cfg') = (data, false)
             /\ ConfigParser.write cfg' = (data ++ rest)%string
             /\ st' = with_fs st (put c (File data) (fs st))
             /\ get (fs st') c = Some (File data)).
Proof.
  intros h yumcfgfile yumrepodir st st' e.
  unfold edit_config, bind, ask, ret, effect, write_text.
  destruct (read_file (fs st) (getcwd h) yumcfgfile) as [e0|text] eqn:Hr.
  - destruct (ConfigParser.setitem ConfigParser.empty "main" "reposdir" yumrepodir)
      as [e1|cfg] eqn:S; [intros [= _ <-]; now left|].
    cbn in S. discriminate.
  - destruct (ini_read h text) as [e1|cfg0] eqn:Hi; [intros [= _ <-]; now left|].
    destruct (ConfigParser.setitem cfg0 "main" "reposdir" yumrepodir)
      as [e1|cfg] eqn:S; [intros [= _ <-]; now left|].
    destruct (encoded (ConfigParser.write_chunks cfg)) as [data ok] eqn:En.
    destruct (write_file (fs st) (getcwd h) yumcfgfile data) as [e1|root'] eqn:Hw.
    + intros [= _ <-]. left. apply with_fs_id.
    + destruct ok; [discriminate|]. intros [= <- <-]. right. split; [reflexivity|].
      apply write_file_inv in Hw as [c [Hloc [-> Hget]]].
      destruct (encoded_prefix _ _ _ En) as [rest Hrest].
      exists text, cfg0, cfg, c, data, rest. repeat split; auto.
Qed.

Lemma edit_config_failure_outcomes_witness :
  (snd (edit_config sample_host (yumcfgfile sample_host "x86_64")
          ("/home/caf" ++ String "233" "" ++ "/yum.repos.d") sample_scratch)
   = sample_scratch
   \/ exists (c : loc) (data : string),
        snd (edit_config sample_host (yumcfgfile sample_host "x86_64")
               ("/home/caf" ++ String "233" "" ++ "/yum.repos.d") sample_scratch)
        = with_fs sample_scratch (put c (File data) (fs sample_scratch)))
  /\ edit_config sample_host (yumcfgfile sample_host "x86_64")
        ("/home/caf" ++ String "233" "" ++ "/yum.repos.d") sample_scratch
     = (inl UnicodeEncodeError,
        with_fs sample_scratch
          (put ["home"; "u"; "yum-x86_64"; "dnf.conf"]
               (File ("[main]" ++ nl ++ "gpgcheck = 1" ++ nl
                      ++ "installonly_limit = 3" ++ nl)%string)
               (fs sample_scratch))).
Proof.
  split; [|vm_compute; reflexivity].
  destruct (edit_config_failure_outcomes sample_host (yumcfgfile sample_host "x86_64")
              ("/home/caf" ++ String "233" "" ++ "/yum.repos.d") sample_scratch
              (snd (edit_config sample_host (yumcfgfile sample_host "x86_64")
                      ("/home/caf" ++ String "233" "" ++ "/yum.repos.d") sample_scratch))
              UnicodeEncodeError)
    as [H|[_ [text [cfg [cfg' [c [data [rest [_ [_ [_ [_ [_ [_ [H _]]]]]]]]]]]]]]].
  - vm_compute. reflexivity.
  - now left.
  - right. now exists c, data.
Defined.

(** X15.  A configuration without a [[main]] section is an error: the
    edit raises [KeyError('main')] instead of adding the section, and the
    file is not rewritten. *)
Theorem edit_config_needs_main_section :
  forall (h : host) (yumcfgfile yumrepodir : string) (st : state) (text : string)
         (cfg : ConfigParser.config),
    read_file (fs st) (getcwd h) yumcfgfile = inr text ->
    ini_read h text = inr cfg ->
    ConfigParser.assoc "main" (ConfigParser.sections cfg) = None ->
    edit_config h yumcfgfile yumrepodir st = (inl (KeyError "main"), st).
Proof.
  intros h yumcfgfile yumrepodir st text cfg Hr Hi Hm.
  unfold edit_config, bind, ask, ret. rewrite Hr, Hi.
  unfold ConfigParser.setitem. rewrite Hm. reflexivity.
Qed.

Lemma edit_config_needs_main_section_witness :
  edit_config sample_host "/etc/yum.repos.d/sub/x.repo" "/x"
    (with_fs sample_ready
       (put ["etc"; "yum.repos.d"; "sub"; "x.repo"] (File "[other]") sample_root))
  = (inl (KeyError "main"),
     with_fs sample_ready
       (put ["etc"; "yum.repos.d"; "sub"; "x.repo"] (File "[other]") sample_root)).
Proof.
  apply (edit_config_needs_main_section sample_host _ _ _ "[other]"
           {| ConfigParser.defaults := []; ConfigParser.sections := [("other", [])] |});
    vm_compute; reflexivity.
Defined.

(** X16.  The path of the repository directory goes through the
    interpolation check of [ConfigParser]: when it holds a [%] that is
    neither doubled nor the start of [%(name)s], as a home directory can,
    the edit raises [ValueError] and the file is not rewritten. *)
Theorem edit_config_percent_in_path :
  forall (h : host) (yumcfgfile yumrepodir : string) (st : state) (text : string)
         (cfg : ConfigParser.config) (kv : list (string * string)),
    read_file (fs st) (getcwd h) yumcfgfile = inr text ->
    ini_read h text = inr cfg ->
    ConfigParser.assoc "main" (ConfigParser.sections cfg) = Some kv ->
    yumrepodir <> ""%string ->
    ConfigParser.before_set_ok yumrepodir = false ->
    edit_config h yumcfgfile yumrepodir st = (inl ValueError, st).
Proof.
  intros h yumcfgfile yumrepodir st text cfg kv Hr Hi Hm Hne Hb.
  unfold edit_config, bind, ask, ret. rewrite Hr, Hi.
  unfold ConfigParser.setitem. rewrite Hm, Hb.
  apply String.eqb_neq in Hne. rewrite Hne. reflexivity.
Qed.

Lemma edit_config_percent_in_path_witness :
  edit_config sample_host "/etc/dnf/dnf.conf" "/home/50%/yum-x86_64/yum.repos.d"
              sample_ready
  = (inl ValueError, sample_ready).
Proof.
  apply (edit_config_percent_in_path sample_host _ _ _
           ("[main]" ++ nl ++ "gpgcheck=1" ++ nl ++ "installonly_limit=3" ++ nl)%string
           {| ConfigParser.defaults := [];
              ConfigParser.sections :=
                [("main", [("gpgcheck", "1"); ("installonly_limit", "3")])] |}
           [("gpgcheck", "1"); ("installonly_limit", "3")]);
    try (vm_compute; reflexivity).
  discriminate.
Defined.

(** ** A scratch path that is not a directory *)

(** X17.  When the path of the scratch directory is there and is not a
    directory, the builder fails and removes nothing: [shutil.rmtree]
    refuses a regular file ([NotADirectoryError]) and a symbolic link
    ([OSError]), and a link that leads nowhere, which [path.exists] does
    not see, makes [os.makedirs] raise [FileExistsError]. *)
Theorem scratch_path_must_be_directory :
  forall (h : host) (platform : string) (st : state) (x : node),
    sane_host h platform (fs st) ->
    get (fs st) (scratch_loc h platform) = Some x ->
    is_dirb x = false ->
    make_scratch h platform (yumdir h platform) (yumcfgfile h platform)
                 (yumrepodir h platform) (yumrpmdir h platform) st
    = (inl (match x with
            | File _ => NotADirectoryError
            | _ => if path_exists (fs st) (getcwd h) (yumdir h platform)
                   then OSError else FileExistsError
            end),
       with_event st (EvPrint ("Creating DNF repo for platform '" ++ platform
                               ++ "' at '" ++ yumdir h platform ++ "' ..."))).
Proof.
  intros h platform st x [Habs [Hplat [Hwf [hes Hh]]]] Hx Hd.
  pose proof (yumdir_abs h platform Habs) as Ya.
  pose proof (yumdir_comp h platform Hplat) as Yc.
  pose proof (names_plain _ (scratch_names h platform Hplat (fs st) Hwf hes Hh)) as Yp.
  pose proof (scratch_parent h platform (fs st) hes Hh) as Ypar.
  assert (Yne : scratch_loc h platform <> []).
  { unfold scratch_loc. intros E. now apply app_eq_nil in E as [_ E]. }
  unfold make_scratch, bind at 1, printr, emit.
  set (st0 := with_event st _).
  unfold bind at 1, ask. change (fs st0) with (fs st).
  assert (Hloc : locate (fs st) (getcwd h) false (yumdir h platform)
                 = inr (scratch_loc h platform)).
  { apply locate_real; auto. discriminate. }
  destruct x as [d|t|es]; [| |discriminate].
  - assert (He : path_exists (fs st) (getcwd h) (yumdir h platform) = true).
    { unfold path_exists.
      rewrite (stat_real (fs st) (getcwd h) _ _ Ya Yc Yp true (File d)); auto.
      discriminate. }
    rewrite He. rewrite (bind_err _ _ st0 NotADirectoryError st0); [reflexivity|].
    apply update_err. change (fs st0) with (fs st).
    unfold rmtree. now rewrite Hloc, Hx.
  - destruct (path_exists (fs st) (getcwd h) (yumdir h platform)).
    + rewrite (bind_err _ _ st0 OSError st0); [reflexivity|].
      apply update_err. change (fs st0) with (fs st).
      unfold rmtree. now rewrite Hloc, Hx.
    + rewrite (bind_ok _ _ st0 tt st0) by reflexivity.
      rewrite (bind_err _ _ st0 FileExistsError st0); [reflexivity|].
      apply update_err. change (fs st0) with (fs st). unfold yumdir.
      rewrite (makedirs_real (fs st) (getcwd h) (HOMEDIR h) ("yum-" ++ platform)
                 (components (HOMEDIR h)) hes Habs eq_refl
                 (names_plain _ (home_names h (fs st) Hwf hes Hh)) Hh
                 (scratch_name platform Hplat)).
      apply (mkdir_real_exists (fs st) (getcwd h) _ _ Ya Yc Yp _ Hx).
Qed.

Lemma scratch_path_must_be_directory_witness :
  fst (make_scratch sample_host "x86_64" (yumdir sample_host "x86_64")
         (yumcfgfile sample_host "x86_64") (yumrepodir sample_host "x86_64")
         (yumrpmdir sample_host "x86_64") blocked_state)
  = inl NotADirectoryError.
Proof.
  rewrite (scratch_path_must_be_directory sample_host "x86_64" blocked_state (File ""));
    [reflexivity| |reflexivity|reflexivity].
  repeat split; try reflexivity. eexists. vm_compute. reflexivity.
Defined.

(** ** An install over what is there *)

Lemma str_join_snoc l n :
  str_join "/" (l ++ [n])
  = match l with
    | [] => n
    | _ => (str_join "/" l ++ String "/" n)%string
    end.
Proof.
  unfold str_join. induction l as [|a l IH]; [reflexivity|].
  cbn [app String.concat]. destruct l as [|b l].
  - cbn [app String.concat]. reflexivity.
  - cbn [app] in *. rewrite IH. cbn [String.concat].
    now rewrite !append_assoc.
Qed.

(** [os.makedirs] of a path that is there *)
Lemma makedirs_existing root cwd X n l x :
  no_slash n = true -> n <> ""%string -> isabs (X ++ "/") = true ->
  components (X ++ String "/" n) = l -> Forall plain l ->
  get root l = Some x ->
  makedirs root cwd (X ++ String "/" n) = inl FileExistsError.
Proof.
  intros Hn Hne Ha Hc Hp G.
  rewrite <- (makedirs_fuel root cwd _ (S (String.length (X ++ String "/" n))))
    by lia.
  cbn [makedirs_rec].
  destruct (split_last X n Hn) as [Ht [Hhc Hha]]. specialize (Hha Ha).
  destruct (split (X ++ String "/" n)) as [hd tl]. cbn [fst snd] in *. subst tl.
  apply String.eqb_neq in Hne. rewrite Hne.
  assert (Hl : l = components hd ++ [n]).
  { rewrite <- Hc, components_app_slash, Hhc. f_equal.
    apply components_name; auto. now apply String.eqb_neq. }
  assert (Hpx : path_exists root cwd hd = true).
  { pose proof Hp as Hp'. pose proof G as G'. rewrite Hl in Hp', G'.
    apply Forall_app in Hp' as [Hp' _].
    destruct (get_some_dir root (components hd) [n] x G') as [es Hes]; [discriminate|].
    unfold path_exists.
    rewrite (stat_real root cwd hd (components hd) Hha eq_refl Hp' true (Dir es));
      auto. discriminate. }
  rewrite Hpx, andb_false_r.
  assert (Habs : isabs (X ++ String "/" n) = true).
  { destruct X; [reflexivity|exact Ha]. }
  apply (mkdir_real_exists root cwd _ l Habs Hc Hp x G).
Qed.

Lemma relative_rest d extractdir rel :
  Pathlib.relative_to d extractdir = inr rel -> rel <> "."%string ->
  exists rest n,
    rel = str_join "/" (rest ++ [n])
    /\ Forall (fun c => no_slash c = true /\ c <> ""%string) (rest ++ [n]).
Proof.
  unfold Pathlib.relative_to.
  destruct (String.eqb (Pathlib.root_of d) (Pathlib.root_of extractdir)); [|discriminate].
  destruct (Pathlib.strip_prefix (Pathlib.names extractdir) (Pathlib.names d))
    as [rest|] eqn:S; [|discriminate].
  apply strip_prefix_app in S. pose proof (names_parts d) as H.
  rewrite S in H. apply Forall_app in H as [_ H].
  destruct rest as [|a rest]; [intros [= <-]; congruence|].
  intros [= <-] _.
  destruct (exists_last (l := a :: rest)) as [l' [z E]]; [discriminate|].
  exists l', z. now rewrite <- E.
Qed.

(** X18.  The install does not look whether its destination is there:
    when it is, file or directory, [copytree] raises [FileExistsError] from
    [os.makedirs] and nothing is copied. *)
Theorem install_over_existing_fails :
  forall (h : host) (d extractdir rel : string) (st : state) (cs : loc)
         (es : list (string * node)) (x : node),
    Pathlib.relative_to d extractdir = inr rel -> rel <> "."%string ->
    locate (fs st) (getcwd h) true d = inr cs ->
    get (fs st) cs = Some (Dir es) ->
    Forall plain (components rel) ->
    get (fs st) (components rel) = Some x ->
    install h (Some d) extractdir st = (inl FileExistsError, st).
Proof.
  intros h d extractdir rel st cs es x Hrel Hdot L G Hp Gx.
  destruct (relative_rest d extractdir rel Hrel Hdot) as [rest [n [E Hparts]]].
  pose proof (join_root_relative (rest ++ [n]) Hparts) as Hj. cbv zeta in Hj.
  assert (Hj' : join "/" rel = ("/" ++ rel)%string).
  { rewrite E. destruct (rest ++ [n]) eqn:R; [now destruct rest|exact Hj]. }
  assert (Hn : no_slash n = true /\ n <> ""%string).
  { apply Forall_app in Hparts as [_ Hparts]. now inversion Hparts. }
  destruct Hn as [Hn Hne].
  assert (Hform : exists X, ("/" ++ rel)%string = (X ++ String "/" n)%string
                            /\ isabs (X ++ "/") = true).
  { rewrite E, str_join_snoc. destruct rest as [|a rest].
    - now exists ""%string.
    - exists ("/" ++ str_join "/" (a :: rest))%string. split; [|reflexivity].
      now rewrite append_assoc. }
  destruct Hform as [X [HX HXa]].
  assert (Hc : components ("/" ++ rel) = components rel).
  { apply (components_app_slash "" rel). }
  unfold install, bind. rewrite Hrel, Hj'. unfold copytree. rewrite L, G, HX.
  rewrite (makedirs_existing (fs st) (getcwd h) X n (components rel) x); auto.
  - now destruct st.
  - now rewrite <- HX.
Qed.

Lemma install_over_existing_fails_witness :
  install sample_host (Some sample_located) (extractdir sample_host "x86_64")
          provisioned_state
  = (inl FileExistsError, provisioned_state).
Proof.
  eapply (install_over_existing_fails sample_host sample_located _
            "usr/lib64/clang/17/lib/x86_64-redhat-linux-gnu" provisioned_state
            ["home"; "u"; "yum-x86_64"; "RPMs"; "extract"; "usr"; "lib64"; "clang"; "17";
             "lib"; "x86_64-redhat-linux-gnu"]
            [("libclang_rt.builtins.a", File "ELF86");
             ("libclang_rt.a", Link "libclang_rt.builtins.a")]
            (Dir [("libclang_rt.builtins.a", File "ELF86");
                  ("libclang_rt.a", Link "libclang_rt.builtins.a")])).
  - vm_compute. reflexivity.
  - discriminate.
  - vm_compute. reflexivity.
  - vm_compute. reflexivity.
  - vm_compute. repeat constructor; discriminate.
  - vm_compute. reflexivity.
Defined.

(** ** The located directory and the extraction root *)

(** the directories of a walk are its top with names joined to it, and the
    names it lists are names *)
Lemma walk_node_tops root x : forall top at_ dn dns fns,
  wf x = true ->
  In (dn, dns, fns) (walk_node root top at_ x) ->
  exists ns, Forall (fun n => is_name n = true) ns
             /\ dn = fold_left join ns top
             /\ Forall (fun n => is_name n = true) dns.
Proof.
  induction x as [d|t|es IH] using node_ind'; intros top at_ dn dns fns Hwf Hin;
    try contradiction.
  rewrite walk_node_Dir in Hin. pose proof Hwf as Hwf'.
  apply wf_Dir in Hwf' as [Hnames [_ Hsub]]. destruct Hin as [E|Hin].
  - injection E as <- <- <-. exists []. split; [constructor|]. split; [reflexivity|].
    apply Forall_forall. intros n Hn. apply in_map_iff in Hn as [[k y] [E Hk]].
    cbn [fst] in E. subst k. apply filter_In in Hk as [Hk _].
    rewrite forallb_forall in Hnames. apply Hnames.
    now apply (in_map fst) in Hk.
  - apply In_walk_subdirs in Hin as [m [es' [Hm Hin]]].
    rewrite Forall_forall in IH. rewrite forallb_forall in Hsub, Hnames.
    destruct (IH (m, Dir es') Hm (join top m) (at_ ++ [m]) dn dns fns (Hsub _ Hm) Hin)
      as [ns [Hns [-> Hdns]]].
    exists (m :: ns). split; [|split; [reflexivity|exact Hdns]].
    constructor; [|exact Hns]. apply Hnames. now apply (in_map fst) in Hm.
Qed.

Lemma name_not_abs n : is_name n = true -> startswith n "/" = false.
Proof.
  intros H. apply is_name_inv in H as [H0 [_ [_ Hs]]].
  destruct n as [|c n]; [congruence|]. cbn [startswith no_slash] in *.
  apply andb_prop in Hs as [Hs _]. unfold is_slash in Hs.
  apply negb_true_iff in Hs. now rewrite andb_true_r, Ascii.eqb_sym.
Qed.

Lemma pl_names_name n : is_name n = true -> Pathlib.names n = [n].
Proof.
  intros H. apply is_name_inv in H as [H0 [H1 [_ Hs]]].
  unfold Pathlib.names. rewrite (split_char_no_slash n Hs). cbn [filter].
  apply String.eqb_neq in H0, H1. now rewrite H0, H1.
Qed.

Lemma pl_names_app_slash a b :
  Pathlib.names (a ++ String "/" b) = Pathlib.names a ++ Pathlib.names b.
Proof. unfold Pathlib.names. now rewrite split_char_app, filter_app. Qed.

Lemma pl_names_join a n :
  is_name n = true -> Pathlib.names (join a n) = Pathlib.names a ++ [n].
Proof.
  intros Hn. unfold join. rewrite (name_not_abs n Hn).
  destruct (String.eqb_spec a "") as [->|Ha]; cbn [orb].
  - now rewrite pl_names_name.
  - destruct (endswith a "/") eqn:E.
    + apply endswith_inv in E as [a' ->]. rewrite append_assoc.
      change ("/" ++ n)%string with (String "/" n).
      rewrite pl_names_app_slash, (pl_names_name n Hn).
      change (a' ++ "/")%string with (a' ++ String "/" "")%string.
      rewrite pl_names_app_slash. cbn. now rewrite app_nil_r.
    + change (a ++ "/" ++ n)%string with (a ++ String "/" n)%string.
      now rewrite pl_names_app_slash, (pl_names_name n Hn).
Qed.

Lemma pl_root_join a n :
  isabs a = true -> is_name n = true ->
  Pathlib.root_of (join a n) = Pathlib.root_of a.
Proof.
  intros Ha Hn. pose proof (name_not_abs n Hn) as Hs.
  apply is_name_inv in Hn as [H0 _].
  destruct n as [|c n]; [congruence|]. cbn [startswith] in Hs.
  rewrite andb_true_r in Hs.
  unfold join. cbn [startswith]. rewrite andb_true_r, Hs.
  destruct a as [|c1 a]; [discriminate|]. unfold isabs in Ha. cbn [startswith] in Ha.
  rewrite andb_true_r in Ha. apply Ascii.eqb_eq in Ha. subst c1.
  cbn [String.eqb orb].
  destruct a as [|c2 a].
  - change (endswith "/" "/") with true. unfold Pathlib.root_of.
    cbn [append startswith]. rewrite !Ascii.eqb_refl, Hs. reflexivity.
  - destruct a as [|c3 a].
    + unfold endswith. cbn [String.length Nat.leb Nat.sub drop String.eqb andb].
      unfold Pathlib.root_of.
      destruct (Ascii.eqb_spec c2 "/") as [->|N].
      * cbn [append startswith]. rewrite !Ascii.eqb_refl, Hs. reflexivity.
      * cbn [append startswith]. apply Ascii.eqb_neq in N. rewrite Ascii.eqb_sym in N.
        rewrite !Ascii.eqb_refl, N. reflexivity.
    + unfold Pathlib.root_of.
      destruct (endswith (String "/" (String c2 (String c3 a))) "/");
        cbn [append startswith]; reflexivity.
Qed.

Lemma fold_join_names ns : forall a,
  isabs a = true -> Forall (fun n => is_name n = true) ns ->
  isabs (fold_left join ns a) = true
  /\ Pathlib.names (fold_left join ns a) = Pathlib.names a ++ ns
  /\ Pathlib.root_of (fold_left join ns a) = Pathlib.root_of a.
Proof.
  induction ns as [|n ns IH]; intros a Ha Hns; cbn [fold_left].
  - now rewrite app_nil_r.
  - inversion Hns as [|? ? Hn Hns']; subst.
    destruct (IH (join a n) (isabs_join a n Ha) Hns') as [H1 [H2 H3]].
    split; [exact H1|]. split.
    + now rewrite H2, (pl_names_join a n Hn), <- app_assoc.
    + now rewrite H3, pl_root_join.
Qed.

Lemma strip_prefix_same pre l : Pathlib.strip_prefix pre (pre ++ l) = Some l.
Proof.
  induction pre as [|x pre IH]; cbn [app Pathlib.strip_prefix].
  - now destruct l.
  - now rewrite String.eqb_refl.
Qed.

(** X19.  The directory the search returns is below the extraction root,
    so [relative_to] never raises [ValueError] on it: the relative path is
    the names walked down from the root followed by the triplet, and is
    never [.]. *)
Theorem located_dir_is_below_extraction_root :
  forall (h : host) (triplet extractdir : string) (st : state) (c : loc) (x : node)
         (d : string),
    isabs extractdir = true ->
    locate (fs st) (getcwd h) true extractdir = inr c ->
    get (fs st) c = Some x ->
    wf x = true ->
    locate_libgcc_dir h triplet extractdir st = (inr (Some d), st) ->
    exists rest,
      Pathlib.relative_to d extractdir = inr (str_join "/" (rest ++ [triplet]))
      /\ Forall (fun n => is_name n = true) (rest ++ [triplet])
      /\ Pathlib.names d = Pathlib.names extractdir ++ rest ++ [triplet].
Proof.
  intros h triplet extractdir st c x d Ha Hloc Hget Hwf Hrun.
  unfold locate_libgcc_dir, bind, ask, ret in Hrun. injection Hrun as Hf.
  apply find_libgcc_dir_found in Hf as [dn [dns [fns [Hin [Ht ->]]]]].
  unfold walk in Hin. rewrite Hloc, Hget in Hin.
  destruct (walk_node_tops _ _ _ _ _ _ _ Hwf Hin) as [ns [Hns [-> Hdns]]].
  assert (Htn : is_name triplet = true).
  { rewrite Forall_forall in Hdns. now apply Hdns. }
  assert (Hall : Forall (fun n => is_name n = true) (ns ++ [triplet])).
  { apply Forall_app. split; [exact Hns|]. now constructor. }
  destruct (fold_join_names (ns ++ [triplet]) extractdir Ha Hall) as [_ [Hn Hr]].
  destruct (fold_join_names ns extractdir Ha Hns) as [Hda _].
  unfold join3. rewrite (join_abs extractdir _ Hda).
  rewrite fold_left_app in Hn, Hr. cbn [fold_left] in Hn, Hr.
  exists ns. split; [|split; [exact Hall|exact Hn]].
  unfold Pathlib.relative_to. rewrite Hr, String.eqb_refl, Hn, strip_prefix_same.
  now destruct ns.
Qed.

Lemma located_dir_is_below_extraction_root_witness :
  Pathlib.relative_to sample_located (extractdir sample_host "x86_64")
  = inr "usr/lib64/clang/17/lib/x86_64-redhat-linux-gnu".
Proof.
  destruct (located_dir_is_below_extraction_root sample_host "x86_64-redhat-linux-gnu"
              (extractdir sample_host "x86_64") sample_extracted
              ["home"; "u"; "yum-x86_64"; "RPMs"; "extract"] sample_payload sample_located)
    as [rest [H _]].
  - reflexivity.
  - vm_compute. reflexivity.
  - vm_compute. reflexivity.
  - reflexivity.
  - vm_compute. reflexivity.
  - vm_compute. reflexivity.
Defined.

(** ** [PLATFORM_SUFFIX] is written once *)

Section Keeps.
Variable h : host.

Lemma keeps_ret {A : Type} (a : A) : keeps_suffix (ret a).
Proof. intros st. reflexivity. Qed.

Lemma keeps_raise {A : Type} (e : exn) : keeps_suffix (@raise A e).
Proof. intros st. reflexivity. Qed.

Lemma keeps_bind {A B : Type} (m : M A) (k : A -> M B) :
  keeps_suffix m -> (forall a, keeps_suffix (k a)) -> keeps_suffix (bind m k).
Proof.
  intros Hm Hk st. unfold bind. specialize (Hm st).
  destruct (m st) as [[e|a] st1]; cbn [snd] in *; [exact Hm|].
  now rewrite (Hk a st1).
Qed.

Lemma keeps_ask {A : Type} (f : node -> A) : keeps_suffix (ask f).
Proof. intros st. reflexivity. Qed.

Lemma keeps_try_ask {A : Type} (f : node -> res A) : keeps_suffix (try_ask f).
Proof. intros st. reflexivity. Qed.

Lemma keeps_update f : keeps_suffix (update f).
Proof. intros st. unfold update. now destruct (f (fs st)). Qed.

Lemma keeps_effect f : keeps_suffix (effect f).
Proof. intros st. unfold effect. now destruct (f (fs st)). Qed.

Lemma keeps_emit e : keeps_suffix (emit e).
Proof. intros st. reflexivity. Qed.

Lemma keeps_printr msg : keeps_suffix (printr msg).
Proof. intros st. reflexivity. Qed.

Lemma keeps_for_each {A : Type} (l : list A) (body : A -> M unit) :
  (forall x, keeps_suffix (body x)) -> keeps_suffix (for_each l body).
Proof.
  intros Hb. induction l as [|x l IH]; cbn [for_each].
  - apply keeps_ret.
  - apply keeps_bind; auto.
Qed.

Lemma keeps_try_except {A : Type} (m : M A) handles handler :
  keeps_suffix m -> keeps_suffix handler -> keeps_suffix (try_except m handles handler).
Proof.
  intros Hm Hh st. unfold try_except. specialize (Hm st).
  destruct (m st) as [[e|a] st1]; cbn [snd] in *; [|exact Hm].
  destruct (handles e); [|exact Hm]. now rewrite (Hh st1).
Qed.

Lemma keeps_subprocess_run argv cwd check : keeps_suffix (subprocess_run h argv cwd check).
Proof.
  intros st. unfold subprocess_run. destruct (exec h argv cwd (fs st)) as [[root rc] out].
  now destruct (check && negb (Z.eqb rc 0)).
Qed.

Lemma keeps_wait p : keeps_suffix (wait h p).
Proof. intros st. unfold wait. now destruct (child h p (fs st)). Qed.

Lemma keeps_Popen argv stdin cwd : keeps_suffix (Popen h argv stdin cwd).
Proof.
  unfold Popen. destruct (fold_right _ _ argv); [|apply keeps_raise].
  apply keeps_bind; [apply keeps_ask|]. intros [|]; [|apply keeps_raise].
  apply keeps_bind; [apply keeps_emit|]. intros _. apply keeps_ret.
Qed.

Lemma keeps_popen_cm {A : Type} argv check stdin cwd (body : process -> M A) :
  (forall p, keeps_suffix (body p)) ->
  keeps_suffix (popen_cm h argv check stdin cwd body).
Proof.
  intros Hb. unfold popen_cm. apply keeps_bind; [apply keeps_Popen|]. intros p.
  apply keeps_bind; [apply Hb|]. intros r.
  apply keeps_bind; [apply keeps_wait|]. intros rc.
  destruct (check && negb (Z.eqb rc 0)); [apply keeps_raise|apply keeps_ret].
Qed.

Lemma keeps_with_fs {A : Type} (f : state -> node * res A) :
  keeps_suffix (fun st => let '(root, r) := f st in (r, with_fs st root)).
Proof. intros st. now destruct (f st). Qed.

Ltac keeps :=
  repeat first
    [ apply keeps_ret | apply keeps_raise | apply keeps_ask | apply keeps_try_ask
    | apply keeps_update | apply keeps_effect | apply keeps_emit | apply keeps_printr
    | apply keeps_subprocess_run | apply keeps_wait | apply keeps_Popen
    | apply keeps_popen_cm; intros | apply keeps_for_each; intros
    | apply keeps_try_except | apply keeps_bind; [|intros]
    | match goal with
      | |- keeps_suffix (if ?b then _ else _) => destruct b
      | |- keeps_suffix (match ?x with _ => _ end) => destruct x
      end ].

Lemma keeps_get_libgcc_path rtlib platform :
  keeps_suffix (get_libgcc_path h rtlib platform).
Proof.
  intros st. unfold get_libgcc_path. cbv zeta.
  apply (keeps_bind (subprocess_run h _ None true)); keeps.
Qed.

Lemma keeps_make_scratch platform a b c d :
  keeps_suffix (make_scratch h platform a b c d).
Proof.
  unfold make_scratch. keeps.
  apply (keeps_with_fs (fun st => copytree (fs st) (getcwd h) "/etc/yum.repos.d" c false)).
Qed.

Lemma keeps_edit_config a b : keeps_suffix (edit_config h a b).
Proof.
  unfold edit_config. keeps.
  all: intros st0;
    repeat match goal with
           | |- context [ini_read h ?t] => destruct (ini_read h t)
           | |- context [ConfigParser.setitem ?c ?s ?o ?v] =>
               destruct (ConfigParser.setitem c s o v)
           end; reflexivity.
Qed.

Lemma keeps_edit_repos platform a : keeps_suffix (edit_repos h platform a).
Proof.
  unfold edit_repos. keeps. unfold edit_repo_file. keeps.
Qed.

Lemma keeps_fetch platform a b : keeps_suffix (fetch h platform a b).
Proof. unfold fetch. keeps. Qed.

Lemma keeps_extract rpm dir : keeps_suffix (extract h rpm dir).
Proof. unfold extract. keeps. Qed.

Lemma keeps_locate triplet dir : keeps_suffix (locate_libgcc_dir h triplet dir).
Proof. unfold locate_libgcc_dir. keeps. Qed.

Lemma keeps_install d dir : keeps_suffix (install h d dir).
Proof.
  unfold install. destruct d as [d|]; [|apply keeps_raise].
  apply keeps_bind.
  - intros st. reflexivity.
  - intros rel.
    apply (keeps_with_fs (fun st => copytree (fs st) (getcwd h) d (join "/" rel) true)).
Qed.

Lemma keeps_install_platform platform : keeps_suffix (install_platform h platform).
Proof.
  intros st. unfold install_platform. cbv zeta.
  apply (keeps_bind (get_libgcc_path h rtlib_default (Some platform))).
  - apply keeps_get_libgcc_path.
  - intros p.
    repeat first
      [ apply keeps_make_scratch | apply keeps_edit_config | apply keeps_edit_repos
      | apply keeps_fetch | apply keeps_extract | apply keeps_locate
      | apply keeps_install | apply keeps_printr | apply keeps_ask
      | unfold build_repo; apply keeps_bind; [|intros]
      | match goal with
        | |- keeps_suffix (if ?b then _ else _) => destruct b
        end ].
Qed.

End Keeps.

(** X20.  The provisioning loop reads [PLATFORM_SUFFIX] and never writes
    it: however [install_alt_platforms_rtlib] ends, with whatever the
    external commands do, the suffix is the one it started with. *)
Theorem provisioning_keeps_suffix :
  forall (h : host) (st : state),
    PLATFORM_SUFFIX (snd (install_alt_platforms_rtlib h st)) = PLATFORM_SUFFIX st.
Proof.
  intros h. change (keeps_suffix (install_alt_platforms_rtlib h)).
  unfold install_alt_platforms_rtlib. apply keeps_for_each.
  apply keeps_install_platform.
Qed.

Lemma pbind_ok {A B : Type} (m : P A) (k : A -> P B) st a st' :
  m st = (inr a, st') -> pbind m k st = k a st'.
Proof. unfold pbind. now intros ->. Qed.

Lemma lift_ok {A : Type} (m : M A) st a st' :
  m st = (inr a, st') -> lift m st = (inr a, st').
Proof. unfold lift. now intros ->. Qed.

Lemma pbind_inv {A B : Type} (m : P A) (k : A -> P B) st b st' :
  pbind m k st = (inr b, st') ->
  exists a st1, m st = (inr a, st1) /\ k a st1 = (inr b, st').
Proof.
  unfold pbind. destruct (m st) as [[e|a] st1]; [discriminate|]. eauto.
Qed.

Lemma lift_inv {A : Type} (m : M A) st a st' :
  lift m st = (inr a, st') -> m st = (inr a, st').
Proof.
  unfold lift. destruct (m st) as [[e|a0] st1]; [discriminate|]. now intros [= <- <-].
Qed.

Lemma populate_sets_suffix h st st' :
  populate_platform_suffix h st = (inr tt, st') ->
  exists s, PLATFORM_SUFFIX st' = Some s.
Proof.
  unfold populate_platform_suffix, bind.
  destruct (get_libgcc_path h rtlib_default None st) as [[e|p] st1]; [discriminate|].
  destruct (nth_error _ 1) as [s|]; [|discriminate].
  unfold printr, emit. intros [= <-]. now exists s.
Qed.

(** X21.  When [main] returns, [PLATFORM_SUFFIX] is set: the loop that
    reads it runs after [populate_platform_suffix] and does not change
    it. *)
Theorem main_leaves_suffix_set :
  forall (mi : machine_info) (h : host) (st st' : state),
    main mi h st = (inr tt, st') ->
    exists s, PLATFORM_SUFFIX st' = Some s.
Proof.
  intros mi h st st' Hrun. unfold main in Hrun.
  apply pbind_inv in Hrun as [[] [s1 [_ Hrun]]].
  apply pbind_inv in Hrun as [[] [s2 [_ Hrun]]].
  apply pbind_inv in Hrun as [[] [s3 [_ Hrun]]].
  apply pbind_inv in Hrun as [[] [s4 [_ Hrun]]].
  apply pbind_inv in Hrun as [[] [s5 [_ Hrun]]].
  apply pbind_inv in Hrun as [[] [s6 [_ Hrun]]].
  apply pbind_inv in Hrun as [[] [s7 [Hpop Hrun]]].
  apply lift_inv in Hpop. apply lift_inv in Hrun.
  destruct (populate_sets_suffix h s6 s7 Hpop) as [s Hs].
  exists s. rewrite <- Hs.
  pose proof (keeps_for_each TARGET_PLATFORMS (install_platform h)
                (keeps_install_platform h) s7) as K.
  fold (install_alt_platforms_rtlib h) in K. now rewrite Hrun in K.
Qed.

Lemma main_leaves_suffix_set_witness :
  exists s, PLATFORM_SUFFIX (snd (main native_machine native_host native_state)) = Some s.
Proof.
  apply (main_leaves_suffix_set native_machine native_host native_state).
  vm_compute. reflexivity.
Defined.

(** ** The steps, with nothing left to do *)

Lemma dnf_plugins_idle h st out :
  exec h dnf_help_cmd None (fs st) = (fs st, 0%Z, out) ->
  detect_dnf_plugins h st = (inr tt, with_event st (EvRun dnf_help_cmd None 0)).
Proof.
  intros E. unfold detect_dnf_plugins, dnf_plugins_installed, try_except, bind,
    subprocess_run, ret. change ["dnf"; "download"; "--help"]%string with dnf_help_cmd.
  rewrite E. cbn [andb negb Z.eqb]. now rewrite with_fs_id.
Qed.

Lemma set_lld_idle h st out :
  exec h ld_version_cmd None (fs st) = (fs st, 0%Z, out) ->
  says_lld out = true ->
  set_lld h st
  = (inr tt, with_event (with_event st (EvRun ld_version_cmd None 0))
                        (EvPrint "System ld is already lld.")).
Proof.
  intros E Hl. unfold set_lld, is_ld_lld, bind, subprocess_run, ret.
  change ["ld"; "-version"]%string with ld_version_cmd. rewrite E.
  cbn [andb negb Z.eqb]. unfold says_lld in Hl. rewrite Hl. cbn [negb].
  now rewrite with_fs_id.
Qed.

Lemma populate_ok h st out :
  exec h ["clang"; "--rtlib=compiler-rt"; "--print-libgcc-file-name"]%string None (fs st)
  = (fs st, 0%Z, out) ->
  let name := basename (dirname (abspath (getcwd h) (strip out))) in
  contains "-" name = true ->
  populate_platform_suffix h st
  = (inr tt,
     with_event
       (with_suffix
          (with_event st
             (EvRun ["clang"; "--rtlib=compiler-rt"; "--print-libgcc-file-name"]%string
                    None 0))
          (Some (strip_through "-" name)))
       (EvPrint ("Detected platform suffix: '" ++ strip_through "-" name ++ "'"))).
Proof.
  intros E name C. unfold populate_platform_suffix.
  rewrite (bind_ok _ _ st _ _ (get_libgcc_path_ok h rtlib_default None st (fs st) out E)).
  rewrite with_fs_id. fold (dirname (abspath (getcwd h) (strip out))).
  fold (basename (dirname (abspath (getcwd h) (strip out)))). fold name.
  unfold split_maxsplit1. destruct (find "-" name) as [i|] eqn:F.
  - cbn [nth_error String.length]. rewrite (find_dash_strip name i F). reflexivity.
  - apply find_none_contains in F. congruence.
Qed.

Lemma install_platform_idle h platform st out :
  exec h (probe_cmdline rtlib_default (Some platform) (PLATFORM_SUFFIX st)) None (fs st)
  = (fs st, 0%Z, out) ->
  path_exists (fs st) (getcwd h) (abspath (getcwd h) (strip out)) = true ->
  install_platform h platform st
  = (inr tt,
     with_event
       (with_event st
          (EvRun (probe_cmdline rtlib_default (Some platform) (PLATFORM_SUFFIX st))
                 None 0))
       (EvPrint ("compiler-rt for " ++ platform ++ " already installed."))).
Proof.
  intros E Hex. unfold install_platform.
  rewrite (bind_ok _ _ st _ _
             (get_libgcc_path_ok h rtlib_default (Some platform) st (fs st) out E)).
  rewrite with_fs_id. unfold bind at 1. unfold ask. cbn [fs with_event].
  rewrite Hex. reflexivity.
Qed.

(** ** The whole script, with nothing left to do *)

Lemma gates_pass mi h st :
  system mi = "Linux"%string -> machine mi = "aarch64"%string ->
  (forall exe, In exe pkg_mgr_exes ->
               exists p, which mi exe (fs st) = Some p /\ p <> ""%string) ->
  main mi h st
  = pbind (lift (detect_dnf_plugins h)) (fun _ =>
    pbind (lift (install_native_dev_tools mi h)) (fun _ =>
    pbind (lift (set_lld h)) (fun _ =>
    pbind (lift (remove_libgcc_s h)) (fun _ =>
    pbind (lift (populate_platform_suffix h)) (fun _ =>
    lift (install_alt_platforms_rtlib h)))))) st.
Proof.
  intros Hs Hm Hw. unfold main.
  assert (G1 : detect_machine_type mi st = (inr tt, st)).
  { unfold detect_machine_type. rewrite Hs, Hm. reflexivity. }
  rewrite (pbind_ok _ _ st tt st G1).
  assert (G2 : detect_rpm_distro mi st = (inr tt, st)).
  { unfold detect_rpm_distro.
    rewrite (pbind_ok _ _ st true st); [reflexivity|].
    now apply lift_ok, all_which_true. }
  now rewrite (pbind_ok _ _ st tt st G2).
Qed.

Lemma target_probe_eq platform suffix st :
  PLATFORM_SUFFIX st = Some suffix -> platform <> ""%string ->
  probe_cmdline rtlib_default (Some platform) (PLATFORM_SUFFIX st)
  = target_probe_cmd platform suffix.
Proof.
  intros -> Hp. unfold probe_cmdline, target_probe_cmd, rtlib_default.
  destruct platform; [congruence|]. reflexivity.
Qed.

(** X22.  A run on a host where nothing is left to do touches no file.
    Take a Linux aarch64 machine where the nine tools are found, and
    external probes that change nothing: [dnf download --help] exits with
    0, [ld -version] says LLD, the directory of the native [libgcc.a] has
    no [libgcc_s.so], the directory of the native runtime library has a
    [-] in its name, and the runtime library of the target exists.  Then
    the script exits with status 0, the file system is the one it started
    with, and it has run the five probes and printed its messages, nothing
    else. *)
Theorem second_run_touches_nothing :
  forall (mi : machine_info) (h : host) (st : state) (o1 o2 o3 o4 o5 : string)
         (es : list (string * node)),
    system mi = "Linux"%string -> machine mi = "aarch64"%string ->
    (forall exe,
       In exe ["rpm"; "dnf"; "yum"; "gcc"; "make"; "clang"; "lld"; "unzip"; "cpio"]%string ->
       exists p, which mi exe (fs st) = Some p /\ p <> ""%string) ->
    isabs (getcwd h) = true ->
    exec h dnf_help_cmd None (fs st) = (fs st, 0%Z, o1) ->
    exec h ld_version_cmd None (fs st) = (fs st, 0%Z, o2) -> says_lld o2 = true ->
    exec h gcc_probe_cmd None (fs st) = (fs st, 0%Z, o3) ->
    get (fs st) (libgcc_s_dir h o3) = Some (Dir es) ->
    lookup "libgcc_s.so" es = None ->
    exec h rt_probe_cmd None (fs st) = (fs st, 0%Z, o4) ->
    let name := basename (dirname (abspath (getcwd h) (strip o4))) in
    let suffix := strip_through "-" name in
    contains "-" name = true ->
    exec h (target_probe_cmd "x86_64" suffix) None (fs st) = (fs st, 0%Z, o5) ->
    path_exists (fs st) (getcwd h) (abspath (getcwd h) (strip o5)) = true ->
    script mi h st
    = (0%Z, {| fs := fs st; PLATFORM_SUFFIX := Some suffix;
               trace := trace st ++ idle_trace suffix |}).
Proof.
  intros mi h st o1 o2 o3 o4 o5 es Hs Hm Hw Hcwd E1 E2 Hl E3 Hd Hso E4 name suffix
         Hdash E5 Hex.
  unfold script. rewrite (gates_pass mi h st Hs Hm).
  2:{ intros exe Hin. apply Hw. unfold pkg_mgr_exes in Hin.
      destruct Hin as [<-|[<-|[<-|[]]]]; cbn [In]; auto. }
  pose proof (dnf_plugins_idle h st o1 E1) as H1.
  set (s1 := with_event st (EvRun dnf_help_cmd None 0)) in *.
  assert (H2 : exists s2, install_native_dev_tools mi h s1 = (inr tt, s2)
                          /\ fs s2 = fs st /\ PLATFORM_SUFFIX s2 = PLATFORM_SUFFIX st
                          /\ trace s2 = trace st ++ firstn 4 (idle_trace suffix)).
  { eexists. split; [apply native_tools_idle|].
    - intros exe Hin. apply Hw. cbn [In] in *. tauto.
    - repeat split. cbn [trace with_event s1]. now rewrite <- !app_assoc. }
  destruct H2 as [s2 [H2 [F2 [P2 T2]]]].
  rewrite <- F2 in E2.
  pose proof (set_lld_idle h s2 o2 E2 Hl) as H3.
  set (s3 := with_event (with_event s2 _) _) in H3.
  assert (F3 : fs s3 = fs st) by exact F2.
  rewrite <- F3 in E3, Hd.
  pose proof (remove_libgcc_s_absent_eq h s3 (fs s3) o3 es Hcwd E3 Hd Hso) as H4.
  rewrite with_fs_id in H4.
  set (s4 := with_event (with_event s3 _) _) in H4.
  assert (F4 : fs s4 = fs st) by exact F3.
  rewrite <- F4 in E4.
  pose proof (populate_ok h s4 o4 E4 Hdash) as H5. fold name in H5. fold suffix in H5.
  set (s5 := with_event (with_suffix _ _) _) in H5.
  assert (F5 : fs s5 = fs st) by exact F4.
  assert (P5 : PLATFORM_SUFFIX s5 = Some suffix) by reflexivity.
  rewrite <- F5 in E5, Hex.
  rewrite <- (target_probe_eq "x86_64" suffix s5 P5) in E5 by discriminate.
  pose proof (install_platform_idle h "x86_64" s5 o5 E5 Hex) as H6.
  rewrite (target_probe_eq "x86_64" suffix s5 P5) in H6 by discriminate.
  set (s6 := with_event (with_event s5 _) _) in H6.
  rewrite (pbind_ok _ _ st tt s1 (lift_ok _ _ _ _ H1)).
  rewrite (pbind_ok _ _ s1 tt s2 (lift_ok _ _ _ _ H2)).
  rewrite (pbind_ok _ _ s2 tt s3 (lift_ok _ _ _ _ H3)).
  rewrite (pbind_ok _ _ s3 tt s4 (lift_ok _ _ _ _ H4)).
  rewrite (pbind_ok _ _ s4 tt s5 (lift_ok _ _ _ _ H5)).
  assert (H7 : install_alt_platforms_rtlib h s5 = (inr tt, s6)).
  { unfold install_alt_platforms_rtlib, TARGET_PLATFORMS. cbn [for_each].
    now rewrite (bind_ok _ _ s5 tt s6 H6). }
  rewrite (lift_ok _ _ _ _ H7). unfold exit_status. f_equal.
  assert (T6 : trace s6 = trace st ++ idle_trace suffix).
  { unfold s6, s5, s4, s3. cbn [trace with_event with_suffix]. rewrite T2.
    unfold idle_trace. cbn [firstn]. now rewrite <- !app_assoc. }
  assert (F6 : fs s6 = fs st) by exact F5.
  assert (P6 : PLATFORM_SUFFIX s6 = Some suffix) by reflexivity.
  rewrite <- T6, <- F6, <- P6. now destruct s6.
Qed.

Lemma second_run_touches_nothing_witness :
  fst (script native_machine native_host native_provisioned) = 0%Z
  /\ fs (snd (script native_machine native_host native_provisioned))
     = fs native_provisioned.
Proof.
  rewrite (second_run_touches_nothing native_machine native_host native_provisioned
             "usage" lld_out gcc_out rt_out rt_x86_out
             [("libgcc.a", File "!<arch>");
              ("libgcc_s.so.bak",
               File "/* GNU ld script */ GROUP ( /lib64/libgcc_s.so.1 )")]).
  - split; reflexivity.
  - reflexivity.
  - reflexivity.
  - intros exe _. eexists. split; [reflexivity|discriminate].
  - reflexivity.
  - reflexivity.
  - reflexivity.
  - reflexivity.
  - reflexivity.
  - vm_compute. reflexivity.
  - reflexivity.
  - reflexivity.
  - reflexivity.
  - reflexivity.
  - vm_compute. reflexivity.
Defined.
